(** * CPH5: a shallow embedding of the selection, record and reflection code

    The development follows the headers of the library:
    - [cph5utilities.h]  : [CPH5IOFacility] (module [IOFacility]);
    - [cph5comptype.h]   : [CPH5CompType] and its members (module [CompType]),
                           arrays of primitives (module [MemberArray]) and
                           arrays of records (module [RecordArray]);
    - [cph5dataset.h]    : the root [CPH5Dataset] (module [Dataset]);
    - [cph5dynamic.h]    : [CPH5Dynamic::recurseComptype] (module [Dynamic]).

    Further modules follow the same headers: the byte swaps of
    [CPH5Swappers] ([Swappers]) and the latching that uses them
    ([Swapping]), the regions a facility selects ([Selection]), the children
    of a record, its nested types and its bytes ([CompTree], [Nesting],
    [Footprint]), arrays of chars ([CharArray]), the rows and sizes of a
    dataset ([Rows]) and the children of a [CPH5Group] ([Group]).

    The HDF5 library is an external collaborator.  Its data types and data
    spaces are described by small inductive types, its datasets by the
    operations of the class [StorageEngine].  A function of the library that
    can leave the defined behaviour of C++ (an index past the end of an
    array) or whose request the engine refuses returns [None].  The content
    of a stack array before it is written is an explicit parameter,
    [junk]. *)

From Stdlib Require Import String ZArith Bool Lia Arith List.
Import ListNotations.
Open Scope Z_scope.

Set Implicit Arguments.
Set Warnings "-register-all".

(* ------------------------------------------------------------------------- *)
(** ** Machine integers *)

(** [int] is a 32-bit two's complement integer; [hsize_t] and [size_t] are
    unsigned 64-bit integers.  Conversions are written out. *)

Definition int_min : Z := - 2 ^ 31.
Definition int_max : Z := 2 ^ 31 - 1.

Definition to_int (z : Z) : Z := (z + 2 ^ 31) mod 2 ^ 32 - 2 ^ 31.
Definition to_hsize (z : Z) : Z := z mod 2 ^ 64.

Definition in_int (z : Z) : Prop := int_min <= z <= int_max.

Lemma to_int_id z : in_int z -> to_int z = z.
Proof.
  unfold in_int, int_min, int_max, to_int. intros H.
  rewrite Z.mod_small by lia. lia.
Qed.

Lemma to_hsize_id z : 0 <= z < 2 ^ 64 -> to_hsize z = z.
Proof. unfold to_hsize. intros H. now rewrite Z.mod_small. Qed.

Lemma to_hsize_to_int z : 0 <= z <= int_max -> to_hsize (to_int z) = z.
Proof.
  intros H. rewrite to_int_id.
  - apply to_hsize_id. unfold int_max in H. lia.
  - unfold in_int, int_min, int_max in *. lia.
Qed.

(** Product of a list of extents, as the engine counts selected points. *)
Definition product (l : list Z) : Z := fold_right Z.mul 1 l.

(* ------------------------------------------------------------------------- *)
(** ** Arrays on the stack *)

(** A C array of [hsize_t].  [store] fails past the end of the array. *)

Definition carray := list Z.

Fixpoint store (i : nat) (v : Z) (a : carray) {struct a} : option carray :=
  match a, i with
  | [], _ => None
  | _ :: r, O => Some (v :: r)
  | x :: r, S j => option_map (cons x) (store j v r)
  end.

(** Option as the monad of calls that may not return normally. *)
Definition obind {A B} (o : option A) (k : A -> option B) : option B :=
  match o with
  | Some a => k a
  | None => None
  end.

Notation "x <- a ;; b" := (obind a (fun x => b))
  (at level 61, a at next level, right associativity).

(* ------------------------------------------------------------------------- *)
(** ** The HDF5 side *)

Inductive H5T_sign := H5T_SGN_NONE | H5T_SGN_2 | H5T_SGN_ERROR.

(** Classes that carry no structure used by the library. *)
Inductive H5T_other :=
  H5T_TIME | H5T_STRING | H5T_BITFIELD | H5T_OPAQUE | H5T_REFERENCE
| H5T_ENUM | H5T_VLEN.

(** A stored data type.  A compound lists (name, byte offset, type) in the
    order of insertion; an array carries its dimensions. *)
Inductive H5Type :=
| H5NoType                                   (* a default constructed DataType *)
| H5Integer (size : Z) (sign : H5T_sign)
| H5Float (size : Z)
| H5Compound (size : Z) (members : list (string * Z * H5Type))
| H5Array (dims : list Z) (base : H5Type)
| H5Other (cls : H5T_other) (size : Z).

Fixpoint h5_getSize (t : H5Type) : Z :=
  match t with
  | H5NoType => 0
  | H5Integer s _ => s
  | H5Float s => s
  | H5Compound s _ => s
  | H5Array d b => product d * h5_getSize b
  | H5Other _ s => s
  end.

(** Two predefined types. *)
Definition uint8 : H5Type := H5Integer 1 H5T_SGN_NONE.
Definition int32 : H5Type := H5Integer 4 H5T_SGN_2.

(** [H5::CompType(size)] followed by [insertMember]. *)
Definition CompType_new (size : Z) : H5Type := H5Compound size [].

Definition insertMember (name : string) (offset : Z) (ty : H5Type)
  (c : H5Type) : H5Type :=
  match c with
  | H5Compound s ms => H5Compound s (ms ++ [(name, offset, ty)])
  | other => other
  end.

(** A data space: a scalar, or a simple extent with either everything
    selected or one hyperslab [(count, start)]. *)
Inductive DataSpace :=
| ScalarSpace
| SimpleSpace (dims : list Z) (sel : option (list Z * list Z)).

Definition space_rank (s : DataSpace) : nat :=
  match s with
  | ScalarSpace => O
  | SimpleSpace d _ => length d
  end.

Definition getSelectNpoints (s : DataSpace) : Z :=
  match s with
  | ScalarSpace => 1
  | SimpleSpace d None => product d
  | SimpleSpace _ (Some (count, _)) => product count
  end.

(** [selectHyperslab(H5S_SELECT_SET, count, start)]: the engine reads as many
    entries of both arrays as the space has dimensions, and refuses a scalar
    space. *)
Definition selectHyperslab (s : DataSpace) (count start : carray)
  : option DataSpace :=
  match s with
  | ScalarSpace => None
  | SimpleSpace d _ =>
      Some (SimpleSpace d (Some (firstn (length d) count,
                                 firstn (length d) start)))
  end.

(** [H5::DataSpace(rank, dims, NULL)]. *)
Definition DataSpace_simple (rank : nat) (dims : carray) : DataSpace :=
  SimpleSpace (firstn rank dims) None.

(** An open [H5::DataSet] is named by a handle. *)
Definition handle := nat.

(** The datasets of the container.  [Buf] is the type of the caller's
    buffers.  [ds_extend] reports whether the engine accepted the new size;
    a refusal is the exception the C++ call raises. *)
Class StorageEngine (Buf : Type) := {
  Storage : Type;
  ds_dims : Storage -> handle -> list Z;
  ds_write : handle -> Buf -> H5Type -> DataSpace -> DataSpace -> Storage -> Storage;
  ds_read : handle -> H5Type -> DataSpace -> DataSpace -> Storage -> Buf;
  ds_extend : handle -> list Z -> Storage -> Storage * bool
}.

(** [DataSet::getSpace]: the extent of the dataset with everything selected;
    a dataset without dimensions is a scalar. *)
Definition getSpace {Buf} {E : StorageEngine Buf} (st : Storage) (h : handle)
  : DataSpace :=
  match ds_dims st h with
  | [] => ScalarSpace
  | d => SimpleSpace d None
  end.

(** A reference engine for worked examples.  It keeps, for every handle, the
    extent of the dataset and the last buffer written to it, and it records
    every request that changes the container.  It accepts every extension,
    of which it reads as many sizes as the dataset has dimensions. *)
Inductive request (Buf : Type) :=
| ReqWrite (h : handle) (src : Buf) (type : H5Type) (mem file : DataSpace)
| ReqExtend (h : handle) (size : list Z).

Arguments ReqExtend {Buf} h size.

Record recorded (Buf : Type) := mkRecorded {
  rec_dims : handle -> list Z;
  rec_data : handle -> Buf;
  rec_log : list (request Buf)
}.

Definition update {A} (m : handle -> A) (h : handle) (v : A) : handle -> A :=
  fun k => if Nat.eqb k h then v else m k.

#[local] Instance Recorder (Buf : Type) : StorageEngine Buf := {
  Storage := recorded Buf;
  ds_dims st h := rec_dims st h;
  ds_write h src type mem file st :=
    {| rec_dims := rec_dims st;
       rec_data := update (rec_data st) h src;
       rec_log := rec_log st ++ [ReqWrite h src type mem file] |};
  ds_read h type mem file st := rec_data st h;
  ds_extend h size st :=
    ({| rec_dims :=
          update (rec_dims st) h (firstn (length (rec_dims st h)) size);
        rec_data := rec_data st;
        rec_log := rec_log st ++ [ReqExtend h size] |}, true)
}.

(** A container whose datasets all have the extent [dims] and hold [b]. *)
Definition container {Buf} (dims : list Z) (b : Buf) : recorded Buf :=
  {| rec_dims := fun _ => dims; rec_data := fun _ => b; rec_log := [] |}.

(* ------------------------------------------------------------------------- *)
(** ** cph5utilities.h: CPH5IOFacility *)

Module IOFacility.

Definition CPH_5_MAX_DIMS : nat := 32.

Record CPH5IOFacility := mkFacility {
  mpDataSet : option handle;
  mType : H5Type;
  numDims : Z;                 (* int *)
  mMaxDims : list Z;           (* std::vector<int> *)
  mIndices : list Z;           (* std::vector<int> *)
  mMemspace : DataSpace;
  mFilespace : DataSpace
}.

(** The default constructor. *)
Definition new_facility : CPH5IOFacility :=
  {| mpDataSet := None; mType := H5NoType; numDims := -1;
     mMaxDims := []; mIndices := [];
     mMemspace := ScalarSpace; mFilespace := ScalarSpace |}.

(** [init]: every extent is pushed into a vector of [int]. *)
Definition init (pDataSet : option handle) (type : H5Type) (nDims : Z)
  (maxDims : list Z) (f : CPH5IOFacility) : CPH5IOFacility :=
  {| mpDataSet := pDataSet; mType := type; numDims := nDims;
     mMaxDims := map to_int (firstn (Z.to_nat nDims) maxDims);
     mIndices := [];
     mMemspace := mMemspace f; mFilespace := mFilespace f |}.

(** The test that follows the [push_back] in [addIndex]; its branch is
    empty. *)
Definition tooManyIndices (f : CPH5IOFacility) : bool :=
  numDims f <? Z.of_nat (length (mIndices f)).

Definition addIndex (ind : Z) (f : CPH5IOFacility) : CPH5IOFacility :=
  if numDims f =? -1 then f
  else
    let f' :=
      {| mpDataSet := mpDataSet f; mType := mType f; numDims := numDims f;
         mMaxDims := mMaxDims f; mIndices := mIndices f ++ [ind];
         mMemspace := mMemspace f; mFilespace := mFilespace f |} in
    if tooManyIndices f' then f' else f'.

Definition getIndices (f : CPH5IOFacility) : list Z := mIndices f.

Definition setIndices (indices : list Z) (f : CPH5IOFacility)
  : CPH5IOFacility :=
  {| mpDataSet := mpDataSet f; mType := mType f; numDims := numDims f;
     mMaxDims := mMaxDims f; mIndices := indices;
     mMemspace := mMemspace f; mFilespace := mFilespace f |}.

Definition set_spaces (mem file : DataSpace) (f : CPH5IOFacility)
  : CPH5IOFacility :=
  {| mpDataSet := mpDataSet f; mType := mType f; numDims := numDims f;
     mMaxDims := mMaxDims f; mIndices := mIndices f;
     mMemspace := mem; mFilespace := file |}.

(** [for (i = 0; i < mIndices.size(); ++i) offsets[i] = mIndices[i];] *)
Fixpoint fill_offsets (i : nat) (ix : list Z) (offsets : carray)
  : option carray :=
  match ix with
  | [] => Some offsets
  | x :: r => a <- store i (to_hsize x) offsets ;; fill_offsets (S i) r a
  end.

(** The value given to [extents[i]] by [setupSpaces]. *)
Definition extent_at (f : CPH5IOFacility) (i : nat) : option Z :=
  if (i <? length (mIndices f))%nat then Some 1
  else option_map to_hsize (nth_error (mMaxDims f) i).

(** The value given to [extents[i]] by [setupSpacesOffset]. *)
Definition extent_offset_at (offset : Z) (f : CPH5IOFacility) (i : nat)
  : option Z :=
  if (i <? length (mIndices f))%nat then Some 1
  else if (i =? length (mIndices f))%nat then
    option_map (fun m => to_hsize (to_int (m - offset)))
               (nth_error (mMaxDims f) i)
  else option_map to_hsize (nth_error (mMaxDims f) i).

(** [for (i = 0; i < numDims; ++i) extents[i] = ...], from [i] for [n]
    rounds. *)
Fixpoint fill_extents (at_ : nat -> option Z) (i n : nat) (extents : carray)
  : option carray :=
  match n with
  | O => Some extents
  | S n' =>
      e <- at_ i ;;
      a <- store i e extents ;;
      fill_extents at_ (S i) n' a
  end.

Section WithEngine.

Context {Buf : Type} {E : StorageEngine Buf}.

(** What the two stack arrays hold before they are written: [junk i] for
    entry [i] of [offsets] and [junk (32 + i)] for entry [i] of [extents]. *)
Variable junk : nat -> Z.

(** [hsize_t offsets[CPH_5_MAX_DIMS]; memset(offsets, 0, CPH_5_MAX_DIMS*4);]
    an [hsize_t] has eight bytes, the call clears the first sixteen
    entries. *)
Definition offsets_after_memset : carray :=
  repeat 0 16 ++ map junk (seq 16 16).

Definition extents_declared : carray := map junk (seq 32 32).

(** The tail shared by [setupSpaces] and [setupSpacesOffset]. *)
Definition select_spaces (extents offsets : carray) (f : CPH5IOFacility)
  (st : Storage) : option CPH5IOFacility :=
  match mpDataSet f with
  | None => Some f
  | Some h =>
      let filespace := getSpace st h in
      if numDims f =? 0 then Some (set_spaces ScalarSpace filespace f)
      else if numDims f <? 0 then None
      else
        fs <- selectHyperslab filespace extents offsets ;;
        Some (set_spaces
                (DataSpace_simple (Z.to_nat (numDims f)) extents) fs f)
  end.

Definition setupSpaces (f : CPH5IOFacility) (st : Storage)
  : option CPH5IOFacility :=
  if numDims f =? -1 then Some f
  else
    offsets <- fill_offsets 0 (mIndices f) offsets_after_memset ;;
    extents <- fill_extents (extent_at f) 0 (Z.to_nat (numDims f))
                            extents_declared ;;
    select_spaces extents offsets f st.

Definition setupSpacesOffset (offset : Z) (f : CPH5IOFacility) (st : Storage)
  : option CPH5IOFacility :=
  if numDims f =? -1 then Some f
  else
    offsets <- fill_offsets 0 (mIndices f) offsets_after_memset ;;
    offsets <- store (length (mIndices f)) (to_hsize offset) offsets ;;
    extents <- fill_extents (extent_offset_at offset f) 0
                            (Z.to_nat (numDims f)) extents_declared ;;
    select_spaces extents offsets f st.

(** [write(src)] and [write(src, type)]. *)
Definition write_with (type : H5Type) (src : Buf) (f : CPH5IOFacility)
  (st : Storage) : option (CPH5IOFacility * Storage) :=
  match mpDataSet f with
  | None => Some (f, st)
  | Some h =>
      f' <- setupSpaces f st ;;
      Some (f', ds_write h src type (mMemspace f') (mFilespace f') st)
  end.

Definition write (src : Buf) (f : CPH5IOFacility) (st : Storage) :=
  write_with (mType f) src f st.

Definition writeWithOffset (offset : Z) (src : Buf) (f : CPH5IOFacility)
  (st : Storage) : option (CPH5IOFacility * Storage) :=
  match mpDataSet f with
  | None => Some (f, st)
  | Some h =>
      f' <- setupSpacesOffset offset f st ;;
      Some (f', ds_write h src (mType f') (mMemspace f') (mFilespace f') st)
  end.

(** [read(dst)] and [read(dst, type)]: the second component is what the
    engine stored into [dst], [None] when [dst] was not touched. *)
Definition read_with (type : H5Type) (f : CPH5IOFacility) (st : Storage)
  : option (CPH5IOFacility * option Buf) :=
  match mpDataSet f with
  | None => Some (f, None)
  | Some h =>
      f' <- setupSpaces f st ;;
      Some (f', Some (ds_read h type (mMemspace f') (mFilespace f') st))
  end.

Definition read (f : CPH5IOFacility) (st : Storage) :=
  read_with (mType f) f st.

Definition getNumLowerElements (f : CPH5IOFacility) (st : Storage)
  : option (CPH5IOFacility * Z) :=
  f' <- setupSpaces f st ;;
  Some (f', to_hsize (getSelectNpoints (mFilespace f'))).

Definition getSizeLowerElements (f : CPH5IOFacility) (st : Storage)
  : option (CPH5IOFacility * Z) :=
  f' <- setupSpaces f st ;;
  Some (f', to_hsize (getSelectNpoints (mMemspace f')
                      * h5_getSize (mType f'))).

End WithEngine.

(** *** Facts on the stack arrays *)

Lemma store_app (pre : carray) x rest v :
  store (length pre) v (pre ++ x :: rest) = Some (pre ++ v :: rest).
Proof.
  induction pre as [|p pre IH]; simpl; [reflexivity|].
  now rewrite IH.
Qed.

Lemma store_beyond i v (a : carray) :
  (length a <= i)%nat -> store i v a = None.
Proof.
  revert i; induction a as [|x a IH]; intros i H; simpl in *.
  - reflexivity.
  - destruct i as [|j]; [lia|]. rewrite IH by lia. reflexivity.
Qed.

Lemma fill_offsets_app ix : forall pre mid rest,
  length mid = length ix ->
  fill_offsets (length pre) ix (pre ++ mid ++ rest)
  = Some (pre ++ map to_hsize ix ++ rest).
Proof.
  induction ix as [|x ix IH]; intros pre mid rest Hlen.
  - destruct mid; [reflexivity|discriminate].
  - destruct mid as [|m mid]; [discriminate|].
    simpl. rewrite store_app. simpl.
    specialize (IH (pre ++ [to_hsize x]) mid rest).
    rewrite length_app in IH. simpl in IH.
    replace (length pre + 1)%nat with (S (length pre)) in IH by lia.
    rewrite <- !app_assoc in IH. simpl in IH.
    apply IH. simpl in Hlen. lia.
Qed.

Lemma fill_extents_app (at_ : nat -> option Z) (g : nat -> Z) n :
  forall pre mid rest,
  length mid = n ->
  (forall j, (length pre <= j < length pre + n)%nat -> at_ j = Some (g j)) ->
  fill_extents at_ (length pre) n (pre ++ mid ++ rest)
  = Some (pre ++ map g (seq (length pre) n) ++ rest).
Proof.
  induction n as [|n IH]; intros pre mid rest Hlen Hat.
  - destruct mid; [reflexivity|discriminate].
  - destruct mid as [|m mid]; [discriminate|].
    simpl. rewrite (Hat (length pre)) by lia. simpl.
    rewrite store_app. simpl.
    specialize (IH (pre ++ [g (length pre)]) mid rest).
    rewrite length_app in IH. simpl in IH.
    replace (length pre + 1)%nat with (S (length pre)) in IH by lia.
    rewrite <- !app_assoc in IH. simpl in IH.
    apply IH.
    + simpl in Hlen. lia.
    + intros j Hj. apply Hat. lia.
Qed.

Lemma fill_offsets_from_start ix (a : carray) :
  (length ix <= length a)%nat ->
  fill_offsets 0 ix a = Some (map to_hsize ix ++ skipn (length ix) a).
Proof.
  intros H.
  rewrite <- (firstn_skipn (length ix) a) at 1.
  apply (fill_offsets_app ix [] (firstn (length ix) a) (skipn (length ix) a)).
  rewrite length_firstn. lia.
Qed.

Lemma store_length i v (a a' : carray) :
  store i v a = Some a' -> length a' = length a.
Proof.
  revert i a'. induction a as [|y a IH]; intros i a' H; simpl in H.
  - discriminate.
  - destruct i as [|j].
    + injection H as <-. reflexivity.
    + destruct (store j v a) as [b|] eqn:Hj; [|discriminate].
      injection H as <-. simpl. f_equal. eapply IH. exact Hj.
Qed.

(** More indices than the array has entries: the loop writes past its
    end. *)
Lemma fill_offsets_overflow ix : forall i (a : carray),
  (i <= length a < i + length ix)%nat ->
  fill_offsets i ix a = None.
Proof.
  induction ix as [|x ix IH]; intros i a H; simpl in *.
  - lia.
  - destruct (store i (to_hsize x) a) as [a'|] eqn:Hs; [|reflexivity].
    simpl. apply IH. rewrite (store_length _ _ _ Hs).
    destruct (Nat.eq_dec i (length a)) as [->|Hne]; [|lia].
    rewrite store_beyond in Hs by lia. discriminate.
Qed.

Lemma fill_extents_from_start (at_ : nat -> option Z) (g : nat -> Z) n
  (a : carray) :
  (n <= length a)%nat ->
  (forall j, (j < n)%nat -> at_ j = Some (g j)) ->
  fill_extents at_ 0 n a = Some (map g (seq 0 n) ++ skipn n a).
Proof.
  intros H Hat.
  rewrite <- (firstn_skipn n a) at 1.
  apply (fill_extents_app at_ g [] (firstn n a) (skipn n a)).
  - rewrite length_firstn. lia.
  - intros j Hj. apply Hat. simpl in Hj. lia.
Qed.

(** *** What [setupSpaces] selects *)

Section Facts.

Context {Buf : Type} {E : StorageEngine Buf}.

Definition extent_value (f : CPH5IOFacility) (j : nat) : Z :=
  if (j <? length (mIndices f))%nat then 1
  else to_hsize (nth j (mMaxDims f) 0).

Lemma extent_at_value f j :
  (j < length (mIndices f))%nat \/ (j < length (mMaxDims f))%nat ->
  extent_at f j = Some (extent_value f j).
Proof.
  unfold extent_at, extent_value. intros H.
  destruct (j <? length (mIndices f))%nat eqn:Hj; [reflexivity|].
  apply Nat.ltb_ge in Hj.
  destruct H as [H|H]; [lia|].
  destruct (nth_error (mMaxDims f) j) as [m|] eqn:Hn.
  - simpl. f_equal. f_equal. symmetry. now apply nth_error_nth.
  - apply nth_error_None in Hn. lia.
Qed.

Lemma length_offsets_after_memset junk :
  length (offsets_after_memset junk) = 32%nat.
Proof.
  unfold offsets_after_memset.
  rewrite length_app, repeat_length, length_map, length_seq. reflexivity.
Qed.

Lemma length_extents_declared junk :
  length (extents_declared junk) = 32%nat.
Proof.
  unfold extents_declared. rewrite length_map, length_seq. reflexivity.
Qed.

Definition selected_extents (f : CPH5IOFacility) (N : nat) : list Z :=
  map (extent_value f) (seq 0 N).

Definition selected_offsets (junk : nat -> Z) (f : CPH5IOFacility) (N : nat)
  : list Z :=
  firstn N (map to_hsize (mIndices f)
            ++ skipn (length (mIndices f)) (offsets_after_memset junk)).

Lemma setupSpaces_simple junk f st h N :
  mpDataSet f = Some h ->
  numDims f = Z.of_nat N ->
  (0 < N <= CPH_5_MAX_DIMS)%nat ->
  (length (mIndices f) <= CPH_5_MAX_DIMS)%nat ->
  (forall j, (j < N)%nat ->
     (j < length (mIndices f))%nat \/ (j < length (mMaxDims f))%nat) ->
  length (ds_dims st h) = N ->
  setupSpaces junk f st
  = Some (set_spaces
            (SimpleSpace (selected_extents f N) None)
            (SimpleSpace (ds_dims st h)
               (Some (selected_extents f N, selected_offsets junk f N)))
            f).
Proof.
  unfold CPH_5_MAX_DIMS. intros Hds Hn HN Hk Hat Hrank.
  unfold setupSpaces.
  destruct (numDims f =? -1) eqn:H1; [apply Z.eqb_eq in H1; lia|].
  rewrite fill_offsets_from_start
    by (rewrite length_offsets_after_memset; lia).
  cbn [obind].
  rewrite Hn, Nat2Z.id.
  rewrite (@fill_extents_from_start (extent_at f) (extent_value f))
    by (rewrite ?length_extents_declared; try lia;
        intros j Hj; apply extent_at_value; auto).
  cbn [obind]. unfold select_spaces. rewrite Hds, Hn.
  destruct (Z.of_nat N =? 0) eqn:H0; [apply Z.eqb_eq in H0; lia|].
  destruct (Z.of_nat N <? 0) eqn:Hneg; [apply Z.ltb_lt in Hneg; lia|].
  rewrite Nat2Z.id.
  unfold getSpace.
  destruct (ds_dims st h) as [|d0 dr] eqn:Hd; [simpl in Hrank; lia|].
  unfold selectHyperslab, DataSpace_simple. cbn [obind].
  rewrite Hrank.
  assert (Hfe : firstn N (map (extent_value f) (seq 0 N)
                          ++ skipn N (extents_declared junk))
                = map (extent_value f) (seq 0 N)).
  { rewrite firstn_app, length_map, length_seq, Nat.sub_diag.
    rewrite firstn_O, app_nil_r.
    apply firstn_all2. rewrite length_map, length_seq. lia. }
  rewrite Hfe. reflexivity.
Qed.

Lemma setupSpaces_scalar junk f st h :
  mpDataSet f = Some h ->
  numDims f = 0 ->
  (length (mIndices f) <= CPH_5_MAX_DIMS)%nat ->
  setupSpaces junk f st = Some (set_spaces ScalarSpace (getSpace st h) f).
Proof.
  unfold CPH_5_MAX_DIMS. intros Hds Hn Hk.
  unfold setupSpaces. rewrite Hn. cbn [Z.eqb].
  rewrite fill_offsets_from_start
    by (rewrite length_offsets_after_memset; lia).
  cbn. unfold select_spaces. rewrite Hds, Hn. reflexivity.
Qed.

(** With more than [CPH_5_MAX_DIMS] indices [setupSpaces] leaves the
    array [offsets]. *)
Lemma setupSpaces_overflows junk f st :
  numDims f <> -1 ->
  (CPH_5_MAX_DIMS < length (mIndices f))%nat ->
  setupSpaces junk f st = None.
Proof.
  unfold CPH_5_MAX_DIMS. intros Hn Hk. unfold setupSpaces.
  destruct (numDims f =? -1) eqn:H1; [apply Z.eqb_eq in H1; contradiction|].
  rewrite fill_offsets_overflow
    by (rewrite length_offsets_after_memset; lia).
  reflexivity.
Qed.

End Facts.

(** *** The facility before a dataset is bound *)

Section Claims.

Context {Buf : Type} {E : StorageEngine Buf}.

(** The states a facility goes through as long as [init] is not called. *)
Inductive before_init : CPH5IOFacility -> Prop :=
| bi_new : before_init new_facility
| bi_addIndex ind f : before_init f -> before_init (addIndex ind f)
| bi_setIndices ix f : before_init f -> before_init (setIndices ix f).

Lemma before_init_unbound f : before_init f -> mpDataSet f = None.
Proof.
  induction 1 as [|ind f _ IH|ix f _ IH]; simpl; auto.
  unfold addIndex. destruct (numDims f =? -1); [exact IH|].
  destruct (tooManyIndices _); exact IH.
Qed.

(** C3.  On a facility that holds no dataset handle -- in particular one on
    which [init] was never called -- [write], [writeWithOffset] and [read],
    with or without an explicit type, return normally, leave the container
    as it is, leave the facility as it is, and store nothing into the
    caller's buffer. *)
Theorem unbound_facility_is_silent (junk : nat -> Z)
  (f : CPH5IOFacility) (st : Storage) (src : Buf) (offset : Z)
  (type : H5Type) :
  mpDataSet f = None ->
  write junk src f st = Some (f, st) /\
  write_with junk type src f st = Some (f, st) /\
  writeWithOffset junk offset src f st = Some (f, st) /\
  read junk f st = Some (f, None) /\
  read_with junk type f st = Some (f, None).
Proof.
  intros H. unfold write, read, write_with, writeWithOffset, read_with.
  rewrite H. repeat split; reflexivity.
Qed.

(** *** One index too many *)

Lemma addIndex_appends ind f :
  numDims f <> -1 ->
  addIndex ind f
  = {| mpDataSet := mpDataSet f; mType := mType f; numDims := numDims f;
       mMaxDims := mMaxDims f; mIndices := mIndices f ++ [ind];
       mMemspace := mMemspace f; mFilespace := mFilespace f |}.
Proof.
  intros H. unfold addIndex.
  destruct (numDims f =? -1) eqn:H1; [apply Z.eqb_eq in H1; contradiction|].
  destruct (tooManyIndices _); reflexivity.
Qed.

Lemma selected_extents_all_fixed f N :
  (N <= length (mIndices f))%nat ->
  selected_extents f N = repeat 1 N.
Proof.
  intros H. unfold selected_extents.
  assert (G : forall a n, (a + n <= length (mIndices f))%nat ->
              map (extent_value f) (seq a n) = repeat 1 n).
  { intros a n; revert a; induction n as [|n IH]; intros a Ha; simpl.
    - reflexivity.
    - rewrite IH by lia. unfold extent_value at 1.
      destruct (a <? length (mIndices f))%nat eqn:Hlt; [reflexivity|].
      apply Nat.ltb_ge in Hlt. lia. }
  apply G. lia.
Qed.

Lemma selected_offsets_all_fixed junk f N :
  (N <= length (mIndices f))%nat ->
  selected_offsets junk f N = map to_hsize (firstn N (mIndices f)).
Proof.
  intros H. unfold selected_offsets.
  rewrite firstn_app, length_map.
  replace (N - length (mIndices f))%nat with O by lia.
  rewrite firstn_O, app_nil_r. apply firstn_map.
Qed.

(** The spaces of a facility whose [N] dimensions are all fixed depend on the
    first [N] indices only. *)
Lemma setupSpaces_all_fixed junk f st h N :
  mpDataSet f = Some h ->
  numDims f = Z.of_nat N ->
  (N <= length (mIndices f) <= CPH_5_MAX_DIMS)%nat ->
  length (ds_dims st h) = N ->
  exists mem file,
    setupSpaces junk f st = Some (set_spaces mem file f) /\
    (mem, file) =
      match N with
      | O => (ScalarSpace, getSpace st h)
      | _ => (SimpleSpace (repeat 1 N) None,
              SimpleSpace (ds_dims st h)
                (Some (repeat 1 N, map to_hsize (firstn N (mIndices f)))))
      end.
Proof.
  intros Hds Hn Hk Hrank.
  destruct N as [|n].
  - eexists _, _. split; [|reflexivity].
    apply setupSpaces_scalar; auto. lia.
  - eexists _, _. split.
    + apply setupSpaces_simple with (h := h) (N := S n); auto; lia.
    + rewrite selected_extents_all_fixed, selected_offsets_all_fixed by lia.
      reflexivity.
Qed.


End Claims.

(** *** Counting what is selected *)

(** The indexing of a dataset: [init], then one [addIndex] per index. *)
Definition select (idxs : list Z) (f : CPH5IOFacility) : CPH5IOFacility :=
  fold_left (fun g i => addIndex i g) idxs f.

Lemma select_appends idxs : forall f,
  numDims f <> -1 ->
  select idxs f
  = {| mpDataSet := mpDataSet f; mType := mType f; numDims := numDims f;
       mMaxDims := mMaxDims f; mIndices := mIndices f ++ idxs;
       mMemspace := mMemspace f; mFilespace := mFilespace f |}.
Proof.
  induction idxs as [|i idxs IH]; intros f H; simpl.
  - rewrite app_nil_r. now destruct f.
  - unfold select in IH. rewrite IH; rewrite addIndex_appends by assumption.
    + simpl. now rewrite <- app_assoc.
    + simpl. assumption.
Qed.

Lemma product_ones n l : product (repeat 1 n ++ l) = product l.
Proof.
  induction n as [|n IH]; simpl; [reflexivity|].
  unfold product in *. simpl. rewrite IH. destruct (fold_right Z.mul 1 l); reflexivity.
Qed.

Lemma selected_extents_open f dims :
  mMaxDims f = map to_int dims ->
  Forall (fun d => 0 <= d <= int_max) dims ->
  (length (mIndices f) <= length dims)%nat ->
  selected_extents f (length dims)
  = repeat 1 (length (mIndices f)) ++ skipn (length (mIndices f)) dims.
Proof.
  intros Hm Hr Hk. unfold selected_extents.
  apply nth_ext with (d := extent_value f O) (d' := 0).
  - rewrite length_map, length_seq, length_app, repeat_length, length_skipn.
    lia.
  - intros j Hj. rewrite length_map, length_seq in Hj.
    rewrite map_nth, seq_nth by assumption. simpl.
    unfold extent_value.
    destruct (j <? length (mIndices f))%nat eqn:Hlt.
    + apply Nat.ltb_lt in Hlt.
      rewrite app_nth1 by (rewrite repeat_length; lia).
      symmetry. apply nth_repeat_lt. assumption.
    + apply Nat.ltb_ge in Hlt.
      rewrite app_nth2 by (rewrite repeat_length; lia).
      rewrite repeat_length, nth_skipn.
      replace (length (mIndices f) + (j - length (mIndices f)))%nat
        with j by lia.
      rewrite Hm.
      change 0 with (to_int 0) at 1. rewrite map_nth.
      apply to_hsize_to_int.
      rewrite Forall_forall in Hr. apply Hr. apply nth_In. assumption.
Qed.

Section Counting.

Context {Buf : Type} {E : StorageEngine Buf}.

(** C4.  A facility is initialised on an open dataset of rank [N <= 32]
    with extents [dims], each one an [int], and [k <= N] indices are added.
    Then [getNumLowerElements] returns the product of the extents that are
    not fixed (1 when [k = N]) and [getSizeLowerElements] returns that
    product times the size of the element type, both as values of
    [hsize_t] ([to_hsize] is the identity below [2^64]). *)
Theorem element_and_byte_count (junk : nat -> Z) (f0 : CPH5IOFacility)
  (st : Storage) (h : handle) (ty : H5Type) (dims idxs : list Z) :
  (length dims <= CPH_5_MAX_DIMS)%nat ->
  Forall (fun d => 0 <= d <= int_max) dims ->
  (length idxs <= length dims)%nat ->
  length (ds_dims st h) = length dims ->
  (exists f1,
     getNumLowerElements junk
       (select idxs (init (Some h) ty (Z.of_nat (length dims)) dims f0)) st
     = Some (f1, to_hsize (product (skipn (length idxs) dims)))) /\
  (exists f2,
     getSizeLowerElements junk
       (select idxs (init (Some h) ty (Z.of_nat (length dims)) dims f0)) st
     = Some (f2, to_hsize (product (skipn (length idxs) dims)
                           * h5_getSize ty))).
Proof.
  unfold CPH_5_MAX_DIMS. intros HN Hr Hk Hrank.
  rewrite select_appends by (simpl; lia).
  simpl. rewrite Nat2Z.id, firstn_all.
  set (f := {| mpDataSet := Some h; mIndices := idxs |}).
  assert (Hf1 : mpDataSet f = Some h) by reflexivity.
  assert (Hf2 : numDims f = Z.of_nat (length dims)) by reflexivity.
  assert (Hf3 : mIndices f = idxs) by reflexivity.
  assert (Hf4 : mMaxDims f = map to_int dims) by reflexivity.
  assert (Hf5 : mType f = ty) by reflexivity.
  clearbody f.
  unfold getNumLowerElements, getSizeLowerElements.
  destruct (Nat.eq_dec (length dims) 0) as [H0|H0].
  - assert (idxs = []) as Hi by (destruct idxs; [reflexivity|simpl in Hk; lia]).
    rewrite (@setupSpaces_scalar _ _ junk f st h); auto.
    + cbn [obind]. simpl. rewrite Hf5.
      unfold getSpace. rewrite H0 in Hrank.
      destruct (ds_dims st h); [|discriminate].
      destruct dims; [|discriminate]. rewrite Hi.
      simpl. split; eexists; reflexivity.
    + rewrite Hf2, H0. reflexivity.
    + rewrite Hf3, Hi. simpl. unfold CPH_5_MAX_DIMS. lia.
  - rewrite (@setupSpaces_simple _ _ junk f st h (length dims)); auto.
    + cbn [obind]. simpl. rewrite Hf5.
      rewrite (@selected_extents_open f dims); auto.
      * rewrite Hf3, product_ones. split; eexists; reflexivity.
      * rewrite Hf3. exact Hk.
    + unfold CPH_5_MAX_DIMS. lia.
    + rewrite Hf3. unfold CPH_5_MAX_DIMS. lia.
    + intros j Hj. right. rewrite Hf4, length_map. exact Hj.
Qed.

End Counting.

(** Setting the spaces up twice in a row gives what the first call gave. *)
Lemma setupSpaces_again {Buf : Type} {E : StorageEngine Buf} junk
  (f f1 : CPH5IOFacility) (st : Storage) :
  setupSpaces junk f st = Some f1 -> setupSpaces junk f1 st = Some f1.
Proof.
  unfold setupSpaces. intros H.
  destruct (numDims f =? -1) eqn:H1.
  - injection H as <-. rewrite H1. reflexivity.
  - destruct (fill_offsets 0 (mIndices f) (offsets_after_memset junk))
      as [offsets|] eqn:Ho; [|discriminate].
    cbn [obind] in H.
    destruct (fill_extents (extent_at f) 0 (Z.to_nat (numDims f))
                (extents_declared junk)) as [extents|] eqn:He; [|discriminate].
    cbn [obind] in H. unfold select_spaces in H.
    destruct (mpDataSet f) as [h|] eqn:Hds.
    + destruct (numDims f =? 0) eqn:H0.
      * injection H as <-. simpl. rewrite H1, Ho. cbn [obind].
        change (extent_at (set_spaces ScalarSpace (getSpace st h) f))
          with (extent_at f).
        rewrite He. cbn [obind]. unfold select_spaces. simpl.
        rewrite Hds, H0. reflexivity.
      * destruct (numDims f <? 0) eqn:Hneg; [discriminate|].
        destruct (selectHyperslab (getSpace st h) extents offsets)
          as [fs|] eqn:Hsel; [|discriminate].
        cbn [obind] in H. injection H as <-. simpl.
        rewrite H1, Ho. cbn [obind].
        change (extent_at (set_spaces _ fs f)) with (extent_at f).
        rewrite He. cbn [obind]. unfold select_spaces. simpl.
        rewrite Hds, H0, Hneg, Hsel. reflexivity.
    + injection H as <-. rewrite H1, Ho. cbn [obind]. rewrite He.
      cbn [obind]. unfold select_spaces. rewrite Hds. reflexivity.
Qed.

Lemma setupSpaces_handle {Buf : Type} {E : StorageEngine Buf} junk
  (f f1 : CPH5IOFacility) (st : Storage) :
  setupSpaces junk f st = Some f1 -> mpDataSet f1 = mpDataSet f.
Proof.
  unfold setupSpaces, select_spaces. intros H.
  destruct (numDims f =? -1); [injection H as <-; reflexivity|].
  destruct (fill_offsets _ _ _); [|discriminate]. cbn [obind] in H.
  destruct (fill_extents _ _ _ _); [|discriminate]. cbn [obind] in H.
  destruct (mpDataSet f) eqn:Hds; [|injection H as <-; exact Hds].
  destruct (numDims f =? 0); [injection H as <-; exact Hds|].
  destruct (numDims f <? 0); [discriminate|].
  destruct (selectHyperslab _ _ _); [|discriminate].
  cbn [obind] in H. injection H as <-. exact Hds.
Qed.

(** [setupSpaces] changes nothing but the two spaces. *)
Lemma setupSpaces_shape {Buf : Type} {E : StorageEngine Buf} junk
  (f f1 : CPH5IOFacility) (st : Storage) :
  setupSpaces junk f st = Some f1 ->
  f1 = set_spaces (mMemspace f1) (mFilespace f1) f.
Proof.
  unfold setupSpaces, select_spaces. intros H.
  assert (Hid : f = set_spaces (mMemspace f) (mFilespace f) f)
    by (destruct f; reflexivity).
  destruct (numDims f =? -1); [injection H as <-; exact Hid|].
  destruct (fill_offsets _ _ _); [|discriminate]. cbn [obind] in H.
  destruct (fill_extents _ _ _ _); [|discriminate]. cbn [obind] in H.
  destruct (mpDataSet f) eqn:Hds; [|injection H as <-; exact Hid].
  destruct (numDims f =? 0); [injection H as <-; reflexivity|].
  destruct (numDims f <? 0); [discriminate|].
  destruct (selectHyperslab _ _ _); [|discriminate].
  cbn [obind] in H. injection H as <-. reflexivity.
Qed.

(** *** Worked examples on the reference engine *)

Definition no_junk : nat -> Z := fun _ => 0.

(** Containers whose datasets have the given extent and hold no data. *)
Definition line3 : recorded (list Z) := container [3] [].
Definition grid3x4 : recorded (list Z) := container [3; 4] [].
Definition cube2x3x4 : recorded (list Z) := container [2; 3; 4] [].

(** A rank 1 dataset of three elements, opened under handle 0, whose only
    dimension is fixed at 2. *)
Definition row_of_three : CPH5IOFacility :=
  addIndex 2 (init (Some O) int32 1 [3] new_facility).

Lemma unbound_facility_is_silent_witness :
  mpDataSet new_facility = None /\
  (write (E := Recorder (list Z)) no_junk [7] new_facility line3
     = Some (new_facility, line3) /\
   write_with no_junk int32 [7] new_facility line3
     = Some (new_facility, line3) /\
   writeWithOffset no_junk 1 [7] new_facility line3
     = Some (new_facility, line3) /\
   read no_junk new_facility line3 = Some (new_facility, None) /\
   read_with no_junk int32 new_facility line3
     = Some (new_facility, None)).
Proof.
  split; [reflexivity|].
  apply (unbound_facility_is_silent (E := Recorder (list Z))). reflexivity.
Defined.



Lemma element_and_byte_count_witness :
  (exists f1,
     getNumLowerElements (E := Recorder (list Z)) no_junk
       (select [1] (init (Some O) int32 (Z.of_nat (length [3; 4])) [3; 4]
                         new_facility))
       grid3x4
     = Some (f1, to_hsize (product (skipn (length [1]) [3; 4])))) /\
  (exists f2,
     getSizeLowerElements (E := Recorder (list Z)) no_junk
       (select [1] (init (Some O) int32 (Z.of_nat (length [3; 4])) [3; 4]
                         new_facility))
       grid3x4
     = Some (f2, to_hsize (product (skipn (length [1]) [3; 4])
                           * h5_getSize int32))).
Proof.
  apply (element_and_byte_count (E := Recorder (list Z))).
  - unfold CPH_5_MAX_DIMS. simpl. lia.
  - repeat constructor; unfold int_max; lia.
  - simpl. lia.
  - reflexivity.
Defined.

(** The same counts, evaluated. *)
Example row_of_2x3x4 :
  option_map snd
    (getNumLowerElements (E := Recorder (list Z)) no_junk
       (select [1] (init (Some O) int32 3 [2; 3; 4] new_facility))
       cube2x3x4) = Some 12 /\
  option_map snd
    (getSizeLowerElements (E := Recorder (list Z)) no_junk
       (select [1] (init (Some O) int32 3 [2; 3; 4] new_facility))
       cube2x3x4) = Some 48.
Proof. split; reflexivity. Qed.

End IOFacility.

(* ------------------------------------------------------------------------- *)
(** ** What array members share *)

(** What a member uses of the record it belongs to: [getIOFacility()], null
    or not, and [nestCompTypeIR]. *)
Record CompParent := mkParent {
  getIOFacility : option IOFacility.CPH5IOFacility;
  nestCompTypeIR : H5Type -> H5Type
}.

(** [p[index] = val] on an allocation. *)
Fixpoint assign {T} (i : nat) (v : T) (l : list T) : list T :=
  match l, i with
  | [], _ => []
  | _ :: r, O => v :: r
  | x :: r, S j => x :: assign j v r
  end.

(** The engine stores [src] into the allocation [dst], which keeps its
    length. *)
Fixpoint fill {T} (dst src : list T) : list T :=
  match dst, src with
  | [], _ => []
  | d :: dr, [] => dst
  | _ :: dr, x :: sr => x :: fill dr sr
  end.

Lemma fill_self {T} (l : list T) : fill l l = l.
Proof. induction l as [|x l IH]; simpl; [reflexivity|now rewrite IH]. Qed.

Lemma fill_length {T} (dst : list T) : forall src,
  length (fill dst src) = length dst.
Proof.
  induction dst as [|d dst IH]; intros [|x src]; simpl; auto.
Qed.

(* ------------------------------------------------------------------------- *)
(** ** cph5comptype.h: CPH5CompType and its members *)

Module CompType.

(** The members of a record.  Values live in the member as the bytes of
    their object representation: [mT] has [sizeof(T)] bytes, [pMT] has
    [sizeof(T) * mNElements] bytes, [pmT] has [mNElements + 1] records.
    - [CompMember]: [CPH5CompMember<T>], [T] not a record;
    - [CompMemberRec]: [CPH5CompMember<T>], [T] a record, with the
      [mChildren] it inherits from [T];
    - [CompMemberArray]: [CPH5CompMemberArrayCommon<T, IS_NOT_DERIVED>];
    - [CompMemberRecArray]: [CPH5CompMemberArrayCommon<T, IS_DERIVED>], each
      element given by its [mChildren]. *)
Inductive member :=
| CompMember (mName : string) (mType : H5Type) (sizeofT : nat)
    (mT : list Byte.byte)
| CompMemberRec (mName : string) (mType : H5Type) (mChildren : list member)
| CompMemberArray (mName : string) (mBaseType : H5Type) (sizeofT : nat)
    (mNElements : nat) (pMT : list Byte.byte) (mReadDone : bool)
| CompMemberRecArray (mName : string) (mBaseType : H5Type)
    (mNElements : nat) (pmT : list (list member)) (mReadDone : bool).

(** A [CPH5CompType] is the list [mChildren] of its registered members. *)
Definition CPH5CompType := list member.

Definition registerMember (m : member) (c : CPH5CompType) : CPH5CompType :=
  c ++ [m].

Definition getName (m : member) : string :=
  match m with
  | CompMember n _ _ _ => n
  | CompMemberRec n _ _ => n
  | CompMemberArray n _ _ _ _ _ => n
  | CompMemberRecArray n _ _ _ _ => n
  end.

(** [getType]: an array member answers with the [H5::ArrayType] built by its
    constructor, of rank 1 over the base type. *)
Definition getType (m : member) : H5Type :=
  match m with
  | CompMember _ t _ _ => t
  | CompMemberRec _ t _ => t
  | CompMemberArray _ b _ n _ _ => H5Array [Z.of_nat n] b
  | CompMemberRecArray _ b n _ _ => H5Array [Z.of_nat n] b
  end.

(** [int ret = 0;] then [ret += child->getSize()] for every child. *)
Definition sum_int (sizes : list Z) : Z :=
  fold_left (fun ret s => to_int (ret + s)) sizes 0.

(** [size_t size = 0;] then [size += child->getSize()] for every child. *)
Definition sum_size (sizes : list Z) : Z :=
  fold_left (fun size s => to_hsize (size + s)) sizes 0.

(** [getSize] returns an [int]. *)
Fixpoint getSize (m : member) : Z :=
  match m with
  | CompMember _ _ sz _ => to_int (Z.of_nat sz)
  | CompMemberRec _ _ cs => sum_int (map getSize cs)
  | CompMemberArray _ _ sz n _ _ =>
      to_int (to_hsize (Z.of_nat sz * Z.of_nat n))
  | CompMemberRecArray _ b n _ _ =>
      to_int (to_hsize (Z.of_nat n * h5_getSize b))
  end.

Definition getTotalMemorySize (c : CPH5CompType) : Z :=
  sum_int (map getSize c).

(** [getCompType]: a first pass adds the sizes up, a second one inserts the
    members at the running offset. *)
Definition insert_members_from (acc : H5Type * Z) (c : CPH5CompType)
  : H5Type * Z :=
  fold_left
    (fun acc m =>
       (insertMember (getName m) (snd acc) (getType m) (fst acc),
        to_hsize (snd acc + getSize m)))
    c acc.

Definition insert_members (c : CPH5CompType) (h5CompType : H5Type)
  : H5Type * Z :=
  insert_members_from (h5CompType, 0) c.

Definition getCompType (c : CPH5CompType) : H5Type :=
  fst (insert_members c (CompType_new (sum_size (map getSize c)))).

(** *** Copy and latch

    A cursor [char *&ptr] into a buffer is the list of the bytes from the
    cursor on: [copyAndMove] returns the bytes it stores at the cursor,
    [latchAndMove] takes the bytes at the cursor and returns the rest.  The
    records here are held in memory only: no IO facility is reachable from
    them, so [read(pMT)], which [copyAndMove] calls on an array that was
    never latched, copies [pMT] onto itself. *)

Section OverElements.

Variable A B : Type.

(** [for (i = 0; i < mNElements; ++i) f(pmT[i])], collecting results. *)
Fixpoint map_first (f : A -> B) (k : nat) (l : list A) {struct l}
  : list B :=
  match l, k with
  | x :: r, S k' => f x :: map_first f k' r
  | _, _ => []
  end.

End OverElements.

Definition read_in_memory (pMT : list Byte.byte) : list Byte.byte := pMT.

Fixpoint copyAndMove (m : member) : list Byte.byte :=
  match m with
  | CompMember _ _ _ mT => mT
  | CompMemberRec _ _ cs => flat_map copyAndMove cs
  | CompMemberArray _ _ _ _ pMT mReadDone =>
      if mReadDone then pMT else read_in_memory pMT
  | CompMemberRecArray _ _ n pmT _ =>
      concat (map_first (flat_map copyAndMove) n pmT)
  end.

Definition copyAllAndMove (c : CPH5CompType) : list Byte.byte :=
  flat_map copyAndMove c.

Section Latching.

Variable latch : member -> list Byte.byte -> member * list Byte.byte.

(** [child->latchAndMove(ptr)] for every child, in the order of
    [mChildren]. *)
Fixpoint latch_children (cs : list member) (ptr : list Byte.byte)
  : list member * list Byte.byte :=
  match cs with
  | [] => ([], ptr)
  | c :: r =>
      let (c', p1) := latch c ptr in
      let (r', p2) := latch_children r p1 in
      (c' :: r', p2)
  end.

(** [for (i = 0; i < mNElements; ++i) pmT[i].latchAllAndMove(ptr);] the
    records from [mNElements] on are left as they are. *)
Fixpoint latch_elements (k : nat) (els : list (list member))
  (ptr : list Byte.byte) {struct els}
  : list (list member) * list Byte.byte :=
  match els, k with
  | e :: r, S k' =>
      let (e', p1) := latch_children e ptr in
      let (r', p2) := latch_elements k' r p1 in
      (e' :: r', p2)
  | _, _ => (els, ptr)
  end.

End Latching.

Fixpoint latchAndMove (m : member) (ptr : list Byte.byte)
  : member * list Byte.byte :=
  match m with
  | CompMember nm ty sz _ =>
      (CompMember nm ty sz (firstn sz ptr), skipn sz ptr)
  | CompMemberRec nm ty cs =>
      let (cs', p) := latch_children latchAndMove cs ptr in
      (CompMemberRec nm ty cs', p)
  | CompMemberArray nm b sz n _ _ =>
      (CompMemberArray nm b sz n (firstn (sz * n) ptr) true,
       skipn (sz * n) ptr)
  | CompMemberRecArray nm b n pmT _ =>
      let (pmT', p) := latch_elements latchAndMove n pmT ptr in
      (CompMemberRecArray nm b n pmT' true, p)
  end.

Definition latchAllAndMove (c : CPH5CompType) (ptr : list Byte.byte)
  : CPH5CompType * list Byte.byte :=
  latch_children latchAndMove c ptr.

(** *** Types and values of records *)

(** What the constructor of a record fixes: names, types, sizes, counts. *)
Inductive layout :=
| LMember (name : string) (type : H5Type) (size : nat)
| LRec (name : string) (type : H5Type) (children : list layout)
| LArray (name : string) (base : H5Type) (size : nat) (count : nat)
| LRecArray (name : string) (base : H5Type) (count : nat)
    (elements : list (list layout)).

Fixpoint layout_of (m : member) : layout :=
  match m with
  | CompMember nm ty sz _ => LMember nm ty sz
  | CompMemberRec nm ty cs => LRec nm ty (map layout_of cs)
  | CompMemberArray nm b sz n _ _ => LArray nm b sz n
  | CompMemberRecArray nm b n pmT _ =>
      LRecArray nm b n (map (map layout_of) pmT)
  end.

(** What a record holds: the bytes of each member, and for an array of
    records the values of its [mNElements] elements. *)
Inductive value :=
| VMember (bytes : list Byte.byte)
| VRec (children : list value)
| VArray (bytes : list Byte.byte)
| VRecArray (elements : list (list value)).

Fixpoint value_of (m : member) : value :=
  match m with
  | CompMember _ _ _ mT => VMember mT
  | CompMemberRec _ _ cs => VRec (map value_of cs)
  | CompMemberArray _ _ _ _ pMT _ => VArray pMT
  | CompMemberRecArray _ _ n pmT _ =>
      VRecArray (map_first (map value_of) n pmT)
  end.

(** A member holds as many bytes and records as its constructor allocates. *)
Fixpoint well_sized (m : member) : bool :=
  match m with
  | CompMember _ _ sz mT => (length mT =? sz)%nat
  | CompMemberRec _ _ cs => forallb well_sized cs
  | CompMemberArray _ _ sz n pMT _ => (length pMT =? sz * n)%nat
  | CompMemberRecArray _ _ n pmT _ =>
      (length pmT =? S n)%nat && forallb (forallb well_sized) pmT
  end.

(** *** Induction over members *)

Section MemberInduction.

Variable P : member -> Prop.

Hypothesis case_member : forall nm ty sz mT, P (CompMember nm ty sz mT).
Hypothesis case_rec :
  forall nm ty cs, Forall P cs -> P (CompMemberRec nm ty cs).
Hypothesis case_array :
  forall nm b sz n pMT rd, P (CompMemberArray nm b sz n pMT rd).
Hypothesis case_recarray :
  forall nm b n pmT rd,
    Forall (Forall P) pmT -> P (CompMemberRecArray nm b n pmT rd).

Fixpoint member_nested_ind (m : member) : P m :=
  match m with
  | CompMember nm ty sz mT => case_member nm ty sz mT
  | CompMemberRec nm ty cs =>
      case_rec nm ty
        ((fix children (l : list member) : Forall P l :=
            match l with
            | [] => Forall_nil P
            | c :: r => Forall_cons c (member_nested_ind c) (children r)
            end) cs)
  | CompMemberArray nm b sz n pMT rd => case_array nm b sz n pMT rd
  | CompMemberRecArray nm b n pmT rd =>
      case_recarray nm b n rd
        ((fix elements (l : list (list member)) : Forall (Forall P) l :=
            match l with
            | [] => Forall_nil (Forall P)
            | e :: r =>
                Forall_cons e
                  ((fix children (l : list member) : Forall P l :=
                      match l with
                      | [] => Forall_nil P
                      | c :: r' =>
                          Forall_cons c (member_nested_ind c) (children r')
                      end) e)
                  (elements r)
            end) pmT)
  end.

End MemberInduction.

(** *** The round trip *)

Lemma take_drop_app {A} (a b : list A) n :
  length a = n -> firstn n (a ++ b) = a /\ skipn n (a ++ b) = b.
Proof.
  intros <-. split.
  - rewrite firstn_app, firstn_all, Nat.sub_diag, firstn_O. apply app_nil_r.
  - rewrite skipn_app, skipn_all, Nat.sub_diag. reflexivity.
Qed.

(** [d] latched from the bytes copied out of [v]: the cursor stops right
    behind those bytes, [d] holds the values of [v] and keeps its layout. *)
Definition restores (v : member) : Prop :=
  well_sized v = true ->
  forall d rest,
    layout_of d = layout_of v ->
    snd (latchAndMove d (copyAndMove v ++ rest)) = rest /\
    value_of (fst (latchAndMove d (copyAndMove v ++ rest))) = value_of v /\
    layout_of (fst (latchAndMove d (copyAndMove v ++ rest))) = layout_of v.

Lemma children_restored vs :
  Forall restores vs ->
  forallb well_sized vs = true ->
  forall ds rest,
    map layout_of ds = map layout_of vs ->
    snd (latch_children latchAndMove ds (flat_map copyAndMove vs ++ rest))
      = rest /\
    map value_of
      (fst (latch_children latchAndMove ds (flat_map copyAndMove vs ++ rest)))
      = map value_of vs /\
    map layout_of
      (fst (latch_children latchAndMove ds (flat_map copyAndMove vs ++ rest)))
      = map layout_of vs.
Proof.
  induction 1 as [|v vs Hv _ IH]; intros Hws ds rest Hl.
  - destruct ds; [|discriminate]. simpl. auto.
  - destruct ds as [|d ds]; [discriminate|].
    simpl in Hws. apply andb_prop in Hws as [Hwv Hwvs].
    simpl in Hl. injection Hl as Hl1 Hl2.
    simpl. rewrite <- app_assoc.
    destruct (Hv Hwv d (flat_map copyAndMove vs ++ rest) Hl1) as (E1 & E2 & E3).
    destruct (latchAndMove d _) as [d' p1]. simpl in E1, E2, E3. subst p1.
    destruct (IH Hwvs ds rest Hl2) as (F1 & F2 & F3).
    destruct (latch_children latchAndMove ds _) as [ds' p2].
    simpl in *. subst p2. repeat split; congruence.
Qed.

Lemma elements_restored els :
  Forall (Forall restores) els ->
  forallb (forallb well_sized) els = true ->
  forall k dels rest,
    map (map layout_of) dels = map (map layout_of) els ->
    snd (latch_elements latchAndMove k dels
           (concat (map_first (flat_map copyAndMove) k els) ++ rest)) = rest /\
    map_first (map value_of) k
      (fst (latch_elements latchAndMove k dels
              (concat (map_first (flat_map copyAndMove) k els) ++ rest)))
      = map_first (map value_of) k els /\
    map (map layout_of)
      (fst (latch_elements latchAndMove k dels
              (concat (map_first (flat_map copyAndMove) k els) ++ rest)))
      = map (map layout_of) els.
Proof.
  induction 1 as [|e els He _ IH]; intros Hws k dels rest Hl.
  - destruct dels; [|discriminate]. simpl. auto.
  - destruct dels as [|de dels]; [discriminate|].
    simpl in Hws. apply andb_prop in Hws as [Hwe Hwels].
    simpl in Hl. injection Hl as Hl1 Hl2.
    destruct k as [|k].
    + simpl. repeat split; congruence.
    + simpl. rewrite <- app_assoc.
      destruct (@children_restored e He Hwe de
                  (concat (map_first (flat_map copyAndMove) k els) ++ rest) Hl1)
        as (E1 & E2 & E3).
      destruct (latch_children latchAndMove de _) as [e' p1].
      simpl in E1, E2, E3. subst p1.
      destruct (IH Hwels k dels rest Hl2) as (F1 & F2 & F3).
      destruct (latch_elements latchAndMove k dels _) as [els' p2].
      simpl in *. subst p2. repeat split; congruence.
Qed.

Lemma member_restored v : restores v.
Proof.
  induction v as [nm ty sz mT|nm ty cs IH|nm b sz n pMT rd|nm b n pmT rd IH]
    using member_nested_ind; intros Hws d rest Hl.
  - destruct d; try discriminate. simpl in Hl. injection Hl as -> -> ->.
    simpl in *. apply Nat.eqb_eq in Hws.
    destruct (take_drop_app mT rest Hws) as [-> ->]. auto.
  - destruct d as [| nm' ty' ds | |]; try discriminate.
    simpl in Hl. injection Hl as -> -> Hl.
    simpl in Hws. simpl.
    destruct (@children_restored cs IH Hws ds rest Hl) as (E1 & E2 & E3).
    destruct (latch_children latchAndMove ds _) as [ds' p]. simpl in *.
    repeat split; congruence.
  - destruct d; try discriminate. simpl in Hl. injection Hl as -> -> -> ->.
    simpl in Hws. apply Nat.eqb_eq in Hws.
    assert (Hc : copyAndMove (CompMemberArray nm b sz n pMT rd) = pMT)
      by (simpl; destruct rd; reflexivity).
    rewrite Hc. simpl.
    destruct (take_drop_app pMT rest Hws) as [-> ->]. auto.
  - destruct d as [| | | nm' b' n' dels rd']; try discriminate.
    simpl in Hl. injection Hl as -> -> -> Hl.
    simpl in Hws. apply andb_prop in Hws as [_ Hws]. simpl.
    destruct (@elements_restored pmT IH Hws n dels rest Hl) as (E1 & E2 & E3).
    destruct (latch_elements latchAndMove n dels _) as [els' p]. simpl in *.
    repeat split; congruence.
Qed.

(** C2.  A record [v] whose members hold what their constructors allocate
    is copied member by member, in the order of declaration, into a buffer.
    Latching that buffer into a record [fresh] of the same type moves the
    cursor to the end of the copied bytes and gives a record whose members
    hold the values of [v]. *)
Theorem copy_then_latch_restores (v fresh : CPH5CompType)
  (rest : list Byte.byte) :
  forallb well_sized v = true ->
  map layout_of fresh = map layout_of v ->
  exists r,
    latchAllAndMove fresh (copyAllAndMove v ++ rest) = (r, rest) /\
    map value_of r = map value_of v /\
    map layout_of r = map layout_of fresh.
Proof.
  intros Hws Hl. unfold latchAllAndMove, copyAllAndMove.
  assert (Hall : Forall restores v)
    by (apply Forall_forall; intros m _; apply member_restored).
  destruct (@children_restored v Hall Hws fresh rest Hl) as (E1 & E2 & E3).
  destruct (latch_children latchAndMove fresh _) as [r p]. simpl in *.
  exists r. subst p. repeat split; congruence.
Qed.

(** *** Size and offsets of the stored compound *)

Definition total (sizes : list Z) : Z := fold_right Z.add 0 sizes.

(** Members registered one after the other, as the constructors of a record
    run in the order of declaration. *)
Definition register_all (ms : list member) : CPH5CompType :=
  fold_left (fun c m => registerMember m c) ms [].

Definition compound_size (t : H5Type) : Z :=
  match t with
  | H5Compound s _ => s
  | _ => 0
  end.

Definition compound_members (t : H5Type) : list (string * Z * H5Type) :=
  match t with
  | H5Compound _ ms => ms
  | _ => []
  end.

(** Name, running offset and type of each member, from offset [off]. *)
Fixpoint running_layout (off : Z) (ms : list member)
  : list (string * Z * H5Type) :=
  match ms with
  | [] => []
  | m :: r => (getName m, off, getType m) :: running_layout (off + getSize m) r
  end.

Lemma register_all_id ms : register_all ms = ms.
Proof.
  unfold register_all.
  assert (G : forall acc,
            fold_left (fun c m => registerMember m c) ms acc = acc ++ ms).
  { induction ms as [|m ms IH]; intros acc; simpl.
    - now rewrite app_nil_r.
    - rewrite IH. unfold registerMember. now rewrite <- app_assoc. }
  apply G.
Qed.

Lemma Forall_map_getSize ms :
  Forall (fun m => 0 <= getSize m) ms ->
  Forall (fun s => 0 <= s) (map getSize ms).
Proof.
  induction 1; simpl; constructor; assumption.
Qed.

Lemma total_nonneg l : Forall (fun s => 0 <= s) l -> 0 <= total l.
Proof.
  induction 1 as [|s l Hs _ IH]; simpl; lia.
Qed.

Lemma sum_int_exact l :
  Forall (fun s => 0 <= s) l -> total l <= int_max -> sum_int l = total l.
Proof.
  intros Hpos Hmax. unfold sum_int.
  assert (G : forall acc, 0 <= acc -> acc + total l <= int_max ->
              fold_left (fun ret s => to_int (ret + s)) l acc = acc + total l).
  { clear Hmax. induction Hpos as [|s l Hs Hl IH]; intros acc Ha Hb; simpl in *.
    - lia.
    - pose proof (total_nonneg Hl).
      rewrite to_int_id by (unfold in_int, int_min, int_max in *; lia).
      rewrite IH by lia. lia. }
  rewrite G; lia.
Qed.

Lemma sum_size_exact l :
  Forall (fun s => 0 <= s) l -> total l <= int_max -> sum_size l = total l.
Proof.
  intros Hpos Hmax. unfold sum_size.
  assert (G : forall acc, 0 <= acc -> acc + total l <= int_max ->
              fold_left (fun sz s => to_hsize (sz + s)) l acc = acc + total l).
  { clear Hmax. induction Hpos as [|s l Hs Hl IH]; intros acc Ha Hb; simpl in *.
    - lia.
    - pose proof (total_nonneg Hl).
      rewrite to_hsize_id by (unfold int_max in *; lia).
      rewrite IH by lia. lia. }
  rewrite G; lia.
Qed.

Lemma insert_members_exact ms : forall s entries off,
  Forall (fun m => 0 <= getSize m) ms ->
  0 <= off -> off + total (map getSize ms) <= int_max ->
  insert_members_from (H5Compound s entries, off) ms
  = (H5Compound s (entries ++ running_layout off ms),
     off + total (map getSize ms)).
Proof.
  induction ms as [|m ms IH]; intros s entries off Hpos Hoff Hmax.
  - simpl. rewrite app_nil_r. f_equal. lia.
  - inversion Hpos as [|? ? Hm Hms]; subst.
    pose proof (total_nonneg (Forall_map_getSize Hms)) as Ht.
    simpl in Hmax |- *.
    rewrite to_hsize_id by (unfold int_max in *; lia).
    rewrite IH; auto; try lia.
    rewrite <- app_assoc. simpl. f_equal. lia.
Qed.

Lemma running_layout_nth ms : forall off i m,
  nth_error ms i = Some m ->
  nth_error (running_layout off ms) i
  = Some (getName m, off + total (map getSize (firstn i ms)), getType m).
Proof.
  induction ms as [|m0 ms IH]; intros off i m H.
  - destruct i; discriminate.
  - destruct i as [|i]; simpl in *.
    + injection H as ->. f_equal. f_equal. f_equal. lia.
    + rewrite (IH _ _ _ H). f_equal. f_equal. f_equal. lia.
Qed.

Lemma running_layout_length ms : forall off,
  length (running_layout off ms) = length ms.
Proof.
  induction ms as [|m ms IH]; intros off; simpl; [reflexivity|].
  now rewrite IH.
Qed.

(** C5.  Members [ms] are registered in the order of declaration; no size
    is negative and the sizes add up to an [int].  Then the compound made by
    [getCompType] has the sum of the sizes as its size, lists the members in
    the order of registration, member [i] under its own name and type at the
    offset that is the sum of the sizes of the members before it, and
    [getTotalMemorySize] returns the same sum. *)
Theorem compound_follows_declaration (ms : list member) :
  Forall (fun m => 0 <= getSize m) ms ->
  total (map getSize ms) <= int_max ->
  compound_size (getCompType (register_all ms)) = total (map getSize ms) /\
  length (compound_members (getCompType (register_all ms))) = length ms /\
  (forall i m,
     nth_error ms i = Some m ->
     nth_error (compound_members (getCompType (register_all ms))) i
     = Some (getName m, total (map getSize (firstn i ms)), getType m)) /\
  getTotalMemorySize (register_all ms) = total (map getSize ms).
Proof.
  intros Hpos Hmax. rewrite register_all_id.
  pose proof (Forall_map_getSize Hpos) as Hpos'.
  unfold getCompType, insert_members, CompType_new.
  fold (insert_members_from
          (H5Compound (sum_size (map getSize ms)) [], 0) ms).
  rewrite insert_members_exact by (auto; lia).
  rewrite sum_size_exact by assumption. simpl.
  repeat split.
  - apply running_layout_length.
  - intros i m H. rewrite (running_layout_nth _ 0 _ H). reflexivity.
  - unfold getTotalMemorySize. apply sum_int_exact; assumption.
Qed.

(** *** A worked record *)

Definition point : H5Type :=
  H5Compound 2 [("x"%string, 0, uint8); ("y"%string, 1, uint8)].
Definition cell : H5Type := H5Compound 1 [("v"%string, 0, uint8)].

(** A record with one member of each kind; the array of records holds two
    elements and the spare one. *)
Definition sample : CPH5CompType :=
  [ CompMember "id" int32 4 [Byte.x2a; Byte.x00; Byte.x00; Byte.x00];
    CompMemberRec "pos" point
      [ CompMember "x" uint8 1 [Byte.x01];
        CompMember "y" uint8 1 [Byte.x02] ];
    CompMemberArray "tag" uint8 1 3 [Byte.x61; Byte.x62; Byte.x63] false;
    CompMemberRecArray "pts" cell 2
      [ [CompMember "v" uint8 1 [Byte.x07]];
        [CompMember "v" uint8 1 [Byte.x08]];
        [CompMember "v" uint8 1 [Byte.x09]] ] false ]%string.

(** The same record as its constructor leaves it. *)
Definition blank : CPH5CompType :=
  [ CompMember "id" int32 4 [Byte.x00; Byte.x00; Byte.x00; Byte.x00];
    CompMemberRec "pos" point
      [ CompMember "x" uint8 1 [Byte.x00];
        CompMember "y" uint8 1 [Byte.x00] ];
    CompMemberArray "tag" uint8 1 3 [Byte.x00; Byte.x00; Byte.x00] false;
    CompMemberRecArray "pts" cell 2
      [ [CompMember "v" uint8 1 [Byte.x00]];
        [CompMember "v" uint8 1 [Byte.x00]];
        [CompMember "v" uint8 1 [Byte.x00]] ] false ]%string.

Example sample_bytes :
  copyAllAndMove sample
  = [Byte.x2a; Byte.x00; Byte.x00; Byte.x00; Byte.x01; Byte.x02;
     Byte.x61; Byte.x62; Byte.x63; Byte.x07; Byte.x08].
Proof. reflexivity. Qed.

Lemma copy_then_latch_restores_witness :
  forallb well_sized sample = true /\
  map layout_of blank = map layout_of sample /\
  exists r,
    latchAllAndMove blank (copyAllAndMove sample ++ []) = (r, []) /\
    map value_of r = map value_of sample /\
    map layout_of r = map layout_of blank.
Proof.
  split; [reflexivity|]. split; [reflexivity|].
  apply (@copy_then_latch_restores sample blank []); reflexivity.
Defined.

Example sample_compound :
  getCompType (register_all sample)
  = H5Compound 11
      [ ("id", 0, int32); ("pos", 4, point);
        ("tag", 6, H5Array [3] uint8); ("pts", 9, H5Array [2] cell) ]%string
  /\ getTotalMemorySize (register_all sample) = 11.
Proof. split; reflexivity. Qed.

Lemma compound_follows_declaration_witness :
  compound_size (getCompType (register_all sample))
    = total (map getSize sample) /\
  length (compound_members (getCompType (register_all sample)))
    = length sample /\
  (forall i m,
     nth_error sample i = Some m ->
     nth_error (compound_members (getCompType (register_all sample))) i
     = Some (getName m, total (map getSize (firstn i sample)), getType m)) /\
  getTotalMemorySize (register_all sample) = total (map getSize sample).
Proof.
  apply (@compound_follows_declaration sample).
  - repeat constructor; vm_compute; discriminate.
  - vm_compute; discriminate.
Defined.

End CompType.

(* ------------------------------------------------------------------------- *)
(** ** cph5comptype.h: CPH5CompMemberArrayCommon<T, IS_NOT_DERIVED> *)

Module MemberArray.

Import IOFacility.

Section WithElements.

Variable T : Type.
Context {E : StorageEngine (list T)}.
Variable junk : nat -> Z.

(** [CPH5CompMemberArrayBase *mpArrParent]: the array of records in whose
    elements this member lies.  [signalChange()] is virtual.  The array it
    reaches holds this member among the members of its elements: [writeAll]
    may latch them from the container and copies them into the buffer it
    writes.  So the call is given what this member holds and whether it was
    read, and gives both back together with the container. *)
Record ArrParent := mkArrParent {
  signalChange :
    list T -> bool -> Storage -> option (list T * bool * Storage)
}.

Record CPH5CompMemberArrayCommon := mkArray {
  mpParent : option CompParent;
  mName : string;
  mBaseType : H5Type;
  mNElements : Z;              (* int *)
  pMT : list T;                (* new T[mNElements] *)
  mReadDone : bool;
  mpArrParent : option ArrParent
}.

Definition set_pMT (p : list T) (a : CPH5CompMemberArrayCommon) :=
  {| mpParent := mpParent a; mName := mName a; mBaseType := mBaseType a;
     mNElements := mNElements a; pMT := p; mReadDone := mReadDone a;
     mpArrParent := mpArrParent a |}.

Definition set_read_done (a : CPH5CompMemberArrayCommon) :=
  {| mpParent := mpParent a; mName := mName a; mBaseType := mBaseType a;
     mNElements := mNElements a; pMT := pMT a; mReadDone := true;
     mpArrParent := mpArrParent a |}.

(** What the array of records leaves in this member. *)
Definition set_held (p : list T) (rd : bool) (a : CPH5CompMemberArrayCommon) :=
  {| mpParent := mpParent a; mName := mName a; mBaseType := mBaseType a;
     mNElements := mNElements a; pMT := p; mReadDone := rd;
     mpArrParent := mpArrParent a |}.

(** The facility is reached through the parent and shared with it. *)
Definition set_facility (f : CPH5IOFacility) (a : CPH5CompMemberArrayCommon) :=
  {| mpParent :=
       option_map (fun P => {| getIOFacility := Some f;
                               nestCompTypeIR := nestCompTypeIR P |})
                  (mpParent a);
     mName := mName a; mBaseType := mBaseType a;
     mNElements := mNElements a; pMT := pMT a; mReadDone := mReadDone a;
     mpArrParent := mpArrParent a |}.

(** [*mpArrType]: the array type of rank 1 made by the constructor. *)
Definition mpArrType (a : CPH5CompMemberArrayCommon) : H5Type :=
  H5Array [to_hsize (mNElements a)] (mBaseType a).

(** The compound with this single member, nested by the parent. *)
Definition member_type (P : CompParent) (a : CPH5CompMemberArrayCommon)
  : H5Type :=
  nestCompTypeIR P
    (insertMember (mName a) 0 (mpArrType a)
       (CompType_new (h5_getSize (mpArrType a)))).

(** [read(T *buf)]: the second component is what [buf] holds afterwards. *)
Definition read (a : CPH5CompMemberArrayCommon) (st : Storage)
  : option (CPH5CompMemberArrayCommon * list T) :=
  match mpParent a with
  | Some P =>
      match getIOFacility P with
      | Some pIO =>
          r <- read_with junk (member_type P a) pIO st ;;
          let a' :=
            match snd r with
            | Some got => set_pMT (fill (pMT a) got) a
            | None => a
            end in
          let a' := set_read_done (set_facility (fst r) a') in
          Some (a', pMT a')
      | None => Some (a, pMT a)
      end
  | None => Some (a, pMT a)
  end.

(** [write(const T *buf)]: the buffer is copied to [pMT], then written
    through the facility of the parent; without a facility the array of
    records, if there is one, is told of the change. *)
Definition write (buf : list T) (a : CPH5CompMemberArrayCommon)
  (st : Storage) : option (CPH5CompMemberArrayCommon * Storage) :=
  let a := set_pMT (fill (pMT a) buf) a in
  match mpParent a with
  | Some P =>
      match getIOFacility P with
      | Some pIO =>
          r <- write_with junk (member_type P a) (pMT a) pIO st ;;
          Some (set_facility (fst r) a, snd r)
      | None =>
          match mpArrParent a with
          | Some arr =>
              r <- signalChange arr (pMT a) (mReadDone a) st ;;
              Some (set_held (fst (fst r)) (snd (fst r)) a, snd r)
          | None => Some (a, st)
          end
      end
  | None => Some (a, st)
  end.

(** [write(T val, int index)]: the array is read unless [mReadDone] is set,
    which no member function clears. *)
Definition write_at (val : T) (index : Z) (a : CPH5CompMemberArrayCommon)
  (st : Storage) : option (CPH5CompMemberArrayCommon * Storage) :=
  r <- (if mReadDone a then Some (a, pMT a) else read a st) ;;
  let a := set_pMT (fill (pMT (fst r)) (snd r)) (fst r) in
  if (0 <=? index) && (index <? Z.of_nat (length (pMT a))) then
    let a := set_pMT (assign (Z.to_nat index) val (pMT a)) a in
    write (pMT a) a st
  else None.

(** [read(int index)]. *)
Definition read_at (index : Z) (a : CPH5CompMemberArrayCommon) (st : Storage)
  : option (CPH5CompMemberArrayCommon * option T) :=
  r <- (if mReadDone a then Some (a, pMT a) else read a st) ;;
  let a := set_pMT (fill (pMT (fst r)) (snd r)) (fst r) in
  if (0 <=? index) && (index <? Z.of_nat (length (pMT a))) then
    Some (a, nth_error (pMT a) (Z.to_nat index))
  else None.

End WithElements.

Arguments CPH5CompMemberArrayCommon T {E}.
Arguments ArrParent T {E}.

(** *** Facts on allocations *)

Lemma assign_length {T} (l : list T) : forall i v,
  length (assign i v l) = length l.
Proof.
  induction l as [|x l IH]; intros [|i] v; simpl; auto.
Qed.

Lemma assign_same {T} (l : list T) : forall i v,
  (i < length l)%nat -> nth_error (assign i v l) i = Some v.
Proof.
  induction l as [|x l IH]; intros [|i] v H; simpl in *; try lia; auto.
  apply IH. lia.
Qed.

Lemma assign_other {T} (l : list T) : forall i j v,
  j <> i -> nth_error (assign i v l) j = nth_error l j.
Proof.
  induction l as [|x l IH]; intros [|i] [|j] v H; simpl; auto.
  contradiction.
Qed.

(** *** One member object for every record *)

(** A container with one dataset of rank 1 whose elements are arrays of
    numbers.  With a hyperslab selected, a read gives the element at its
    start and a write replaces that element; the size is fixed. *)
Definition Table : StorageEngine (list Z) :=
  {| Storage := list (list Z);
     ds_dims := fun st _ => [Z.of_nat (length st)];
     ds_write := fun _ src _ _ file st =>
       match file with
       | SimpleSpace _ (Some (_, i :: _)) => assign (Z.to_nat i) src st
       | _ => st
       end;
     ds_read := fun _ _ _ file st =>
       match file with
       | SimpleSpace _ (Some (_, i :: _)) => nth (Z.to_nat i) st []
       | _ => []
       end;
     ds_extend := fun _ _ st => (st, false) |}.

(** The two records the dataset holds for the member [tag]. *)
Definition two_records : list (list Z) := [[10; 20; 30]; [40; 50; 60]].

(** The type of the records. *)
Definition record_type : H5Type :=
  H5Compound 3 [("tag"%string, 0, H5Array [3] uint8)].

(** The member [tag] as its constructor leaves it.  It lies in the record
    type the dataset object of order 0 inherits, so the one object serves
    every [ds[i]]; the facility it reaches is the one of the dataset. *)
Definition tag : CPH5CompMemberArrayCommon Z (E := Table) :=
  {| mpParent := Some {| getIOFacility := Some new_facility;
                         nestCompTypeIR := fun t => t |};
     mName := "tag"; mBaseType := uint8; mNElements := 3;
     pMT := [0; 0; 0]; mReadDone := false; mpArrParent := None |}.

(** [ds[i]] on the dataset of rank 1 the member belongs to: [operator[]]
    initialises the shared facility and adds the index. *)
Definition at_record (i : Z) (a : CPH5CompMemberArrayCommon Z (E := Table))
  : CPH5CompMemberArrayCommon Z (E := Table) :=
  match mpParent a with
  | Some P =>
      match getIOFacility P with
      | Some f =>
          set_facility (addIndex i (init (Some O) record_type 1 [2] f)) a
      | None => a
      end
  | None => a
  end.

(** On an array that was never read, the other elements are those of the
    record. *)
Example first_write_keeps_the_record :
  option_map (fun r => (pMT (fst r), mReadDone (fst r), snd r))
    (write_at (E := Table) no_junk 99 1 (at_record 0 tag) two_records)
  = Some ([10; 99; 30], true, [[10; 99; 30]; [40; 50; 60]]).
Proof. vm_compute. reflexivity. Qed.

(** [ds[0].tag.write(99, 1)] and then [ds[1].tag.write(77, 1)]. *)
Definition two_writes
  : option (CPH5CompMemberArrayCommon Z (E := Table) * list (list Z)) :=
  r <- write_at (E := Table) no_junk 99 1 (at_record 0 tag) two_records ;;
  write_at (E := Table) no_junk 77 1 (at_record 1 (fst r)) (snd r).

(** C7.  [ds[0].tag.write(99, 1)] followed by [ds[1].tag.write(77, 1)] on
    the records 10, 20, 30 and 40, 50, 60.  The first call reads record 0
    and sets [mReadDone]; the second call finds the flag set, does not read
    record 1, and writes the copy of record 0 with 77 at index 1 over it:
    the elements 40 and 60 of record 1 are replaced by 10 and 30.  An
    object that was never read keeps them. *)
Theorem second_record_is_written_from_the_first :
  option_map (fun r => (mReadDone (fst r), snd r))
    (write_at (E := Table) no_junk 99 1 (at_record 0 tag) two_records)
  = Some (true, [[10; 99; 30]; [40; 50; 60]]) /\
  option_map (fun r => (pMT (fst r), snd r)) two_writes
  = Some ([10; 77; 30], [[10; 99; 30]; [10; 77; 30]]) /\
  option_map snd
    (write_at (E := Table) no_junk 77 1 (at_record 1 tag)
       [[10; 99; 30]; [40; 50; 60]])
  = Some [[10; 99; 30]; [40; 77; 60]].
Proof.
  split; [|split]; vm_compute; reflexivity.
Qed.

End MemberArray.

(* ------------------------------------------------------------------------- *)
(** ** cph5dataset.h: CPH5Dataset<T, nDims>, nDims >= 1 *)

Module Dataset.

(** How a call ends: it returns, or it is left by an exception, of the
    engine or of [new]. *)
Inductive outcome := Returned | Thrown.

(** The object of the highest order, the one with [mpGroupParent] set.  It
    owns the dataset handle, the sizes and the facility.  The object
    [depth] orders below it is reached through [mNextDim]; it holds none of
    these and forwards through [mpDimParent], so it is given by [depth]. *)
Record CPH5Dataset := mkDataset {
  nDims : nat;
  mType : H5Type;
  mDims : list Z;              (* hsize_t[nDims+1] *)
  mMaxDims : list Z;           (* hsize_t[nDims+1] *)
  mpDataSet : option handle;
  mDimsSet : bool;
  mpIOFacility : IOFacility.CPH5IOFacility
}.

Definition set_mDims (d : list Z) (ds : CPH5Dataset) : CPH5Dataset :=
  {| nDims := nDims ds; mType := mType ds; mDims := d;
     mMaxDims := mMaxDims ds; mpDataSet := mpDataSet ds;
     mDimsSet := mDimsSet ds; mpIOFacility := mpIOFacility ds |}.

Definition set_facility (f : IOFacility.CPH5IOFacility) (ds : CPH5Dataset)
  : CPH5Dataset :=
  {| nDims := nDims ds; mType := mType ds; mDims := mDims ds;
     mMaxDims := mMaxDims ds; mpDataSet := mpDataSet ds;
     mDimsSet := mDimsSet ds; mpIOFacility := f |}.

(** [setDimensions] copies [nDims] sizes and [nDims] maxima. *)
Definition setDimensions (dims maxDims : list Z) (ds : CPH5Dataset)
  : CPH5Dataset :=
  {| nDims := nDims ds; mType := mType ds;
     mDims := firstn (nDims ds) dims ++ skipn (nDims ds) (mDims ds);
     mMaxDims := firstn (nDims ds) maxDims ++ skipn (nDims ds) (mMaxDims ds);
     mpDataSet := mpDataSet ds; mDimsSet := true;
     mpIOFacility := mpIOFacility ds |}.

(** [getDimSizeIR] and [getMaxDimSizeIR] return an [int]. *)
Fixpoint getDimSizeIR (depth dimsBelow : nat) (ds : CPH5Dataset) : Z :=
  match depth with
  | O => if mDimsSet ds then to_int (nth dimsBelow (mDims ds) 0) else 0
  | S d => getDimSizeIR d (S dimsBelow) ds
  end.

Fixpoint getMaxDimSizeIR (depth dimsBelow : nat) (ds : CPH5Dataset) : Z :=
  match depth with
  | O => if mDimsSet ds then to_int (nth dimsBelow (mMaxDims ds) 0) else 0
  | S d => getMaxDimSizeIR d (S dimsBelow) ds
  end.

Definition getDimSize (depth : nat) (ds : CPH5Dataset) : Z :=
  getDimSizeIR depth 0 ds.

Definition getDims (ds : CPH5Dataset) : list Z :=
  map (fun i => getDimSizeIR 0 i ds) (seq 0 (nDims ds)).

Definition getMaxDims (ds : CPH5Dataset) : list Z :=
  map (fun i => getMaxDimSizeIR 0 i ds) (seq 0 (nDims ds)).

(** [int ret = dims[0]; for (i = 1; i < nDims; ++i) ret = ret * dims[i];] *)
Definition getTotalNumElements (ds : CPH5Dataset) : Z :=
  match getDims ds with
  | [] => 0
  | d :: r => fold_left (fun ret x => to_int (ret * x)) r d
  end.

Section WithEngine.

Context {Buf : Type} {E : StorageEngine Buf}.
Variable junk : nat -> Z.

(** What a buffer obtained from [new char[size]] holds. *)
Variable heap : Buf.

(** [extendIR]: below the highest order the call goes up with
    [dimsBelow + 1]; at the highest order the new sizes are handed to the
    engine, and stored only when that call returns. *)
Fixpoint extendIR (depth dimsBelow : nat) (numTimes : Z) (ds : CPH5Dataset)
  (st : Storage) : option (CPH5Dataset * Storage * outcome) :=
  match depth with
  | O =>
      if negb (mDimsSet ds) then Some (ds, st, Returned)
      else
        newDims <- store dimsBelow
                     (to_hsize (nth dimsBelow (mDims ds) 0 + numTimes))
                     (mDims ds) ;;
        match mpDataSet ds with
        | Some h =>
            let (st', accepted) := ds_extend h newDims st in
            if accepted then Some (set_mDims newDims ds, st', Returned)
            else Some (ds, st', Thrown)
        | None => Some (ds, st, Returned)
        end
  | S d => extendIR d (S dimsBelow) numTimes ds st
  end.

Definition extend (depth : nat) (numTimes : Z) (ds : CPH5Dataset)
  (st : Storage) :=
  extendIR depth 0 numTimes ds st.

(** [operator[]] on the object of the highest order. *)
Definition index (ind : Z) (ds : CPH5Dataset) : CPH5Dataset :=
  set_facility
    (IOFacility.addIndex ind
       (IOFacility.init (mpDataSet ds) (mType ds) (Z.of_nat (nDims ds))
          (mDims ds) (mpIOFacility ds)))
    ds.

(** [write] on an object below the highest order, for an element type
    that is not a record. *)
Definition write_below (src : Buf) (ds : CPH5Dataset) (st : Storage)
  : option (CPH5Dataset * Storage) :=
  r <- IOFacility.write junk src (mpIOFacility ds) st ;;
  Some (set_facility (fst r) ds, snd r).

Definition extendOnceAndWrite (src : Buf) (ds : CPH5Dataset) (st : Storage)
  : option (CPH5Dataset * Storage * outcome) :=
  r <- extendIR 0 0 1 ds st ;;
  match snd r with
  | Thrown => Some r
  | Returned =>
      let ds := fst (fst r) in
      let dim := getDimSize 0 ds in
      w <- write_below src (index (to_int (dim - 1)) ds) (snd (fst r)) ;;
      Some (fst w, snd w, Returned)
  end.

(** [resizeToR], from the object [depth] orders down, over the [orders]
    orders that remain above order 0. *)
Fixpoint resizeToR (orders depth : nat) (dims : list Z) (ds : CPH5Dataset)
  (st : Storage) : option (CPH5Dataset * Storage * outcome) :=
  match orders with
  | O => Some (ds, st, Returned)
  | S orders' =>
      d <- nth_error dims 0 ;;
      let dim := getDimSize depth ds in
      r <- (if to_hsize dim <? d
            then extend depth (to_int (to_hsize (d - to_hsize dim))) ds st
            else Some (ds, st, Returned)) ;;
      match snd r with
      | Thrown => Some r
      | Returned =>
          resizeToR orders' (S depth) (tl dims) (fst (fst r)) (snd (fst r))
      end
  end.

(** [readRaw] and [writeRaw] on the object of the highest order. *)
Definition readRaw (ds : CPH5Dataset) (st : Storage)
  : option (CPH5Dataset * option Buf) :=
  r <- IOFacility.read junk
         (IOFacility.init (mpDataSet ds) (mType ds) (Z.of_nat (nDims ds))
            (mDims ds) (mpIOFacility ds)) st ;;
  Some (set_facility (fst r) ds, snd r).

Definition writeRaw (src : Buf) (ds : CPH5Dataset) (st : Storage)
  : option (CPH5Dataset * Storage) :=
  r <- IOFacility.write junk src
         (IOFacility.init (mpDataSet ds) (mType ds) (Z.of_nat (nDims ds))
            (mDims ds) (mpIOFacility ds)) st ;;
  Some (set_facility (fst r) ds, snd r).

(** [dimsMatch]: every maximum of this dataset against the maximum the other
    one reports as an [int]. *)
Definition dimsMatch (this rhs : CPH5Dataset) : bool :=
  forallb
    (fun i => to_hsize (nth i (getMaxDims rhs) 0) <=? nth i (mMaxDims this) 0)
    (seq 0 (nDims this)).

(** The bytes the engine moves through a facility that has set its spaces
    up: as many elements as the memory space selects, of the type of the
    facility; none without a dataset. *)
Definition bytes_moved (f : IOFacility.CPH5IOFacility) : Z :=
  match IOFacility.mpDataSet f with
  | None => 0
  | Some _ =>
      getSelectNpoints (IOFacility.mMemspace f)
      * h5_getSize (IOFacility.mType f)
  end.

(** [int size = rhs.getTotalNumElements()*this->mType.getSize()]: the
    product is one of [size_t], converted to [int]. *)
Definition copy_size (this rhs : CPH5Dataset) : Z :=
  to_int (to_hsize (to_hsize (getTotalNumElements rhs)
                    * h5_getSize (mType this))).

(** The copy at the end of [operator=].  [new char[size]] throws on a
    negative size.  [rhs.readRaw(buf)] stores what the engine reads into the
    buffer and [writeRaw(buf)] takes what the engine writes from it: either
    runs past the [size] bytes of the buffer when the engine moves more. *)
Definition read_then_write (this rhs : CPH5Dataset) (st : Storage)
  : option (CPH5Dataset * CPH5Dataset * Storage * outcome) :=
  let size := copy_size this rhs in
  if size <? 0 then Some (this, rhs, st, Thrown)
  else
    r <- readRaw rhs st ;;
    if size <? bytes_moved (mpIOFacility (fst r)) then None
    else
      let buf := match snd r with Some b => b | None => heap end in
      w <- writeRaw buf this st ;;
      if size <? bytes_moved (mpIOFacility (fst w)) then None
      else Some (fst w, fst r, snd w, Returned).

(** [operator=], called on the object [depth] orders down. *)
Definition assign_from (depth : nat) (this rhs : CPH5Dataset) (st : Storage)
  : option (CPH5Dataset * CPH5Dataset * Storage * outcome) :=
  if negb (depth =? 0)%nat then Some (this, rhs, st, Returned)
  else if negb (dimsMatch this rhs) then Some (this, rhs, st, Returned)
  else
    let otherDimsH := map to_hsize (getDims rhs) in
    if getTotalNumElements this <? getTotalNumElements rhs then
      r <- resizeToR (nDims this) 0 otherDimsH this st ;;
      match snd r with
      | Thrown => Some (fst (fst r), rhs, snd (fst r), Thrown)
      | Returned => read_then_write (fst (fst r)) rhs (snd (fst r))
      end
    else if getTotalNumElements rhs <? getTotalNumElements this then
      Some (this, rhs, st, Returned)
    else read_then_write this rhs st.

End WithEngine.

(** *** Extending the first dimension *)

Section Extending.

Context {Buf : Type} {E : StorageEngine Buf}.
Variable junk : nat -> Z.






End Extending.

(** *** Worked extension *)

(** A dataset of rank 1 with three rows, unlimited, open under handle 0. *)
Definition appendable : CPH5Dataset :=
  {| nDims := 1; mType := int32; mDims := [3; 0];
     mMaxDims := [2 ^ 64 - 1; 0]; mpDataSet := Some O; mDimsSet := true;
     mpIOFacility := IOFacility.new_facility |}.


Example append_a_row :
  option_map (fun r => (mDims (fst (fst r)), rec_log (snd (fst r))))
    (extendOnceAndWrite IOFacility.no_junk [7] appendable IOFacility.line3)
  = Some ([4; 0],
          [ ReqExtend O [4; 0];
            ReqWrite O [7] int32 (SimpleSpace [1] None)
              (SimpleSpace [4] (Some ([1], [3]))) ]).
Proof. reflexivity. Qed.

(** *** Assignment of a whole dataset *)

Section Assigning.

Context {Buf : Type} {E : StorageEngine Buf}.
Variable junk : nat -> Z.
Variable heap : Buf.

(** The facility as [readRaw] and [writeRaw] initialise it: no index is
    fixed. *)
Definition whole (ds : CPH5Dataset) : IOFacility.CPH5IOFacility :=
  IOFacility.init (mpDataSet ds) (mType ds) (Z.of_nat (nDims ds))
    (mDims ds) (mpIOFacility ds).

Lemma dimsMatch_fails (this rhs : CPH5Dataset) i :
  (i < nDims this)%nat ->
  nth i (mMaxDims this) 0 < to_hsize (nth i (getMaxDims rhs) 0) ->
  dimsMatch this rhs = false.
Proof.
  intros Hi Hlt. unfold dimsMatch.
  destruct (forallb _ _) eqn:Hall; [|reflexivity].
  rewrite forallb_forall in Hall.
  specialize (Hall i). rewrite in_seq in Hall.
  assert (Hle : (to_hsize (nth i (getMaxDims rhs) 0)
                 <=? nth i (mMaxDims this) 0) = true) by (apply Hall; lia).
  apply Z.leb_le in Hle. lia.
Qed.

(** The three returns before the copy: nothing is asked of the engine. *)
Lemma assignment_refused (depth : nat) (this rhs : CPH5Dataset)
  (st : Storage) :
  depth <> O \/
  (exists i, (i < nDims this)%nat /\
     nth i (mMaxDims this) 0 < to_hsize (nth i (getMaxDims rhs) 0)) \/
  getTotalNumElements rhs < getTotalNumElements this ->
  assign_from junk heap depth this rhs st = Some (this, rhs, st, Returned).
Proof.
  intros [Hd|[(i & Hi & Hlt)|Hgt]]; unfold assign_from.
  - destruct (depth =? 0)%nat eqn:H0; [apply Nat.eqb_eq in H0; lia|].
    reflexivity.
  - destruct (negb (depth =? 0)%nat); [reflexivity|].
    rewrite (dimsMatch_fails _ _ Hi Hlt). reflexivity.
  - destruct (negb (depth =? 0)%nat); [reflexivity|].
    destruct (negb (dimsMatch this rhs)); [reflexivity|].
    destruct (getTotalNumElements this <? getTotalNumElements rhs) eqn:Hlt;
      [apply Z.ltb_lt in Hlt; lia|].
    destruct (getTotalNumElements rhs <? getTotalNumElements this) eqn:Hlt';
      [reflexivity|apply Z.ltb_ge in Hlt'; lia].
Qed.

End Assigning.

(** *** Worked assignments *)

(** Two rows of [int], at most ten, open under handle 0. *)
Definition source : CPH5Dataset :=
  {| nDims := 1; mType := int32; mDims := [2; 0]; mMaxDims := [10; 0];
     mpDataSet := Some O; mDimsSet := true;
     mpIOFacility := IOFacility.new_facility |}.

(** Two rows, at most five, open under handle 1. *)
Definition narrow : CPH5Dataset :=
  {| nDims := 1; mType := int32; mDims := [2; 0]; mMaxDims := [5; 0];
     mpDataSet := Some 1%nat; mDimsSet := true;
     mpIOFacility := IOFacility.new_facility |}.

(** Two rows, at most ten, open under handle 1. *)
Definition wide : CPH5Dataset :=
  {| nDims := 1; mType := int32; mDims := [2; 0]; mMaxDims := [10; 0];
     mpDataSet := Some 1%nat; mDimsSet := true;
     mpIOFacility := IOFacility.new_facility |}.

(** The container: 11 and 22 under handle 0, zeros under handle 1. *)
Definition two_rows : recorded (list Z) :=
  {| rec_dims := fun _ => [2];
     rec_data := fun h => if Nat.eqb h 0 then [11; 22] else [0; 0];
     rec_log := [] |}.

(** A destination whose maximum is below that of the source takes nothing;
    one of the same sizes takes the rows. *)
Example narrow_is_refused :
  assign_from (E := Recorder (list Z)) IOFacility.no_junk [] 0
    narrow source two_rows
  = Some (narrow, source, two_rows, Returned).
Proof. reflexivity. Qed.

Example wide_takes_the_rows :
  option_map (fun r => (rec_data (snd (fst r)) 1%nat, rec_log (snd (fst r))))
    (assign_from (E := Recorder (list Z)) IOFacility.no_junk [] 0
       wide source two_rows)
  = Some ([11; 22],
          [ReqWrite 1%nat [11; 22] int32 (SimpleSpace [2] None)
             (SimpleSpace [2] (Some ([2], [0])))]).
Proof. reflexivity. Qed.

(** Two rows of four, at most ten by ten, open under handle 0. *)
Definition block : CPH5Dataset :=
  {| nDims := 2; mType := int32; mDims := [2; 4; 0]; mMaxDims := [10; 10; 0];
     mpDataSet := Some O; mDimsSet := true;
     mpIOFacility := IOFacility.new_facility |}.

(** One row of six, at most ten by ten, open under handle 1. *)
Definition strip : CPH5Dataset :=
  {| nDims := 2; mType := int32; mDims := [1; 6; 0]; mMaxDims := [10; 10; 0];
     mpDataSet := Some 1%nat; mDimsSet := true;
     mpIOFacility := IOFacility.new_facility |}.

(** The container: 1 to 8 under handle 0, six zeros under handle 1. *)
Definition block_and_strip : recorded (list Z) :=
  {| rec_dims := fun h => if Nat.eqb h 0 then [2; 4] else [1; 6];
     rec_data := fun h => if Nat.eqb h 0 then [1; 2; 3; 4; 5; 6; 7; 8]
                          else [0; 0; 0; 0; 0; 0];
     rec_log := [] |}.

(** [strip] after [resizeToR] with the sizes of [block], and the container
    then. *)
Definition strip_grown : option (CPH5Dataset * recorded (list Z) * outcome) :=
  resizeToR (E := Recorder (list Z)) 2 0 (map to_hsize (getDims block))
    strip block_and_strip.

(** C8.  [strip = block]: no maximum of [strip] is below that of [block]
    and [strip] holds 6 elements, fewer than the 8 of [block].  [resizeToR]
    grows the first dimension only, to two rows of six.  The buffer has the
    8 * 4 = 32 bytes of [block]; [readRaw] fills it, and [writeRaw] hands it
    to the engine for the 12 elements, 48 bytes, of the grown [strip]: the
    write reads 16 bytes past the end of the buffer. *)
Theorem assignment_reads_past_the_buffer :
  dimsMatch strip block = true /\
  getTotalNumElements strip = 6 /\
  getTotalNumElements block = 8 /\
  option_map (fun r => (getDims (fst (fst r)), snd r)) strip_grown
  = Some ([2; 6], Returned) /\
  copy_size strip block = 32 /\
  option_map (fun r => bytes_moved (mpIOFacility (fst r)))
    (readRaw (E := Recorder (list Z)) IOFacility.no_junk block
       block_and_strip)
  = Some 32 /\
  option_map (fun w => bytes_moved (mpIOFacility (fst w)))
    (g <- strip_grown ;;
     writeRaw (E := Recorder (list Z)) IOFacility.no_junk
       [1; 2; 3; 4; 5; 6; 7; 8] (fst (fst g)) (snd (fst g)))
  = Some 48 /\
  assign_from (E := Recorder (list Z)) IOFacility.no_junk [] 0
    strip block block_and_strip
  = None.
Proof.
  repeat split; vm_compute; reflexivity.
Qed.

(** Nine hundred million elements of two bytes: the size wraps to a
    negative [int] and [new] throws before anything is read. *)
Definition cube (h : handle) : CPH5Dataset :=
  {| nDims := 3; mType := H5Integer 2 H5T_SGN_NONE;
     mDims := [1800; 1024; 1024; 0]; mMaxDims := [1800; 1024; 1024; 0];
     mpDataSet := Some h; mDimsSet := true;
     mpIOFacility := IOFacility.new_facility |}.

Example copy_size_wraps :
  getTotalNumElements (cube 0%nat) = 1887436800 /\
  copy_size (cube 1%nat) (cube 0%nat) = -520093696 /\
  assign_from (E := Recorder (list Z)) IOFacility.no_junk [] 0
    (cube 1%nat) (cube 0%nat) (container [1800; 1024; 1024] [])
  = Some (cube 1%nat, cube 0%nat, container [1800; 1024; 1024] [], Thrown).
Proof.
  repeat split; vm_compute; reflexivity.
Qed.

End Dataset.

(* ------------------------------------------------------------------------- *)
(** ** cph5dynamic.h: CPH5Dynamic::recurseComptype *)

Module Dynamic.

Import CompType.

(** A call that returns [a] or leaves by [throw what]. *)
Inductive result (A : Type) :=
| Built (a : A)
| Raised (what : string).

Arguments Raised {A} what.

(** The class of a stored type, for the five classes the reflector
    distinguishes. *)
Inductive H5T_class :=
  H5T_INTEGER | H5T_FLOAT | H5T_COMPOUND | H5T_ARRAY | H5T_NO_CLASS
| H5T_other_class (c : H5T_other).

Definition getClass (t : H5Type) : H5T_class :=
  match t with
  | H5NoType => H5T_NO_CLASS
  | H5Integer _ _ => H5T_INTEGER
  | H5Float _ => H5T_FLOAT
  | H5Compound _ _ => H5T_COMPOUND
  | H5Array _ _ => H5T_ARRAY
  | H5Other c _ => H5T_other_class c
  end.

Definition H5Tget_sign (t : H5Type) : H5T_sign :=
  match t with
  | H5Integer _ s => s
  | _ => H5T_SGN_ERROR
  end.

Definition sign_eqb (a b : H5T_sign) : bool :=
  match a, b with
  | H5T_SGN_NONE, H5T_SGN_NONE => true
  | H5T_SGN_2, H5T_SGN_2 => true
  | H5T_SGN_ERROR, H5T_SGN_ERROR => true
  | _, _ => false
  end.

(** The integer types in the order [recurseComptype] tries them:
    [getH5Sign<T>()] and [sizeof(T)]. *)
Definition integer_types : list (H5T_sign * Z) :=
  [ (H5T_SGN_2, 1); (H5T_SGN_2, 2); (H5T_SGN_2, 4); (H5T_SGN_2, 8);
    (H5T_SGN_NONE, 1); (H5T_SGN_NONE, 2); (H5T_SGN_NONE, 4);
    (H5T_SGN_NONE, 8) ].

(** [float] and [double]: the specialisations test the size only. *)
Definition float_types : list Z := [4; 8].

(** A value the constructor does not set; shown as zeros. *)
Definition unset (size : Z) : list Byte.byte :=
  repeat Byte.x00 (Z.to_nat size).

(** [memberAdderIf<T>]: on a match the member is constructed on [fill],
    which registers it, and [true] is returned. *)
Definition memberAdderIf (T : H5T_sign * Z) (h5type : H5Type)
  (fill : CPH5CompType) (name : string) : CPH5CompType * bool :=
  if sign_eqb (fst T) (H5Tget_sign h5type) && (h5_getSize h5type =? snd T)
  then (registerMember
          (CompMember name h5type (Z.to_nat (snd T)) (unset (snd T))) fill,
        true)
  else (fill, false).

Definition memberAdderIf_float (size : Z) (h5type : H5Type)
  (fill : CPH5CompType) (name : string) : CPH5CompType * bool :=
  if h5_getSize h5type =? size
  then (registerMember
          (CompMember name h5type (Z.to_nat size) (unset size)) fill, true)
  else (fill, false).

(** [arrayAddIf<T>]. *)
Definition arrayAddIf (T : H5T_sign * Z) (h5type : H5Type)
  (fill : CPH5CompType) (name : string) (nElements : Z)
  : CPH5CompType * bool :=
  if sign_eqb (fst T) (H5Tget_sign h5type) && (h5_getSize h5type =? snd T)
  then (registerMember
          (CompMemberArray name h5type (Z.to_nat (snd T))
             (Z.to_nat nElements) (unset (snd T * nElements)) false) fill,
        true)
  else (fill, false).

Definition arrayAddIf_float (size : Z) (h5type : H5Type)
  (fill : CPH5CompType) (name : string) (nElements : Z)
  : CPH5CompType * bool :=
  if h5_getSize h5type =? size
  then (registerMember
          (CompMemberArray name h5type (Z.to_nat size)
             (Z.to_nat nElements) (unset (size * nElements)) false) fill,
        true)
  else (fill, false).

(** [success = success || adder<T>(...)], over the types in turn. *)
Fixpoint first_success {T} (adder : T -> CPH5CompType -> CPH5CompType * bool)
  (types : list T) (fill : CPH5CompType) : CPH5CompType * bool :=
  match types with
  | [] => (fill, false)
  | t :: r =>
      let (fill', success) := adder t fill in
      if success then (fill', true) else first_success adder r fill'
  end.

Section Members.

(** The body of the loop over the members, for one member. *)
Variable add_member :
  string -> H5Type -> CPH5CompType -> result CPH5CompType.

(** [for (i = 0; i < numMembers; ++i)]. *)
Fixpoint add_members (members : list (string * Z * H5Type))
  (fill : CPH5CompType) : result CPH5CompType :=
  match members with
  | [] => Built fill
  | (name, _, type) :: r =>
      match add_member name type fill with
      | Built fill' => add_members r fill'
      | Raised what => Raised what
      end
  end.

End Members.

(** [for (cid = 0; cid < nElements; ++cid)]: every element is reconstructed
    from the base type, [one] is what that gives. *)
Fixpoint add_elements (nElements : nat) (one : result CPH5CompType)
  : result (list CPH5CompType) :=
  match nElements with
  | O => Built []
  | S n =>
      match one with
      | Built e =>
          match add_elements n one with
          | Built r => Built (e :: r)
          | Raised what => Raised what
          end
      | Raised what => Raised what
      end
  end.

(** One round of the loop of [recurseComptype], on the member [name] of
    stored type [type].  The two branches marked [TODO error here?] return
    with nothing added. *)
Fixpoint add_member (name : string) (type : H5Type) (fill : CPH5CompType)
  {struct type} : result CPH5CompType :=
  match type with
  | H5Compound _ members =>
      match add_members add_member members [] with
      | Built children =>
          Built (registerMember (CompMemberRec name type children) fill)
      | Raised what => Raised what
      end
  | H5Integer _ _ =>
      let (fill', success) :=
        first_success (fun T f => memberAdderIf T type f name)
          integer_types fill in
      if success then Built fill' else Raised "BAD FAIL"
  | H5Float _ =>
      let (fill', success) :=
        first_success (fun T f => memberAdderIf_float T type f name)
          float_types fill in
      if success then Built fill' else Raised "BAD FAIL"
  | H5Array dims baseType =>
      if (length dims =? 1)%nat then
        let nElements := hd 0 dims in
        match baseType with
        | H5Compound _ members =>
            match add_elements (Z.to_nat nElements)
                    (add_members add_member members []) with
            | Built elements =>
                Built (registerMember
                         (CompMemberRecArray name baseType
                            (Z.to_nat nElements) (elements ++ [[]]) false)
                         fill)
            | Raised what => Raised what
            end
        | H5Integer _ _ =>
            let (fill', success) :=
              first_success
                (fun T f => arrayAddIf T baseType f name nElements)
                integer_types fill in
            if success then Built fill'
            else Raised "BAD UNKNOWN ARRAY TYPE"
        | H5Float _ =>
            let (fill', success) :=
              first_success
                (fun T f => arrayAddIf_float T baseType f name nElements)
                float_types fill in
            if success then Built fill'
            else Raised "BAD UNKNOWN ARRAY FLOAT TYPE"
        | _ => Built fill
        end
      else Built fill
  | H5NoType => Raised "BAD UNKNOWN TYPE"
  | H5Other _ _ => Raised "BAD UNKNOWN TYPE"
  end.

(** [recurseComptype(h5type, fill)]. *)
Definition recurseComptype (h5type : H5Type) (fill : CPH5CompType)
  : result CPH5CompType :=
  add_members add_member (compound_members h5type) fill.

(** *** What the reflector does with members it does not support *)

(** A member of a class outside integer, float, compound and array stops
    the reconstruction. *)
Lemma unknown_class_raises name c size fill :
  add_member name (H5Other c size) fill = Raised "BAD UNKNOWN TYPE".
Proof. reflexivity. Qed.

(** An array member whose rank is not 1 is passed over: nothing is added
    and nothing is raised. *)
Lemma higher_rank_array_is_passed_over name dims baseType fill :
  length dims <> 1%nat ->
  add_member name (H5Array dims baseType) fill = Built fill.
Proof.
  intros H. simpl.
  destruct (length dims =? 1)%nat eqn:E; [|reflexivity].
  apply Nat.eqb_eq in E. contradiction.
Qed.

(** So is an array of rank 1 whose elements are neither integers, floats
    nor records. *)
Lemma array_of_other_class_is_passed_over name n c size fill :
  add_member name (H5Array [n] (H5Other c size)) fill = Built fill.
Proof. reflexivity. Qed.

(** A stored record with an [int] and a 2 x 3 array of [int]. *)
Definition with_grid : H5Type :=
  H5Compound 28
    [ ("id"%string, 0, int32);
      ("grid"%string, 4, H5Array [2; 3] int32) ].

(** C9, evaluated at [with_grid]: the reconstruction returns normally, with
    the member [id] alone; the member [grid], an array of rank 2, is left
    out and no failure is raised.  The record so built describes 4 of the
    28 stored bytes. *)
Theorem rank_two_array_is_left_out :
  recurseComptype with_grid []
  = Built [CompMember "id" int32 4 (unset 4)] /\
  getCompType [CompMember "id" int32 4 (unset 4)]
  = H5Compound 4 [("id"%string, 0, int32)].
Proof. split; reflexivity. Qed.

(** Within the closure nothing is lost: an example with every supported
    kind of member. *)
Example supported_members_are_kept :
  option_map (map getName)
    (match recurseComptype
             (H5Compound 17
                [ ("a"%string, 0, int32);
                  ("b"%string, 4, H5Float 8);
                  ("c"%string, 12, H5Compound 1 [("x"%string, 0, uint8)]);
                  ("d"%string, 13, H5Array [2] uint8);
                  ("e"%string, 15,
                   H5Array [2] (H5Compound 1 [("y"%string, 0, uint8)])) ])
             [] with
     | Built c => Some c
     | Raised _ => None
     end)
  = Some ["a"; "b"; "c"; "d"; "e"]%string.
Proof. reflexivity. Qed.

End Dynamic.

(* ------------------------------------------------------------------------- *)
(** ** cph5comptype.h: CPH5CompMemberArrayCommon<T, IS_DERIVED> *)

Module RecordArray.

(** An array object, as [mpArrParent] points to it. *)
Definition array_ref := nat.

(** The elements of the array: objects of the record type [T], each with
    the fields of [CPH5CompType].  [setArrayParent] passes the pointer on
    to every child and a child registered later takes the pointer of the
    record, so the one field stands for the children too. *)
Module Element.

Record CPH5CompType := mkElement {
  mChildren : CompType.CPH5CompType;
  mpFacility : option IOFacility.CPH5IOFacility;
  mpArrParent : option array_ref
}.

(** [T()]: the constructor of [CPH5CompType] sets both pointers to null;
    [children] is what the constructor of [T] registers. *)
Definition construct (children : CompType.CPH5CompType) : CPH5CompType :=
  {| mChildren := children; mpFacility := None; mpArrParent := None |}.

Definition getIOFacility (e : CPH5CompType) := mpFacility e.

Definition setArrayParent (pArrParent : option array_ref) (e : CPH5CompType)
  : CPH5CompType :=
  {| mChildren := mChildren e; mpFacility := mpFacility e;
     mpArrParent := pArrParent |}.

Definition set_children (c : CompType.CPH5CompType) (e : CPH5CompType)
  : CPH5CompType :=
  {| mChildren := c; mpFacility := mpFacility e;
     mpArrParent := mpArrParent e |}.




End Element.

Record CPH5CompMemberArrayCommon := mkArray {
  mpParent : option CompParent;
  mName : string;
  mBaseType : H5Type;
  mReadDone : bool;
  mpArrParent : option array_ref;
  mDatasetIndices : list Z;
  mNElements : Z;                         (* int *)
  pmT : list Element.CPH5CompType         (* new T[nElements+1] *)
}.

(** [for (i = 0; i < k; ++i) f(l[i])]. *)
Fixpoint on_first {A} (f : A -> A) (k : nat) (l : list A) {struct l}
  : list A :=
  match l, k with
  | x :: r, S k' => f x :: on_first f k' r
  | _, _ => l
  end.

(** The constructor, for the object [this] and an element type whose
    constructor registers [children].  [new T[nElements+1]] fails on a
    negative count. *)
Definition construct (this : array_ref) (children : CompType.CPH5CompType)
  (parent : option CompParent) (name : string) (type : H5Type)
  (nElements : Z) : option CPH5CompMemberArrayCommon :=
  if to_int (nElements + 1) <? 0 then None
  else
    Some {| mpParent := parent; mName := name; mBaseType := type;
            mReadDone := false; mpArrParent := None;
            mDatasetIndices := []; mNElements := nElements;
            pmT := on_first (Element.setArrayParent (Some this))
                     (Z.to_nat nElements)
                     (repeat (Element.construct children)
                        (Z.to_nat (to_int (nElements + 1)))) |}.

Definition set_elements (els : list Element.CPH5CompType) (rd : bool)
  (a : CPH5CompMemberArrayCommon) : CPH5CompMemberArrayCommon :=
  {| mpParent := mpParent a; mName := mName a; mBaseType := mBaseType a;
     mReadDone := rd; mpArrParent := mpArrParent a;
     mDatasetIndices := mDatasetIndices a; mNElements := mNElements a;
     pmT := els |}.

Definition set_indices (ix : list Z) (a : CPH5CompMemberArrayCommon)
  : CPH5CompMemberArrayCommon :=
  {| mpParent := mpParent a; mName := mName a; mBaseType := mBaseType a;
     mReadDone := mReadDone a; mpArrParent := mpArrParent a;
     mDatasetIndices := ix; mNElements := mNElements a; pmT := pmT a |}.

Definition set_facility (f : IOFacility.CPH5IOFacility)
  (a : CPH5CompMemberArrayCommon) : CPH5CompMemberArrayCommon :=
  {| mpParent :=
       option_map (fun P => {| getIOFacility := Some f;
                               nestCompTypeIR := nestCompTypeIR P |})
                  (mpParent a);
     mName := mName a; mBaseType := mBaseType a;
     mReadDone := mReadDone a; mpArrParent := mpArrParent a;
     mDatasetIndices := mDatasetIndices a; mNElements := mNElements a;
     pmT := pmT a |}.

Definition setArrayParent (pArrParent : option array_ref)
  (a : CPH5CompMemberArrayCommon) : CPH5CompMemberArrayCommon :=
  {| mpParent := mpParent a; mName := mName a; mBaseType := mBaseType a;
     mReadDone := mReadDone a; mpArrParent := pArrParent;
     mDatasetIndices := mDatasetIndices a; mNElements := mNElements a;
     pmT := on_first (Element.setArrayParent pArrParent)
              (Z.to_nat (mNElements a)) (pmT a) |}.

(** [for (i = 0; i < mNElements; ++i) pmT[i].latchAllAndMove(ptr);] *)
Fixpoint latch_objects (k : nat) (els : list Element.CPH5CompType)
  (ptr : list Byte.byte) {struct els}
  : list Element.CPH5CompType * list Byte.byte :=
  match els, k with
  | e :: r, S k' =>
      let (c, p1) := CompType.latchAllAndMove (Element.mChildren e) ptr in
      let (r', p2) := latch_objects k' r p1 in
      (Element.set_children c e :: r', p2)
  | _, _ => (els, ptr)
  end.

Definition latchAndMove (a : CPH5CompMemberArrayCommon)
  (ptr : list Byte.byte) : CPH5CompMemberArrayCommon * list Byte.byte :=
  let (els, p) := latch_objects (Z.to_nat (mNElements a)) (pmT a) ptr in
  (set_elements els true a, p).

Definition mpArrType (a : CPH5CompMemberArrayCommon) : H5Type :=
  H5Array [to_hsize (mNElements a)] (mBaseType a).

Definition member_type (P : CompParent) (a : CPH5CompMemberArrayCommon)
  : H5Type :=
  nestCompTypeIR P
    (insertMember (mName a) 0 (mpArrType a)
       (CompType_new (h5_getSize (mpArrType a)))).

Section WithEngine.

Context {E : StorageEngine (list Byte.byte)}.
Variable junk : nat -> Z.

(** [readAll]: the buffer is a vector resized to the size of the type,
    hence zeros before the engine stores into it. *)
Definition readAll (a : CPH5CompMemberArrayCommon) (st : Storage)
  : option CPH5CompMemberArrayCommon :=
  match mpParent a, mpArrParent a with
  | Some P, None =>
      match getIOFacility P with
      | None => Some a
      | Some pioFacility =>
          let topCompType := member_type P a in
          let buf := repeat Byte.x00 (Z.to_nat (h5_getSize topCompType)) in
          r <- IOFacility.read_with junk topCompType pioFacility st ;;
          let buf := match snd r with
                     | Some got => fill buf got
                     | None => buf
                     end in
          let (els, _) :=
            latch_objects (Z.to_nat (mNElements a)) (pmT a) buf in
          Some (set_elements els true (set_facility (fst r) a))
      end
  | _, _ => Some a
  end.

Definition indices_differ (cur latched : list Z) : bool :=
  negb (length cur =? length latched)%nat
  || negb (forallb (fun p => fst p =? snd p) (combine cur latched)).

(** The first half of [operator[]]: the elements are read again when they
    were never read, or when this is the array of the highest order and the
    indices of the dataset have changed. *)
Definition refresh (a : CPH5CompMemberArrayCommon) (st : Storage)
  : option CPH5CompMemberArrayCommon :=
  let pioFacility :=
    match mpParent a with
    | Some P => getIOFacility P
    | None => None
    end in
  match pioFacility with
  | Some pio =>
      if negb (mReadDone a) then
        a1 <- readAll a st ;;
        Some (set_indices (IOFacility.getIndices pio) a1)
      else
        match mpArrParent a with
        | None =>
            let curIndices := IOFacility.getIndices pio in
            a1 <- (if indices_differ curIndices (mDatasetIndices a)
                   then readAll a st else Some a) ;;
            Some (set_indices curIndices a1)
        | Some _ => Some a
        end
  | None => Some a
  end.

(** [operator[]]: the array after the call, and the place in [pmT] of the
    object the returned reference denotes. *)
Definition index (ind : Z) (a : CPH5CompMemberArrayCommon) (st : Storage)
  : option (CPH5CompMemberArrayCommon * nat) :=
  a' <- refresh a st ;;
  if (0 <=? ind) && (ind <? mNElements a')
  then Some (a', Z.to_nat ind)
  else Some (a', Z.to_nat (mNElements a')).

End WithEngine.

(** *** The spare object *)












Section Spare.

Context {E : StorageEngine (list Byte.byte)}.
Variable junk : nat -> Z.











End Spare.

(** *** A worked array of records *)

Definition cell : H5Type := H5Compound 1 [("v"%string, 0, uint8)].

(** Two records of one byte each, member [pts] of the record selected by
    [row_of_three], as the constructor makes the array for the object 7. *)
Definition pts_parent : CompParent :=
  {| getIOFacility := Some IOFacility.row_of_three;
     nestCompTypeIR := fun t => t |}.

Definition pts_children : CompType.CPH5CompType :=
  [CompType.CompMember "v" uint8 1 [Byte.x00]].

Definition pts : CPH5CompMemberArrayCommon :=
  {| mpParent := Some pts_parent; mName := "pts"; mBaseType := cell;
     mReadDone := false; mpArrParent := None; mDatasetIndices := [];
     mNElements := 2;
     pmT := [ Element.setArrayParent (Some 7%nat)
                (Element.construct pts_children);
              Element.setArrayParent (Some 7%nat)
                (Element.construct pts_children);
              Element.construct pts_children ] |}.

Example pts_constructed :
  construct 7%nat pts_children (Some pts_parent) "pts" cell 2 = Some pts.
Proof. reflexivity. Qed.

(** The container holds the bytes 5 and 6 for the two records. *)
Definition stored_pts : recorded (list Byte.byte) :=
  container [3] [Byte.x05; Byte.x06].

Example pts_places :
  option_map snd (index IOFacility.no_junk 1 pts stored_pts) = Some 1%nat /\
  option_map snd (index IOFacility.no_junk 2 pts stored_pts) = Some 2%nat /\
  option_map snd (index IOFacility.no_junk 5 pts stored_pts) = Some 2%nat /\
  option_map snd (index IOFacility.no_junk (-1) pts stored_pts) = Some 2%nat.
Proof. repeat split. Qed.


End RecordArray.

(* ------------------------------------------------------------------------- *)
(** ** cph5utilities.h: CPH5Swappers *)

Module Swappers.

(** [swap_in_place] on a [uint16_t]: the operands of [|] are promoted to [int],
    and the assignment to [x] keeps the low 16 bits. *)
Definition swap_in_place_uint16 (x : Z) : Z :=
  (Z.lor (Z.shiftr x 8) (Z.shiftl x 8)) mod 2 ^ 16.

(** [swap_in_place] on a [uint32_t]: a shift to the left wraps at 32 bits. *)
Definition swap_in_place_uint32 (x : Z) : Z :=
  Z.lor
    (Z.lor
       (Z.lor (Z.shiftr x 24)
              (Z.land (Z.shiftl x 8 mod 2 ^ 32) 0x00FF0000))
       (Z.land (Z.shiftr x 8) 0x0000FF00))
    (Z.shiftl x 24 mod 2 ^ 32).

(** *** Bits of the swapped values *)

Lemma testbit_255 j : Z.testbit 255 j = (0 <=? j) && (j <? 8).
Proof.
  destruct (Z.leb_spec 0 j) as [H|H]; [|now rewrite Z.testbit_neg_r].
  destruct (Z.ltb_spec j 8) as [H8|H8].
  - assert (j = 0 \/ j = 1 \/ j = 2 \/ j = 3 \/ j = 4 \/ j = 5 \/ j = 6 \/ j = 7)
      as C by lia.
    repeat (destruct C as [->|C]; [reflexivity|]). subst. reflexivity.
  - apply Z.bits_above_log2; [lia|]. simpl. lia.
Qed.

Lemma testbit_wrap w x j :
  0 <= w -> Z.testbit (x mod 2 ^ w) j = (j <? w) && Z.testbit x j.
Proof.
  intros Hw. destruct (Z.ltb_spec j w) as [H|H].
  - destruct (Z.leb_spec 0 j) as [H0|H0].
    + now rewrite Z.mod_pow2_bits_low by lia.
    + now rewrite !Z.testbit_neg_r by lia.
  - now rewrite Z.mod_pow2_bits_high by lia.
Qed.

Lemma testbit_shiftl x s j :
  0 <= s -> Z.testbit (Z.shiftl x s) j = Z.testbit x (j - s).
Proof.
  intros Hs. destruct (Z.leb_spec 0 j) as [H0|H0].
  - now rewrite Z.shiftl_spec by lia.
  - now rewrite !Z.testbit_neg_r by lia.
Qed.

Lemma testbit_above w x j :
  0 <= x < 2 ^ w -> w <= j -> Z.testbit x j = false.
Proof.
  intros Hx Hj.
  destruct (Z.eq_dec x 0) as [->|Hz]; [apply Z.testbit_0_l|].
  apply Z.bits_above_log2; [lia|].
  assert (0 <= w) by (destruct (Z.leb_spec 0 w); [lia|]; rewrite Z.pow_neg_r in Hx; lia).
  assert (Z.log2 x < w) by (apply Z.log2_lt_pow2; lia). lia.
Qed.

(** Where bit [j] is in a value of [w] bits whose bytes are reversed. *)
Definition mirror (w j : Z) : Z := w - 8 - 8 * (j / 8) + j mod 8.

Ltac decide_cmp :=
  repeat match goal with
  | |- context [?a <? ?b] => destruct (Z.ltb_spec a b); try lia
  | |- context [?a <=? ?b] => destruct (Z.leb_spec a b); try lia
  end.

Ltac kill_bits w x :=
  repeat match goal with
  | |- context [Z.testbit x ?i] =>
      first [ rewrite (@testbit_above w x i) by lia
            | rewrite (Z.testbit_neg_r x i) by lia ]
  end.

Ltac bool_tidy :=
  repeat (progress (cbn [orb andb];
    rewrite ?orb_false_r, ?andb_true_r, ?andb_false_r, ?orb_false_l));
  try reflexivity; try (f_equal; lia).

Lemma mirror_at w j c :
  8 * c <= j < 8 * c + 8 -> mirror w j = w - 8 - 16 * c + j.
Proof. unfold mirror. intros H. Z.div_mod_to_equations. lia. Qed.

Lemma swap32_bits x j :
  0 <= x < 2 ^ 32 -> 0 <= j ->
  Z.testbit (swap_in_place_uint32 x) j
  = (j <? 32) && Z.testbit x (mirror 32 j).
Proof.
  intros Hx Hj. unfold swap_in_place_uint32.
  change 0x00FF0000 with (Z.shiftl 255 16).
  change 0x0000FF00 with (Z.shiftl 255 8).
  rewrite !Z.lor_spec, !Z.land_spec, !testbit_wrap, !testbit_shiftl,
    !Z.shiftr_spec, !testbit_255 by lia.
  assert (0 <= j < 8 \/ 8 <= j < 16 \/ 16 <= j < 24 \/ 24 <= j < 32 \/ 32 <= j)
    as [C|[C|[C|[C|C]]]] by lia.
  - rewrite (@mirror_at 32 j 0) by lia; decide_cmp; kill_bits 32 x; bool_tidy.
  - rewrite (@mirror_at 32 j 1) by lia; decide_cmp; kill_bits 32 x; bool_tidy.
  - rewrite (@mirror_at 32 j 2) by lia; decide_cmp; kill_bits 32 x; bool_tidy.
  - rewrite (@mirror_at 32 j 3) by lia; decide_cmp; kill_bits 32 x; bool_tidy.
  - decide_cmp; kill_bits 32 x; bool_tidy.
Qed.

(** [swap_in_place] on a [uint64_t]. *)
Definition swap_in_place_uint64 (x : Z) : Z :=
  Z.lor
    (Z.lor
       (Z.lor
          (Z.lor
             (Z.lor
                (Z.lor
                   (Z.lor (Z.shiftr x 56)
                          (Z.land (Z.shiftl x 40 mod 2 ^ 64) 0x00FF000000000000))
                   (Z.land (Z.shiftl x 24 mod 2 ^ 64) 0x0000FF0000000000))
                (Z.land (Z.shiftl x 8 mod 2 ^ 64) 0x000000FF00000000))
             (Z.land (Z.shiftr x 8) 0x00000000FF000000))
          (Z.land (Z.shiftr x 24) 0x0000000000FF0000))
       (Z.land (Z.shiftr x 40) 0x000000000000FF00))
    (Z.shiftl x 56 mod 2 ^ 64).

Lemma swap64_bits x j :
  0 <= x < 2 ^ 64 -> 0 <= j ->
  Z.testbit (swap_in_place_uint64 x) j
  = (j <? 64) && Z.testbit x (mirror 64 j).
Proof.
  intros Hx Hj. unfold swap_in_place_uint64.
  change 0x00FF000000000000 with (Z.shiftl 255 48).
  change 0x0000FF0000000000 with (Z.shiftl 255 40).
  change 0x000000FF00000000 with (Z.shiftl 255 32).
  change 0x00000000FF000000 with (Z.shiftl 255 24).
  change 0x0000000000FF0000 with (Z.shiftl 255 16).
  change 0x000000000000FF00 with (Z.shiftl 255 8).
  rewrite !Z.lor_spec, !Z.land_spec, !testbit_wrap, !testbit_shiftl,
    !Z.shiftr_spec, !testbit_255 by lia.
  assert (0 <= j < 8 \/ 8 <= j < 16 \/ 16 <= j < 24 \/ 24 <= j < 32 \/
          32 <= j < 40 \/ 40 <= j < 48 \/ 48 <= j < 56 \/ 56 <= j < 64 \/
          64 <= j)
    as [C|[C|[C|[C|[C|[C|[C|[C|C]]]]]]]] by lia.
  - rewrite (@mirror_at 64 j 0) by lia; decide_cmp; kill_bits 64 x; bool_tidy.
  - rewrite (@mirror_at 64 j 1) by lia; decide_cmp; kill_bits 64 x; bool_tidy.
  - rewrite (@mirror_at 64 j 2) by lia; decide_cmp; kill_bits 64 x; bool_tidy.
  - rewrite (@mirror_at 64 j 3) by lia; decide_cmp; kill_bits 64 x; bool_tidy.
  - rewrite (@mirror_at 64 j 4) by lia; decide_cmp; kill_bits 64 x; bool_tidy.
  - rewrite (@mirror_at 64 j 5) by lia; decide_cmp; kill_bits 64 x; bool_tidy.
  - rewrite (@mirror_at 64 j 6) by lia; decide_cmp; kill_bits 64 x; bool_tidy.
  - rewrite (@mirror_at 64 j 7) by lia; decide_cmp; kill_bits 64 x; bool_tidy.
  - decide_cmp; kill_bits 64 x; bool_tidy.
Qed.

Lemma swap16_bits x j :
  0 <= x < 2 ^ 16 -> 0 <= j ->
  Z.testbit (swap_in_place_uint16 x) j
  = (j <? 16) && Z.testbit x (mirror 16 j).
Proof.
  intros Hx Hj. unfold swap_in_place_uint16.
  rewrite !testbit_wrap, !Z.lor_spec, !testbit_shiftl,
    !Z.shiftr_spec by lia.
  assert (0 <= j < 8 \/ 8 <= j < 16 \/ 16 <= j)
    as [C|[C|C]] by lia.
  - rewrite (@mirror_at 16 j 0) by lia; decide_cmp; kill_bits 16 x; bool_tidy.
  - rewrite (@mirror_at 16 j 1) by lia; decide_cmp; kill_bits 16 x; bool_tidy.
  - decide_cmp; kill_bits 16 x; bool_tidy.
Qed.

(** Byte [k] of a value, counted from the least significant one. *)
Definition byte_at (k : Z) (x : Z) : Z := Z.land (Z.shiftr x (8 * k)) 255.

(** What follows from the bits alone, for a function on values of [n]
    bytes. *)
Section Mirrored.

Variable n : Z.
Variable f : Z -> Z.
Hypothesis n_pos : 0 < n.
Hypothesis f_bits : forall x j,
  0 <= x < 2 ^ (8 * n) -> 0 <= j ->
  Z.testbit (f x) j = (j <? 8 * n) && Z.testbit x (mirror (8 * n) j).

Lemma mirror_range j : 0 <= j < 8 * n -> 0 <= mirror (8 * n) j < 8 * n.
Proof. unfold mirror. intros H. Z.div_mod_to_equations. lia. Qed.

Lemma mirror_mirror j : mirror (8 * n) (mirror (8 * n) j) = j.
Proof. unfold mirror. Z.div_mod_to_equations. lia. Qed.

Lemma mirrored_range x : 0 <= x < 2 ^ (8 * n) -> 0 <= f x < 2 ^ (8 * n).
Proof.
  intros Hx.
  assert (Hnn : 0 <= f x).
  { apply Z.bits_iff_nonneg_ex. exists (8 * n). intros m Hm.
    rewrite f_bits by lia. destruct (Z.ltb_spec m (8 * n)); [lia|reflexivity]. }
  split; [exact Hnn|].
  assert (Hmod : f x = f x mod 2 ^ (8 * n)).
  { apply Z.bits_inj'. intros j Hj.
    rewrite testbit_wrap, f_bits by lia.
    destruct (j <? 8 * n); reflexivity. }
  rewrite Hmod. apply Z.mod_pos_bound. lia.
Qed.

Lemma mirrored_twice x : 0 <= x < 2 ^ (8 * n) -> f (f x) = x.
Proof.
  intros Hx. apply Z.bits_inj'. intros j Hj.
  rewrite f_bits by (try apply mirrored_range; lia).
  destruct (Z.ltb_spec j (8 * n)) as [H|H].
  - pose proof (mirror_range (conj Hj H)) as Hm.
    rewrite f_bits by lia.
    destruct (Z.ltb_spec (mirror (8 * n) j) (8 * n)); [|lia].
    now rewrite mirror_mirror.
  - symmetry. now apply testbit_above with (w := 8 * n).
Qed.

Lemma mirrored_bytes x k :
  0 <= x < 2 ^ (8 * n) -> 0 <= k < n ->
  byte_at k (f x) = byte_at (n - 1 - k) x.
Proof.
  intros Hx Hk. unfold byte_at. apply Z.bits_inj'. intros j Hj.
  rewrite !Z.land_spec, !Z.shiftr_spec, testbit_255 by lia.
  destruct (Z.leb_spec 0 j); [|lia].
  destruct (Z.ltb_spec j 8); [|now rewrite !andb_false_r].
  rewrite f_bits by lia.
  destruct (Z.ltb_spec (j + 8 * k) (8 * n)); [|lia].
  cbn [andb]. f_equal. f_equal.
  rewrite (@mirror_at (8 * n) (j + 8 * k) k) by lia. lia.
Qed.

End Mirrored.

(** *** The overloads *)

(** What [reinterpret_cast] between a signed type of [w] bits and the
    unsigned type of that size does to the value. *)
Definition unsigned_of (w x : Z) : Z := x mod 2 ^ w.
Definition signed_of (w u : Z) : Z := (u + 2 ^ (w - 1)) mod 2 ^ w - 2 ^ (w - 1).

(** The types [swap_in_place] is overloaded for.  A [float] or a [double] is
    taken as its bit pattern. *)
Inductive swappable :=
| T_uint8 | T_int8 | T_char
| T_uint16 | T_uint32 | T_uint64
| T_int16 | T_int32 | T_float | T_int64 | T_double.

Definition sizeof (t : swappable) : Z :=
  match t with
  | T_uint8 | T_int8 | T_char => 1
  | T_uint16 | T_int16 => 2
  | T_uint32 | T_int32 | T_float => 4
  | T_uint64 | T_int64 | T_double => 8
  end.

Definition is_signed (t : swappable) : bool :=
  match t with
  | T_int8 | T_char | T_int16 | T_int32 | T_int64 => true
  | _ => false
  end.

(** The values of a type. *)
Definition in_range (t : swappable) (x : Z) : Prop :=
  if is_signed t
  then - 2 ^ (8 * sizeof t - 1) <= x < 2 ^ (8 * sizeof t - 1)
  else 0 <= x < 2 ^ (8 * sizeof t).

(** The bit pattern of a value. *)
Definition bits (t : swappable) (x : Z) : Z :=
  if is_signed t then unsigned_of (8 * sizeof t) x else x.

(** The overloads: those of one byte do nothing, the signed and the
    floating ones call the unsigned one of their size on the same object. *)
Definition swap_in_place (t : swappable) (x : Z) : Z :=
  match t with
  | T_uint8 | T_int8 | T_char => x
  | T_uint16 => swap_in_place_uint16 x
  | T_uint32 => swap_in_place_uint32 x
  | T_uint64 => swap_in_place_uint64 x
  | T_int16 => signed_of 16 (swap_in_place_uint16 (unsigned_of 16 x))
  | T_int32 => signed_of 32 (swap_in_place_uint32 (unsigned_of 32 x))
  | T_float => swap_in_place_uint32 x
  | T_int64 => signed_of 64 (swap_in_place_uint64 (unsigned_of 64 x))
  | T_double => swap_in_place_uint64 x
  end.

Lemma unsigned_signed w u :
  0 < w -> 0 <= u < 2 ^ w -> unsigned_of w (signed_of w u) = u.
Proof.
  intros Hw Hu. unfold unsigned_of, signed_of.
  assert (H2 : 2 ^ w = 2 * 2 ^ (w - 1)).
  { rewrite <- Z.pow_succ_r by lia. f_equal. lia. }
  assert (0 < 2 ^ (w - 1)) by (apply Z.pow_pos_nonneg; lia).
  destruct (Z.lt_ge_cases u (2 ^ (w - 1))).
  - rewrite (Z.mod_small (u + _)) by lia.
    replace (u + 2 ^ (w - 1) - 2 ^ (w - 1)) with u by lia.
    apply Z.mod_small. lia.
  - replace (u + 2 ^ (w - 1)) with ((u - 2 ^ (w - 1)) + 1 * 2 ^ w) by lia.
    rewrite Z.mod_add by lia.
    rewrite (Z.mod_small (u - _)) by lia.
    replace (u - 2 ^ (w - 1) - 2 ^ (w - 1)) with (u + (-1) * 2 ^ w) by lia.
    rewrite Z.mod_add by lia. apply Z.mod_small. lia.
Qed.

Lemma signed_unsigned w x :
  0 < w -> - 2 ^ (w - 1) <= x < 2 ^ (w - 1) -> signed_of w (unsigned_of w x) = x.
Proof.
  intros Hw Hx. unfold unsigned_of, signed_of.
  assert (H2 : 2 ^ w = 2 * 2 ^ (w - 1)).
  { rewrite <- Z.pow_succ_r by lia. f_equal. lia. }
  rewrite Zplus_mod_idemp_l.
  rewrite Z.mod_small by lia. lia.
Qed.

Lemma unsigned_range w x : 0 < w -> 0 <= unsigned_of w x < 2 ^ w.
Proof. intros Hw. apply Z.mod_pos_bound. apply Z.pow_pos_nonneg; lia. Qed.

Lemma swap16_twice x : 0 <= x < 2 ^ 16 ->
  swap_in_place_uint16 (swap_in_place_uint16 x) = x.
Proof. exact (@mirrored_twice 2 swap_in_place_uint16 ltac:(lia) swap16_bits x). Qed.

Lemma swap32_twice x : 0 <= x < 2 ^ 32 ->
  swap_in_place_uint32 (swap_in_place_uint32 x) = x.
Proof. exact (@mirrored_twice 4 swap_in_place_uint32 ltac:(lia) swap32_bits x). Qed.

Lemma swap64_twice x : 0 <= x < 2 ^ 64 ->
  swap_in_place_uint64 (swap_in_place_uint64 x) = x.
Proof. exact (@mirrored_twice 8 swap_in_place_uint64 ltac:(lia) swap64_bits x). Qed.

Lemma swap16_range x : 0 <= x < 2 ^ 16 -> 0 <= swap_in_place_uint16 x < 2 ^ 16.
Proof. exact (@mirrored_range 2 swap_in_place_uint16 ltac:(lia) swap16_bits x). Qed.

Lemma swap32_range x : 0 <= x < 2 ^ 32 -> 0 <= swap_in_place_uint32 x < 2 ^ 32.
Proof. exact (@mirrored_range 4 swap_in_place_uint32 ltac:(lia) swap32_bits x). Qed.

Lemma swap64_range x : 0 <= x < 2 ^ 64 -> 0 <= swap_in_place_uint64 x < 2 ^ 64.
Proof. exact (@mirrored_range 8 swap_in_place_uint64 ltac:(lia) swap64_bits x). Qed.

Lemma swap16_bytes x k : 0 <= x < 2 ^ 16 -> 0 <= k < 2 ->
  byte_at k (swap_in_place_uint16 x) = byte_at (2 - 1 - k) x.
Proof. exact (@mirrored_bytes 2 swap_in_place_uint16 ltac:(lia) swap16_bits x k). Qed.

Lemma swap32_bytes x k : 0 <= x < 2 ^ 32 -> 0 <= k < 4 ->
  byte_at k (swap_in_place_uint32 x) = byte_at (4 - 1 - k) x.
Proof. exact (@mirrored_bytes 4 swap_in_place_uint32 ltac:(lia) swap32_bits x k). Qed.

Lemma swap64_bytes x k : 0 <= x < 2 ^ 64 -> 0 <= k < 8 ->
  byte_at k (swap_in_place_uint64 x) = byte_at (8 - 1 - k) x.
Proof. exact (@mirrored_bytes 8 swap_in_place_uint64 ltac:(lia) swap64_bits x k). Qed.

Section Signed.

Variable w : Z.
Variable f : Z -> Z.
Hypothesis w_pos : 0 < w.
Hypothesis f_range : forall u, 0 <= u < 2 ^ w -> 0 <= f u < 2 ^ w.
Hypothesis f_twice : forall u, 0 <= u < 2 ^ w -> f (f u) = u.

Lemma through_unsigned_twice x :
  - 2 ^ (w - 1) <= x < 2 ^ (w - 1) ->
  signed_of w (f (unsigned_of w (signed_of w (f (unsigned_of w x))))) = x.
Proof.
  intros H.
  rewrite unsigned_signed by (try apply f_range; try apply unsigned_range; lia).
  rewrite f_twice by (apply unsigned_range; lia).
  apply signed_unsigned; [lia|exact H].
Qed.

End Signed.

(** X1.  [swap_in_place] applied twice to a value of the type gives the
    value back, for every overload: the three of one byte, the unsigned
    ones, and the signed and floating ones that go through the unsigned
    one of their size. *)
Theorem swap_in_place_twice (t : swappable) (x : Z) :
  in_range t x -> swap_in_place t (swap_in_place t x) = x.
Proof.
  unfold in_range.
  destruct t; cbn [is_signed sizeof swap_in_place]; intros H.
  - reflexivity.
  - reflexivity.
  - reflexivity.
  - exact (swap16_twice H).
  - exact (swap32_twice H).
  - exact (swap64_twice H).
  - exact (@through_unsigned_twice 16 _ ltac:(lia) swap16_range swap16_twice x H).
  - exact (@through_unsigned_twice 32 _ ltac:(lia) swap32_range swap32_twice x H).
  - exact (swap32_twice H).
  - exact (@through_unsigned_twice 64 _ ltac:(lia) swap64_range swap64_twice x H).
  - exact (swap64_twice H).
Qed.

(** X2.  [swap_in_place] reverses the bytes of the object: byte [k] of the
    swapped value is byte [sizeof t - 1 - k] of the value, for every
    overload. *)
Theorem swap_in_place_reverses_bytes (t : swappable) (x k : Z) :
  in_range t x -> 0 <= k < sizeof t ->
  byte_at k (bits t (swap_in_place t x))
  = byte_at (sizeof t - 1 - k) (bits t x).
Proof.
  unfold in_range, bits.
  destruct t; cbn [is_signed sizeof swap_in_place]; intros H Hk.
  - replace (1 - 1 - k) with k by lia. reflexivity.
  - replace (1 - 1 - k) with k by lia. reflexivity.
  - replace (1 - 1 - k) with k by lia. reflexivity.
  - exact (swap16_bytes H Hk).
  - exact (swap32_bytes H Hk).
  - exact (swap64_bytes H Hk).
  - rewrite unsigned_signed
      by (try apply swap16_range; try apply unsigned_range; lia).
    apply swap16_bytes; [apply unsigned_range; lia|exact Hk].
  - rewrite unsigned_signed
      by (try apply swap32_range; try apply unsigned_range; lia).
    apply swap32_bytes; [apply unsigned_range; lia|exact Hk].
  - exact (swap32_bytes H Hk).
  - rewrite unsigned_signed
      by (try apply swap64_range; try apply unsigned_range; lia).
    apply swap64_bytes; [apply unsigned_range; lia|exact Hk].
  - exact (swap64_bytes H Hk).
Qed.

Lemma swap_in_place_twice_witness :
  in_range T_int32 (-2) /\
  swap_in_place T_int32 (swap_in_place T_int32 (-2)) = -2.
Proof.
  assert (H : in_range T_int32 (-2)) by (unfold in_range; simpl; lia).
  split; [exact H|]. exact (@swap_in_place_twice T_int32 (-2) H).
Defined.

Example swap_values :
  swap_in_place T_uint16 0x1234 = 0x3412 /\
  swap_in_place T_uint32 0x12345678 = 0x78563412 /\
  swap_in_place T_uint64 0x0102030405060708 = 0x0807060504030201 /\
  swap_in_place T_int32 (-2) = -16777217 /\
  swap_in_place T_int16 1 = 256.
Proof. repeat split; reflexivity. Qed.

Lemma swap_in_place_reverses_bytes_witness :
  in_range T_uint32 0x12345678 /\ 0 <= 0 < sizeof T_uint32 /\
  byte_at 0 (bits T_uint32 (swap_in_place T_uint32 0x12345678))
  = byte_at (sizeof T_uint32 - 1 - 0) (bits T_uint32 0x12345678).
Proof.
  assert (H : in_range T_uint32 0x12345678) by (unfold in_range; simpl; lia).
  assert (Hk : 0 <= 0 < sizeof T_uint32) by (simpl; lia).
  split; [exact H|]. split; [exact Hk|].
  exact (@swap_in_place_reverses_bytes T_uint32 0x12345678 0 H Hk).
Defined.

End Swappers.

(* ------------------------------------------------------------------------- *)
(** ** cph5utilities.h: the regions [CPH5IOFacility] selects *)

Module Selection.

Import IOFacility.

(** The start offsets of a dataset of rank at most 16: the indices, then
    zeros. *)
Lemma selected_offsets_cleared junk f N :
  (length (mIndices f) <= N <= 16)%nat ->
  selected_offsets junk f N
  = map to_hsize (mIndices f) ++ repeat 0 (N - length (mIndices f)).
Proof.
  intros H. unfold selected_offsets, offsets_after_memset.
  set (k := length (mIndices f)) in *.
  rewrite firstn_app, length_map. fold k.
  rewrite firstn_all2 by (rewrite length_map; fold k; lia).
  f_equal.
  rewrite skipn_app, repeat_length.
  replace (k - 16)%nat with O by lia. rewrite skipn_O.
  rewrite firstn_app, length_skipn, repeat_length.
  replace (N - k - (16 - k))%nat with O by lia.
  rewrite firstn_O, app_nil_r.
  assert (G : forall a b c, (a + b <= c)%nat ->
              firstn b (skipn a (repeat 0 c)) = repeat 0 b).
  { intros a b c Hc.
    replace c with (a + (b + (c - a - b)))%nat by lia.
    rewrite !repeat_app, skipn_app, repeat_length, Nat.sub_diag.
    rewrite skipn_all2 by (rewrite repeat_length; lia).
    rewrite skipn_O. cbn [app].
    rewrite firstn_app, repeat_length, Nat.sub_diag, firstn_O, app_nil_r.
    apply firstn_all2. rewrite repeat_length. lia. }
  apply G. lia.
Qed.

Section Writing.

Context {Buf : Type} {E : StorageEngine Buf}.

(** X3.  On a dataset of rank N, 0 < N <= 16, with k <= N indices given,
    [write] and [read] hand the engine the memory space of extents
    1, .., 1, d_k, .., d_(N-1) and, in the file, the hyperslab of that count
    which starts at the indices followed by zeros; afterwards the indices
    are those given. *)
Theorem write_selects_hyperslab (junk : nat -> Z) (f0 : CPH5IOFacility)
  (st : Storage) (h : handle) (ty : H5Type) (dims idxs : list Z)
  (src : Buf) :
  (0 < length dims <= 16)%nat ->
  Forall (fun d => 0 <= d <= int_max) dims ->
  (length idxs <= length dims)%nat ->
  length (ds_dims st h) = length dims ->
  exists f1 f2,
    write junk src
      (select idxs (init (Some h) ty (Z.of_nat (length dims)) dims f0)) st
    = Some (f1,
            ds_write h src ty
              (SimpleSpace
                 (repeat 1 (length idxs) ++ skipn (length idxs) dims) None)
              (SimpleSpace (ds_dims st h)
                 (Some (repeat 1 (length idxs) ++ skipn (length idxs) dims,
                        map to_hsize idxs
                        ++ repeat 0 (length dims - length idxs))))
              st) /\
    read junk
      (select idxs (init (Some h) ty (Z.of_nat (length dims)) dims f0)) st
    = Some (f2,
            Some (ds_read h ty
              (SimpleSpace
                 (repeat 1 (length idxs) ++ skipn (length idxs) dims) None)
              (SimpleSpace (ds_dims st h)
                 (Some (repeat 1 (length idxs) ++ skipn (length idxs) dims,
                        map to_hsize idxs
                        ++ repeat 0 (length dims - length idxs))))
              st)) /\
    getIndices f1 = idxs /\ getIndices f2 = idxs.
Proof.
  intros HN Hr Hk Hrank.
  rewrite select_appends by (simpl; lia).
  simpl. rewrite Nat2Z.id, firstn_all.
  set (f := {| mpDataSet := Some h; mIndices := idxs |}).
  assert (Hs : setupSpaces junk f st
               = Some (set_spaces
                         (SimpleSpace (selected_extents f (length dims)) None)
                         (SimpleSpace (ds_dims st h)
                            (Some (selected_extents f (length dims),
                                   selected_offsets junk f (length dims))))
                         f)).
  { apply setupSpaces_simple; auto; unfold CPH_5_MAX_DIMS; simpl; try lia.
    intros j Hj. right. rewrite length_map. exact Hj. }
  rewrite (@selected_extents_open f dims) in Hs by (auto; reflexivity).
  rewrite selected_offsets_cleared in Hs by (simpl; lia).
  unfold write, read, write_with, read_with.
  cbn [mpDataSet f]. rewrite Hs. cbn [obind].
  eexists _, _. repeat split; reflexivity.
Qed.

(** The value [setupSpacesOffset] gives to [extents[j]]. *)
Definition extent_offset_value (offset : Z) (f : CPH5IOFacility) (j : nat)
  : Z :=
  if (j <? length (mIndices f))%nat then 1
  else if (j =? length (mIndices f))%nat
       then to_hsize (to_int (nth j (mMaxDims f) 0 - offset))
       else to_hsize (nth j (mMaxDims f) 0).

Lemma extent_offset_at_value offset f j :
  (j < length (mIndices f))%nat \/ (j < length (mMaxDims f))%nat ->
  extent_offset_at offset f j = Some (extent_offset_value offset f j).
Proof.
  unfold extent_offset_at, extent_offset_value. intros H.
  destruct (j <? length (mIndices f))%nat eqn:Hj; [reflexivity|].
  apply Nat.ltb_ge in Hj.
  destruct H as [H|H]; [lia|].
  destruct (nth_error (mMaxDims f) j) as [m|] eqn:Hn.
  - rewrite (nth_error_nth _ _ 0 Hn).
    destruct (j =? length (mIndices f))%nat; reflexivity.
  - apply nth_error_None in Hn. lia.
Qed.

Lemma store_at (a : carray) i v :
  (i < length a)%nat ->
  store i v a = Some (firstn i a ++ v :: skipn (S i) a).
Proof.
  intros H.
  rewrite <- (firstn_skipn i a) at 1.
  destruct (skipn i a) as [|x rest] eqn:Hs.
  - apply (f_equal (@length Z)) in Hs. rewrite length_skipn in Hs.
    simpl in Hs. lia.
  - assert (Hi : length (firstn i a) = i) by (rewrite length_firstn; lia).
    rewrite <- Hi at 1. rewrite store_app. f_equal. f_equal. f_equal.
    replace (S i) with (1 + i)%nat by lia.
    rewrite <- skipn_skipn, Hs. reflexivity.
Qed.

Lemma setupSpacesOffset_simple junk offset f st h N :
  mpDataSet f = Some h ->
  numDims f = Z.of_nat N ->
  (length (mIndices f) < N <= 16)%nat ->
  (N <= length (mMaxDims f))%nat ->
  length (ds_dims st h) = N ->
  setupSpacesOffset junk offset f st
  = Some (set_spaces
            (SimpleSpace (map (extent_offset_value offset f) (seq 0 N)) None)
            (SimpleSpace (ds_dims st h)
               (Some (map (extent_offset_value offset f) (seq 0 N),
                      map to_hsize (mIndices f) ++ to_hsize offset
                      :: repeat 0 (N - S (length (mIndices f))))))
            f).
Proof.
  intros Hds Hn HN Hm Hrank. unfold setupSpacesOffset.
  destruct (numDims f =? -1) eqn:H1; [apply Z.eqb_eq in H1; lia|].
  set (k := length (mIndices f)) in *.
  rewrite fill_offsets_from_start
    by (rewrite length_offsets_after_memset; fold k; lia).
  cbn [obind]. fold k.
  assert (Hsk : skipn k (offsets_after_memset junk)
                = repeat 0 (16 - k) ++ map junk (seq 16 16)).
  { unfold offsets_after_memset.
    rewrite skipn_app, repeat_length.
    replace (k - 16)%nat with O by lia. rewrite skipn_O. f_equal.
    replace 16%nat with (k + (16 - k))%nat at 1 by lia.
    rewrite repeat_app, skipn_app, repeat_length, Nat.sub_diag, skipn_O.
    rewrite skipn_all2 by (rewrite repeat_length; lia). reflexivity. }
  rewrite Hsk.
  replace (16 - k)%nat with (S (15 - k)) by lia. cbn [repeat app].
  assert (Hk : length (map to_hsize (mIndices f)) = k)
    by (rewrite length_map; reflexivity).
  rewrite <- Hk at 1. rewrite store_app. cbn [obind].
  rewrite Hn, Nat2Z.id.
  rewrite (@fill_extents_from_start (extent_offset_at offset f)
             (extent_offset_value offset f))
    by (rewrite ?length_extents_declared; try lia;
        intros j Hj; apply extent_offset_at_value; lia).
  cbn [obind]. unfold select_spaces. rewrite Hds, Hn.
  destruct (Z.of_nat N =? 0) eqn:H0; [apply Z.eqb_eq in H0; lia|].
  destruct (Z.of_nat N <? 0) eqn:Hneg; [apply Z.ltb_lt in Hneg; lia|].
  rewrite Nat2Z.id. unfold getSpace.
  destruct (ds_dims st h) as [|d0 dr] eqn:Hd; [simpl in Hrank; lia|].
  unfold selectHyperslab, DataSpace_simple. cbn [obind]. rewrite Hrank.
  assert (Hfe : firstn N (map (extent_offset_value offset f) (seq 0 N)
                          ++ skipn N (extents_declared junk))
                = map (extent_offset_value offset f) (seq 0 N)).
  { rewrite firstn_app, length_map, length_seq, Nat.sub_diag.
    rewrite firstn_O, app_nil_r.
    apply firstn_all2. rewrite length_map, length_seq. lia. }
  rewrite Hfe.
  assert (Hfo : firstn N (map to_hsize (mIndices f)
                          ++ to_hsize offset
                             :: repeat 0 (15 - k) ++ map junk (seq 16 16))
                = map to_hsize (mIndices f) ++ to_hsize offset
                  :: repeat 0 (N - S k)).
  { rewrite firstn_app, Hk.
    rewrite firstn_all2 by (rewrite Hk; lia). f_equal.
    replace (N - k)%nat with (S (N - S k)) by lia. cbn [firstn]. f_equal.
    rewrite firstn_app, repeat_length.
    replace (N - S k - (15 - k))%nat with O by lia.
    rewrite firstn_O, app_nil_r.
    replace (15 - k)%nat with ((N - S k) + (16 - N))%nat by lia.
    rewrite repeat_app, firstn_app, repeat_length, Nat.sub_diag.
    rewrite firstn_O, app_nil_r. apply firstn_all2.
    rewrite repeat_length. lia. }
  rewrite Hfo. reflexivity.
Qed.

Lemma offset_extents_open offset f dims :
  mMaxDims f = map to_int dims ->
  Forall (fun d => 0 <= d <= int_max) dims ->
  (length (mIndices f) < length dims)%nat ->
  0 <= offset <= nth (length (mIndices f)) dims 0 ->
  map (extent_offset_value offset f) (seq 0 (length dims))
  = repeat 1 (length (mIndices f))
    ++ (nth (length (mIndices f)) dims 0 - offset)
    :: skipn (S (length (mIndices f))) dims.
Proof.
  intros Hm Hr Hk Ho.
  set (k := length (mIndices f)) in *.
  assert (Hin : forall j, (j < length dims)%nat -> 0 <= nth j dims 0 <= int_max).
  { intros j Hj. rewrite Forall_forall in Hr. apply Hr. now apply nth_In. }
  assert (Hnth : forall j, nth j (mMaxDims f) 0 = to_int (nth j dims 0)).
  { intros j. rewrite Hm. change 0 with (to_int 0) at 1. apply map_nth. }
  apply nth_ext with (d := extent_offset_value offset f O) (d' := 0).
  - rewrite length_map, length_seq, length_app, repeat_length. cbn [length].
    rewrite length_skipn. lia.
  - intros j Hj. rewrite length_map, length_seq in Hj.
    rewrite map_nth, seq_nth by assumption. cbn [Nat.add].
    unfold extent_offset_value. fold k.
    destruct (j <? k)%nat eqn:Hlt.
    + apply Nat.ltb_lt in Hlt.
      rewrite app_nth1 by (rewrite repeat_length; lia).
      symmetry. apply nth_repeat_lt. assumption.
    + apply Nat.ltb_ge in Hlt.
      rewrite app_nth2 by (rewrite repeat_length; lia).
      rewrite repeat_length.
      destruct (j =? k)%nat eqn:Heq.
      * apply Nat.eqb_eq in Heq. subst j. rewrite Nat.sub_diag. cbn [nth].
        rewrite Hnth.
        pose proof (Hin k Hk) as Hd. unfold int_max in *.
        rewrite (to_int_id (z := nth k dims 0))
          by (unfold in_int, int_min, int_max; lia).
        rewrite to_int_id by (unfold in_int, int_min, int_max; lia).
        apply to_hsize_id. lia.
      * apply Nat.eqb_neq in Heq.
        replace (j - k)%nat with (S (j - S k)) by lia. cbn [nth].
        rewrite nth_skipn.
        replace (S k + (j - S k))%nat with j by lia.
        rewrite Hnth. apply to_hsize_to_int. apply Hin. assumption.
Qed.

Lemma offset_selection (junk : nat -> Z) (f0 : CPH5IOFacility)
  (st : Storage) (h : handle) (ty : H5Type) (dims idxs : list Z)
  (offset : Z) (src : Buf) :
  (length dims <= 16)%nat ->
  Forall (fun d => 0 <= d <= int_max) dims ->
  (length idxs < length dims)%nat ->
  0 <= offset <= nth (length idxs) dims 0 ->
  length (ds_dims st h) = length dims ->
  exists f1,
    writeWithOffset junk offset src
      (select idxs (init (Some h) ty (Z.of_nat (length dims)) dims f0)) st
    = Some (f1,
            ds_write h src ty
              (SimpleSpace
                 (repeat 1 (length idxs)
                  ++ (nth (length idxs) dims 0 - offset)
                  :: skipn (S (length idxs)) dims) None)
              (SimpleSpace (ds_dims st h)
                 (Some (repeat 1 (length idxs)
                        ++ (nth (length idxs) dims 0 - offset)
                        :: skipn (S (length idxs)) dims,
                        map to_hsize idxs
                        ++ offset
                        :: repeat 0 (length dims - S (length idxs)))))
              st).
Proof.
  intros HN Hr Hk Ho Hrank.
  rewrite select_appends by (simpl; lia).
  simpl. rewrite Nat2Z.id, firstn_all.
  set (f := {| mpDataSet := Some h; mIndices := idxs |}).
  pose proof (@setupSpacesOffset_simple junk offset f st h (length dims)
                eq_refl eq_refl) as Hs.
  rewrite (@offset_extents_open offset f dims) in Hs by (auto; reflexivity).
  unfold writeWithOffset. cbn [mpDataSet f].
  rewrite Hs; cbn [mIndices mMaxDims f]; try lia.
  - cbn [obind]. rewrite (to_hsize_id (z := offset)).
    + eexists. reflexivity.
    + rewrite Forall_forall in Hr.
      assert (0 <= nth (length idxs) dims 0 <= int_max)
        by (apply Hr, nth_In; lia).
      unfold int_max in *. lia.
  - rewrite length_map. lia.
Qed.

(** X4.  With k < N <= 16 indices given, [writeWithOffset] selects in
    dimension k from [offset] to the end: the count is d_k - offset there,
    1 in the dimensions before and the whole dimension in those after; the
    start is the indices, then [offset], then zeros. *)
Theorem write_with_offset_selects (junk : nat -> Z) (f0 : CPH5IOFacility)
  (st : Storage) (h : handle) (ty : H5Type) (dims idxs : list Z)
  (offset : Z) (src : Buf) :
  (length dims <= 16)%nat ->
  Forall (fun d => 0 <= d <= int_max) dims ->
  (length idxs < length dims)%nat ->
  0 <= offset <= nth (length idxs) dims 0 ->
  length (ds_dims st h) = length dims ->
  exists f1,
    writeWithOffset junk offset src
      (select idxs (init (Some h) ty (Z.of_nat (length dims)) dims f0)) st
    = Some (f1,
            ds_write h src ty
              (SimpleSpace
                 (repeat 1 (length idxs)
                  ++ (nth (length idxs) dims 0 - offset)
                  :: skipn (S (length idxs)) dims) None)
              (SimpleSpace (ds_dims st h)
                 (Some (repeat 1 (length idxs)
                        ++ (nth (length idxs) dims 0 - offset)
                        :: skipn (S (length idxs)) dims,
                        map to_hsize idxs
                        ++ offset
                        :: repeat 0 (length dims - S (length idxs)))))
              st).
Proof. apply offset_selection. Qed.

Lemma map_const_seq {A} (g : nat -> A) (c : A) a n :
  (forall j, (a <= j < a + n)%nat -> g j = c) ->
  map g (seq a n) = repeat c n.
Proof.
  revert a. induction n as [|n IH]; intros a H; [reflexivity|].
  cbn [seq map repeat]. rewrite H by lia. f_equal.
  apply IH. intros j Hj. apply H. lia.
Qed.

Lemma setupSpacesOffset_all_fixed junk offset f st h N :
  mpDataSet f = Some h ->
  numDims f = Z.of_nat N ->
  length (mIndices f) = N ->
  (N < CPH_5_MAX_DIMS)%nat ->
  length (ds_dims st h) = N ->
  setupSpacesOffset junk offset f st
  = Some (match N with
          | O => set_spaces ScalarSpace (getSpace st h) f
          | _ => set_spaces
                   (SimpleSpace (repeat 1 N) None)
                   (SimpleSpace (ds_dims st h)
                      (Some (repeat 1 N, map to_hsize (mIndices f))))
                   f
          end).
Proof.
  unfold CPH_5_MAX_DIMS. intros Hds Hn Hk HN Hrank. unfold setupSpacesOffset.
  destruct (numDims f =? -1) eqn:H1; [apply Z.eqb_eq in H1; lia|].
  rewrite fill_offsets_from_start
    by (rewrite length_offsets_after_memset; lia).
  cbn [obind].
  rewrite store_at
    by (rewrite length_app, length_map, length_skipn,
          length_offsets_after_memset; lia).
  cbn [obind]. rewrite Hn, Nat2Z.id.
  assert (Hat : forall j, (j < N)%nat -> extent_offset_at offset f j = Some 1).
  { intros j Hj. unfold extent_offset_at.
    destruct (j <? length (mIndices f))%nat eqn:Hlt; [reflexivity|].
    apply Nat.ltb_ge in Hlt. lia. }
  rewrite (@fill_extents_from_start (extent_offset_at offset f) (fun _ => 1))
    by (rewrite ?length_extents_declared; auto; lia).
  cbn [obind]. unfold select_spaces. rewrite Hds, Hn.
  destruct N as [|n]; [reflexivity|].
  destruct (Z.of_nat (S n) =? 0) eqn:H0; [apply Z.eqb_eq in H0; lia|].
  destruct (Z.of_nat (S n) <? 0) eqn:Hneg; [apply Z.ltb_lt in Hneg; lia|].
  rewrite Nat2Z.id. unfold getSpace.
  destruct (ds_dims st h) as [|d0 dr] eqn:Hd; [simpl in Hrank; lia|].
  unfold selectHyperslab, DataSpace_simple. cbn [obind]. rewrite Hrank.
  rewrite (@map_const_seq _ (fun _ : nat => 1) 1) by reflexivity.
  rewrite firstn_app, repeat_length, Nat.sub_diag, firstn_O, app_nil_r.
  rewrite (@firstn_all2 _ (S n) (repeat 1 (S n)))
    by (rewrite repeat_length; lia).
  assert (Hf : firstn (length (mIndices f))
                 (map to_hsize (mIndices f)
                  ++ skipn (length (mIndices f)) (offsets_after_memset junk))
               = map to_hsize (mIndices f)).
  { rewrite firstn_app, length_map, Nat.sub_diag, firstn_O, app_nil_r.
    apply firstn_all2. rewrite length_map. lia. }
  rewrite Hf, firstn_app, length_map, Hk, Nat.sub_diag, firstn_O, app_nil_r.
  rewrite firstn_all2 by (rewrite length_map; lia).
  reflexivity.
Qed.

(** X5.  When as many indices are given as the dataset has dimensions,
    [writeWithOffset] does what [write] does, whatever the offset: the
    offset is stored past the entries the selection reads. *)
Theorem offset_ignored_when_all_fixed (junk junk' : nat -> Z)
  (f : CPH5IOFacility) (st : Storage) (src : Buf) (offset : Z) (N : nat) :
  numDims f = Z.of_nat N ->
  length (mIndices f) = N ->
  (N < CPH_5_MAX_DIMS)%nat ->
  (forall h, mpDataSet f = Some h -> length (ds_dims st h) = N) ->
  exists r,
    write junk src f st = Some r /\
    writeWithOffset junk' offset src f st = Some r.
Proof.
  intros Hn Hk HN Hrank.
  unfold write, write_with, writeWithOffset.
  destruct (mpDataSet f) as [h|] eqn:Hds.
  - rewrite (@setupSpacesOffset_all_fixed junk' offset f st h N); auto.
    destruct (@setupSpaces_all_fixed _ _ junk f st h N) as (m & fl & Hs & Hmf);
      auto; try lia.
    rewrite Hs. cbn [obind].
    rewrite firstn_all2 in Hmf by lia.
    destruct N as [|n]; injection Hmf as -> ->;
      eexists; split; reflexivity.
  - eexists; split; reflexivity.
Qed.

Lemma selected_offsets_stale junk f N j :
  (length (mIndices f) <= 16)%nat -> (N <= CPH_5_MAX_DIMS)%nat ->
  (16 <= j < N)%nat ->
  nth j (selected_offsets junk f N) 0 = junk j.
Proof.
  unfold CPH_5_MAX_DIMS. intros Hk HN Hj.
  unfold selected_offsets, offsets_after_memset.
  set (k := length (mIndices f)) in *.
  rewrite nth_firstn.
  destruct (j <? N)%nat eqn:Hlt; [|apply Nat.ltb_ge in Hlt; lia].
  rewrite app_nth2 by (rewrite length_map; fold k; lia).
  rewrite length_map. fold k.
  rewrite nth_skipn.
  replace (k + (j - k))%nat with j by lia.
  rewrite app_nth2 by (rewrite repeat_length; lia).
  rewrite repeat_length.
  rewrite (nth_indep _ 0 (junk O)) by (rewrite length_map, length_seq; lia).
  rewrite map_nth, seq_nth by lia. f_equal. lia.
Qed.

(** X6.  On a dataset of more than 16 dimensions [write] hands the engine
    start offsets of which those from the 17th on are what the stack held:
    [memset] clears 4 bytes for each of the [CPH_5_MAX_DIMS] entries of
    8 bytes, that is the first 16 entries. *)
Theorem offsets_beyond_sixteen_are_stale (junk : nat -> Z)
  (f0 : CPH5IOFacility) (st : Storage) (h : handle) (ty : H5Type)
  (dims idxs : list Z) (src : Buf) :
  (16 < length dims <= CPH_5_MAX_DIMS)%nat ->
  (length idxs <= 16)%nat ->
  length (ds_dims st h) = length dims ->
  exists f1 count start,
    write junk src
      (select idxs (init (Some h) ty (Z.of_nat (length dims)) dims f0)) st
    = Some (f1,
            ds_write h src ty (SimpleSpace count None)
              (SimpleSpace (ds_dims st h) (Some (count, start))) st) /\
    forall j, (16 <= j < length dims)%nat -> nth j start 0 = junk j.
Proof.
  unfold CPH_5_MAX_DIMS. intros HN Hk Hrank.
  rewrite select_appends by (simpl; lia).
  simpl. rewrite Nat2Z.id, firstn_all.
  set (f := {| mpDataSet := Some h; mIndices := idxs |}).
  assert (Hs : setupSpaces junk f st
               = Some (set_spaces
                         (SimpleSpace (selected_extents f (length dims)) None)
                         (SimpleSpace (ds_dims st h)
                            (Some (selected_extents f (length dims),
                                   selected_offsets junk f (length dims))))
                         f)).
  { apply setupSpaces_simple; auto; unfold CPH_5_MAX_DIMS; simpl; try lia.
    intros j Hj. right. rewrite length_map. exact Hj. }
  unfold write, write_with. cbn [mpDataSet f]. rewrite Hs. cbn [obind].
  eexists _, _, _. split; [reflexivity|].
  intros j Hj. apply selected_offsets_stale; unfold CPH_5_MAX_DIMS; simpl; lia.
Qed.

End Writing.

(** *** Worked selections on the reference engine *)

Lemma write_selects_hyperslab_witness :
  exists f1 f2,
    write (E := Recorder (list Z)) no_junk [5; 6; 7; 8]
      (select [1] (init (Some O) int32 (Z.of_nat (length [3; 4])) [3; 4]
                        new_facility)) grid3x4
    = Some (f1,
            @ds_write _ (Recorder (list Z)) O [5; 6; 7; 8] int32
              (SimpleSpace (repeat 1 (length [1]) ++ skipn (length [1]) [3; 4])
                 None)
              (SimpleSpace (@ds_dims _ (Recorder (list Z)) grid3x4 O)
                 (Some (repeat 1 (length [1]) ++ skipn (length [1]) [3; 4],
                        map to_hsize [1]
                        ++ repeat 0 (length [3; 4] - length [1]))))
              grid3x4) /\
    read (E := Recorder (list Z)) no_junk
      (select [1] (init (Some O) int32 (Z.of_nat (length [3; 4])) [3; 4]
                        new_facility)) grid3x4
    = Some (f2,
            Some (@ds_read _ (Recorder (list Z)) O int32
              (SimpleSpace (repeat 1 (length [1]) ++ skipn (length [1]) [3; 4])
                 None)
              (SimpleSpace (@ds_dims _ (Recorder (list Z)) grid3x4 O)
                 (Some (repeat 1 (length [1]) ++ skipn (length [1]) [3; 4],
                        map to_hsize [1]
                        ++ repeat 0 (length [3; 4] - length [1]))))
              grid3x4)) /\
    getIndices f1 = [1] /\ getIndices f2 = [1].
Proof.
  apply (@write_selects_hyperslab (list Z) (Recorder (list Z)) no_junk
           new_facility grid3x4 O int32 [3; 4] [1] [5; 6; 7; 8]).
  - simpl. lia.
  - repeat constructor; unfold int_max; lia.
  - simpl. lia.
  - reflexivity.
Defined.

Example second_row_of_grid :
  option_map (fun r => rec_log (snd r))
    (write (E := Recorder (list Z)) no_junk [5; 6; 7; 8]
       (select [1] (init (Some O) int32 2 [3; 4] new_facility)) grid3x4)
  = Some [ReqWrite O [5; 6; 7; 8] int32 (SimpleSpace [1; 4] None)
            (SimpleSpace [3; 4] (Some ([1; 4], [1; 0])))].
Proof. reflexivity. Qed.

Lemma write_with_offset_selects_witness :
  exists f1,
    writeWithOffset (E := Recorder (list Z)) no_junk 2 [9; 9; 9; 9]
      (select [] (init (Some O) int32 (Z.of_nat (length [3; 4])) [3; 4]
                       new_facility)) grid3x4
    = Some (f1,
            @ds_write _ (Recorder (list Z)) O [9; 9; 9; 9] int32
              (SimpleSpace
                 (repeat 1 (length (@nil Z))
                  ++ (nth (length (@nil Z)) [3; 4] 0 - 2)
                  :: skipn (S (length (@nil Z))) [3; 4]) None)
              (SimpleSpace (@ds_dims _ (Recorder (list Z)) grid3x4 O)
                 (Some (repeat 1 (length (@nil Z))
                        ++ (nth (length (@nil Z)) [3; 4] 0 - 2)
                        :: skipn (S (length (@nil Z))) [3; 4],
                        map to_hsize []
                        ++ 2 :: repeat 0 (length [3; 4] - S (length (@nil Z))))))
              grid3x4).
Proof.
  apply (@write_with_offset_selects (list Z) (Recorder (list Z)) no_junk
           new_facility grid3x4 O int32 [3; 4] [] 2 [9; 9; 9; 9]).
  - simpl. lia.
  - repeat constructor; unfold int_max; lia.
  - simpl. lia.
  - simpl. lia.
  - reflexivity.
Defined.

Example last_row_of_grid :
  option_map (fun r => rec_log (snd r))
    (writeWithOffset (E := Recorder (list Z)) no_junk 2 [9; 9; 9; 9]
       (init (Some O) int32 2 [3; 4] new_facility) grid3x4)
  = Some [ReqWrite O [9; 9; 9; 9] int32 (SimpleSpace [1; 4] None)
            (SimpleSpace [3; 4] (Some ([1; 4], [2; 0])))].
Proof. reflexivity. Qed.

Lemma offset_ignored_when_all_fixed_witness :
  exists r,
    write (E := Recorder (list Z)) no_junk [7] row_of_three line3 = Some r /\
    writeWithOffset (E := Recorder (list Z)) no_junk 1 [7] row_of_three line3 = Some r.
Proof.
  apply (@offset_ignored_when_all_fixed (list Z) (Recorder (list Z))
           no_junk no_junk row_of_three line3 [7] 1 1%nat).
  - reflexivity.
  - reflexivity.
  - unfold CPH_5_MAX_DIMS. lia.
  - intros h _. reflexivity.
Defined.

(** What the stack holds is visible from rank 17 on. *)
Definition stale : nat -> Z := fun i => 1000 + Z.of_nat i.

Definition rank17 : list Z := repeat 2 17.

Definition hyper17 : recorded (list Z) := container rank17 [].

Lemma offsets_beyond_sixteen_are_stale_witness :
  exists f1 count start,
    write (E := Recorder (list Z)) stale [0]
      (select [] (init (Some O) int32 (Z.of_nat (length rank17)) rank17
                       new_facility)) hyper17
    = Some (f1,
            @ds_write _ (Recorder (list Z)) O [0] int32 (SimpleSpace count None)
              (SimpleSpace (@ds_dims _ (Recorder (list Z)) hyper17 O) (Some (count, start))) hyper17)
    /\ forall j, (16 <= j < length rank17)%nat -> nth j start 0 = stale j.
Proof.
  apply (@offsets_beyond_sixteen_are_stale (list Z) (Recorder (list Z)) stale
           new_facility hyper17 O int32 rank17 [] [0]).
  - unfold CPH_5_MAX_DIMS. simpl. lia.
  - simpl. lia.
  - reflexivity.
Defined.

Example start_of_rank17 :
  option_map (fun r => rec_log (snd r))
    (write (E := Recorder (list Z)) stale [0]
       (init (Some O) int32 17 rank17 new_facility) hyper17)
  = Some [ReqWrite O [0] int32 (SimpleSpace rank17 None)
            (SimpleSpace rank17 (Some (rank17, repeat 0 16 ++ [1016])))].
Proof. reflexivity. Qed.

End Selection.

(* ------------------------------------------------------------------------- *)
(** ** cph5comptype.h: the children of a [CPH5CompType] *)

Module CompTree.

Import CompType.

(** [numChildren] returns the size of the vector as an [int]. *)
Definition numChildren (c : CPH5CompType) : Z := to_int (Z.of_nat (length c)).

(** The children [for (int i = 0; i < numChildren(); ++i)] visits. *)
Definition visited (c : CPH5CompType) : list member :=
  firstn (Z.to_nat (numChildren c)) c.

(** [getChildAt]: in [ind < mChildren.size()] the index is converted to
    [size_t]. *)
Definition getChildAt (ind : Z) (c : CPH5CompType) : option member :=
  if (0 <=? ind) && (to_hsize ind <? Z.of_nat (length c))
  then nth_error c (Z.to_nat ind)
  else None.

(** [getChildrenNames] and [getMemberByName]: the loop runs over nothing
    when the vector is empty, as the test before it requires. *)
Definition getChildrenNames (c : CPH5CompType) : list string :=
  map getName (visited c).

Definition getMemberByName (name : string) (c : CPH5CompType)
  : option member :=
  find (fun m => String.eqb (getName m) name) (visited c).

Lemma visited_all c : Z.of_nat (length c) <= int_max -> visited c = c.
Proof.
  intros H. unfold visited, numChildren.
  rewrite to_int_id by (unfold in_int, int_min, int_max in *; lia).
  rewrite Nat2Z.id. apply firstn_all.
Qed.

Lemma find_first {A} (p : A -> bool) (l : list A) :
  match find p l with
  | Some x =>
      exists pre post,
        l = pre ++ x :: post /\ p x = true /\ forallb (fun y => negb (p y)) pre = true
  | None => forallb (fun y => negb (p y)) l = true
  end.
Proof.
  induction l as [|a l IH]; simpl; [reflexivity|].
  destruct (p a) eqn:Hp.
  - exists [], l. auto.
  - destruct (find p l) as [x|].
    + destruct IH as (pre & post & -> & Hx & Hpre).
      exists (a :: pre), post. simpl. rewrite Hp. auto.
    + simpl. exact IH.
Qed.

Lemma no_child_named name (l : list member) :
  forallb (fun y => negb (String.eqb (getName y) name)) l = true <->
  ~ In name (map getName l).
Proof.
  induction l as [|a l IH]; simpl.
  - split; auto.
  - rewrite andb_true_iff, IH, negb_true_iff, String.eqb_neq. tauto.
Qed.

(** X7.  [getMemberByName] returns the first registered child of the name,
    and null exactly when no child has the name. *)
Theorem member_by_name_is_first (name : string) (c : CPH5CompType) :
  Z.of_nat (length c) <= int_max ->
  match getMemberByName name c with
  | Some m =>
      exists pre post,
        c = pre ++ m :: post /\ getName m = name /\
        ~ In name (map getName pre)
  | None => ~ In name (getChildrenNames c)
  end.
Proof.
  intros H. unfold getMemberByName, getChildrenNames.
  rewrite visited_all by exact H.
  pose proof (find_first (fun m => String.eqb (getName m) name) c) as F.
  destruct (find _ c) as [m|].
  - destruct F as (pre & post & Hc & Hm & Hpre).
    exists pre, post. apply String.eqb_eq in Hm.
    apply no_child_named in Hpre. auto.
  - apply no_child_named. exact F.
Qed.

(** X8.  After [registerMember] a name is found as before when an older
    child has it, and the new member is found under its name otherwise: a
    member registered under a name in use is never found by name. *)
Theorem registered_member_by_name (name : string) (m : member)
  (c : CPH5CompType) :
  Z.of_nat (length c) < int_max ->
  getMemberByName name (registerMember m c)
  = match getMemberByName name c with
    | Some older => Some older
    | None => if String.eqb (getName m) name then Some m else None
    end.
Proof.
  intros H. unfold getMemberByName, registerMember.
  rewrite !visited_all by (rewrite ?length_app; simpl; lia).
  induction c as [|a c IH]; simpl.
  - destruct (String.eqb (getName m) name); reflexivity.
  - destruct (String.eqb (getName a) name); [reflexivity|].
    apply IH. simpl in H. lia.
Qed.

(** X9.  [getChildAt] returns null exactly for an index that is negative
    or not below [numChildren()], and otherwise the child whose name
    [getChildrenNames()] has at that index. *)
Theorem child_at_bounds (ind : Z) (c : CPH5CompType) :
  Z.of_nat (length c) <= int_max ->
  (getChildAt ind c = None <-> ind < 0 \/ numChildren c <= ind) /\
  option_map getName (getChildAt ind c)
  = (if 0 <=? ind then nth_error (getChildrenNames c) (Z.to_nat ind)
     else None).
Proof.
  intros H. unfold getChildAt, getChildrenNames, numChildren.
  rewrite visited_all by exact H.
  rewrite to_int_id by (unfold in_int, int_min, int_max in *; lia).
  destruct (Z.leb_spec 0 ind) as [H0|H0]; cbn [andb].
  - destruct (Z.lt_ge_cases ind (Z.of_nat (length c))) as [Hlt|Hge].
    + rewrite to_hsize_id by (unfold int_max in H; lia).
      destruct (Z.ltb_spec ind (Z.of_nat (length c))); [|lia].
      rewrite nth_error_map. split; [|reflexivity].
      split; [|lia].
      intros Hn. apply nth_error_None in Hn. lia.
    + assert (Hn : nth_error c (Z.to_nat ind) = None)
        by (apply nth_error_None; lia).
      rewrite nth_error_map, Hn.
      destruct (to_hsize ind <? Z.of_nat (length c)); cbn [option_map];
        (split; [split; [lia|reflexivity]|reflexivity]).
  - split; [split; [lia|reflexivity]|reflexivity].
Qed.

(** *** On the sample record *)

Example sample_children :
  getChildrenNames sample = ["id"; "pos"; "tag"; "pts"]%string /\
  option_map getName (getChildAt 3 sample) = Some "pts"%string /\
  getChildAt 4 sample = None /\
  getChildAt (-1) sample = None.
Proof. repeat split. Qed.

Lemma member_by_name_is_first_witness :
  match getMemberByName "pos" sample with
  | Some m =>
      exists pre post,
        sample = pre ++ m :: post /\ getName m = "pos"%string /\
        ~ In "pos"%string (map getName pre)
  | None => ~ In "pos"%string (getChildrenNames sample)
  end.
Proof.
  apply (@member_by_name_is_first "pos" sample).
  simpl. unfold int_max. lia.
Defined.

Lemma registered_member_by_name_witness :
  getMemberByName "id" (registerMember (CompMember "id" uint8 1 [Byte.x00]) sample)
  = match getMemberByName "id" sample with
    | Some older => Some older
    | None =>
        if String.eqb (getName (CompMember "id" uint8 1 [Byte.x00])) "id"
        then Some (CompMember "id" uint8 1 [Byte.x00]) else None
    end.
Proof.
  apply (@registered_member_by_name "id"
           (CompMember "id" uint8 1 [Byte.x00]) sample).
  simpl. unfold int_max. lia.
Defined.

Lemma child_at_bounds_witness :
  (getChildAt 4 sample = None <-> 4 < 0 \/ numChildren sample <= 4) /\
  option_map getName (getChildAt 4 sample)
  = (if 0 <=? 4 then nth_error (getChildrenNames sample) (Z.to_nat 4)
     else None).
Proof.
  apply (@child_at_bounds 4 sample).
  simpl. unfold int_max. lia.
Defined.

End CompTree.

(* ------------------------------------------------------------------------- *)
(** ** cph5comptype.h: nestCompTypeIR *)

Module Nesting.

(** [nestCompTypeIR], called on the record a member belongs to.  [path]
    names the record members the call climbs through, innermost first: each
    one wraps the type in a compound of the same size with itself as the
    only member, at offset 0; the record at the top, which is no member,
    returns what it is given. *)
Fixpoint nestCompTypeIR_through (path : list string) (leaf : H5Type)
  : H5Type :=
  match path with
  | [] => leaf
  | mName :: up =>
      nestCompTypeIR_through up
        (insertMember mName 0 leaf (CompType_new (h5_getSize leaf)))
  end.

(** The compound [get] and [operator=] of a member build before they nest
    it. *)
Definition member_compound (mName : string) (mType : H5Type) (sizeofT : Z)
  : H5Type :=
  insertMember mName 0 mType (CompType_new sizeofT).

(** Peels [n] compounds that hold one member at offset 0 and have the size
    of that member; gives the names met, outermost first, and what is left. *)
Fixpoint unnest (n : nat) (t : H5Type) : option (list string * H5Type) :=
  match n with
  | O => Some ([], t)
  | S n' =>
      match t with
      | H5Compound size [(name, 0, inner)] =>
          if size =? h5_getSize inner then
            r <- unnest n' inner ;; Some (name :: fst r, snd r)
          else None
      | _ => None
      end
  end.

Lemma unnest_app n : forall t m names inner,
  unnest n t = Some (names, inner) ->
  forall names' leaf,
    unnest m inner = Some (names', leaf) ->
    unnest (n + m) t = Some (names ++ names', leaf).
Proof.
  induction n as [|n IH]; intros t m names inner H names' leaf H'.
  - injection H as <- <-. exact H'.
  - cbn [unnest Nat.add] in *.
    destruct t as [| | |size members| |]; try discriminate.
    destruct members as [|[[name off] ty] rest]; try discriminate.
    destruct off; try (destruct rest; discriminate).
    destruct rest; try discriminate.
    destruct (size =? h5_getSize ty); [|discriminate].
    destruct (unnest n ty) as [[ns i]|] eqn:Hu; [|discriminate].
    cbn [obind fst snd] in H. injection H as <- <-.
    rewrite (IH _ _ _ _ Hu _ _ H'). reflexivity.
Qed.

(** X10.  The type [nestCompTypeIR] builds through the record members
    [path] has the size of the leaf, and is a chain of compounds with one
    member each, at offset 0: the names from the outermost record member
    inwards, then the leaf. *)
Theorem nested_type_is_a_path (path : list string) (leaf : H5Type) :
  h5_getSize (nestCompTypeIR_through path leaf) = h5_getSize leaf /\
  unnest (length path) (nestCompTypeIR_through path leaf)
  = Some (rev path, leaf).
Proof.
  revert leaf. induction path as [|p path IH]; intros leaf.
  - split; reflexivity.
  - cbn [nestCompTypeIR_through length rev].
    destruct (IH (insertMember p 0 leaf (CompType_new (h5_getSize leaf))))
      as [Hs Hu].
    split.
    + rewrite Hs. reflexivity.
    + replace (S (length path)) with (length path + 1)%nat by lia.
      apply (@unnest_app _ _ 1%nat _ _ Hu).
      cbn. rewrite Z.eqb_refl. reflexivity.
Qed.

Example nested_member_type :
  nestCompTypeIR_through ["pos"; "body"]%string
    (member_compound "x" uint8 1)
  = H5Compound 1
      [("body", 0,
        H5Compound 1 [("pos", 0, H5Compound 1 [("x", 0, uint8)])])]%string.
Proof. reflexivity. Qed.

End Nesting.

(* ------------------------------------------------------------------------- *)
(** ** cph5comptype.h: the bytes of a record *)

Module Footprint.

Import CompType.

(** The bytes a member takes from, or puts into, a buffer. *)
Fixpoint bytes_taken (m : member) : nat :=
  match m with
  | CompMember _ _ sz _ => sz
  | CompMemberRec _ _ cs => list_sum (map bytes_taken cs)
  | CompMemberArray _ _ sz n _ _ => sz * n
  | CompMemberRecArray _ _ n pmT _ =>
      list_sum (map_first (fun e => list_sum (map bytes_taken e)) n pmT)
  end.

(** The base type of an array of records has the size of one element, as
    it has when the constructor takes it from [T().getCompType()]. *)
Fixpoint base_sized (m : member) : bool :=
  match m with
  | CompMember _ _ _ _ => true
  | CompMemberRec _ _ cs => forallb base_sized cs
  | CompMemberArray _ _ _ _ _ _ => true
  | CompMemberRecArray _ b _ pmT _ =>
      forallb (fun e => h5_getSize b =? Z.of_nat (list_sum (map bytes_taken e)))
              pmT
  end.

Lemma skipn_add {A} (a b : nat) (l : list A) :
  skipn b (skipn a l) = skipn (a + b) l.
Proof. rewrite skipn_skipn. f_equal. lia. Qed.

(** *** The cursor moves by the bytes taken *)

Definition moves (m : member) : Prop :=
  forall ptr, snd (latchAndMove m ptr) = skipn (bytes_taken m) ptr.

Lemma children_move cs :
  Forall moves cs ->
  forall ptr,
    snd (latch_children latchAndMove cs ptr)
    = skipn (list_sum (map bytes_taken cs)) ptr.
Proof.
  induction 1 as [|c cs Hc _ IH]; intros ptr; [reflexivity|].
  cbn [latch_children map list_sum].
  specialize (Hc ptr). destruct (latchAndMove c ptr) as [c' p1].
  cbn [snd] in Hc. subst p1.
  specialize (IH (skipn (bytes_taken c) ptr)).
  destruct (latch_children latchAndMove cs _) as [cs' p2].
  cbn [snd] in *. subst p2. apply skipn_add.
Qed.

Lemma elements_move els :
  Forall (Forall moves) els ->
  forall k ptr,
    snd (latch_elements latchAndMove k els ptr)
    = skipn (list_sum (map_first (fun e => list_sum (map bytes_taken e)) k els))
            ptr.
Proof.
  induction 1 as [|e els He _ IH]; intros k ptr.
  - destruct k; reflexivity.
  - destruct k as [|k]; [reflexivity|].
    cbn [latch_elements map_first list_sum].
    pose proof (children_move He ptr) as Hc.
    destruct (latch_children latchAndMove e ptr) as [e' p1].
    cbn [snd] in Hc. subst p1.
    specialize (IH k (skipn (list_sum (map bytes_taken e)) ptr)).
    destruct (latch_elements latchAndMove k els _) as [els' p2].
    cbn [snd] in *. subst p2. apply skipn_add.
Qed.

Lemma latch_moves m : moves m.
Proof.
  induction m as [nm ty sz mT|nm ty cs IH|nm b sz n pMT rd|nm b n pmT rd IH]
    using member_nested_ind; intros ptr.
  - reflexivity.
  - cbn [latchAndMove bytes_taken].
    pose proof (children_move IH ptr) as H.
    destruct (latch_children latchAndMove cs ptr) as [cs' p]. exact H.
  - reflexivity.
  - cbn [latchAndMove bytes_taken].
    pose proof (elements_move IH n ptr) as H.
    destruct (latch_elements latchAndMove n pmT ptr) as [els' p]. exact H.
Qed.

Lemma all_move cs : Forall moves cs.
Proof. apply Forall_forall. intros m _. apply latch_moves. Qed.

(** *** The bytes copied out *)

Definition copies (m : member) : Prop :=
  well_sized m = true -> length (copyAndMove m) = bytes_taken m.

Lemma children_copy cs :
  Forall copies cs -> forallb well_sized cs = true ->
  length (flat_map copyAndMove cs) = list_sum (map bytes_taken cs).
Proof.
  induction 1 as [|c cs Hc _ IH]; intros Hw; [reflexivity|].
  cbn [forallb] in Hw. apply andb_prop in Hw as [Hw1 Hw2].
  cbn [flat_map map list_sum]. rewrite length_app, Hc, IH by assumption.
  reflexivity.
Qed.

Lemma elements_copy els :
  Forall (Forall copies) els ->
  forallb (forallb well_sized) els = true ->
  forall k,
    length (concat (map_first (flat_map copyAndMove) k els))
    = list_sum (map_first (fun e => list_sum (map bytes_taken e)) k els).
Proof.
  induction 1 as [|e els He _ IH]; intros Hw k.
  - destruct k; reflexivity.
  - destruct k as [|k]; [reflexivity|].
    cbn [forallb] in Hw. apply andb_prop in Hw as [Hw1 Hw2].
    cbn [map_first concat list_sum].
    rewrite length_app, (children_copy He Hw1), IH by assumption.
    reflexivity.
Qed.

Lemma member_copies m : copies m.
Proof.
  induction m as [nm ty sz mT|nm ty cs IH|nm b sz n pMT rd|nm b n pmT rd IH]
    using member_nested_ind; intros Hw; cbn [well_sized] in Hw.
  - apply Nat.eqb_eq in Hw. exact Hw.
  - apply (children_copy IH Hw).
  - apply Nat.eqb_eq in Hw. cbn [copyAndMove bytes_taken].
    unfold read_in_memory. destruct rd; exact Hw.
  - apply andb_prop in Hw as [_ Hw]. apply (elements_copy IH Hw).
Qed.

(** *** The size reported *)

Definition sized (m : member) : Prop :=
  well_sized m = true -> base_sized m = true ->
  Z.of_nat (bytes_taken m) <= int_max ->
  getSize m = Z.of_nat (bytes_taken m).

Lemma total_map_getSize cs :
  Forall sized cs ->
  forallb well_sized cs = true -> forallb base_sized cs = true ->
  Z.of_nat (list_sum (map bytes_taken cs)) <= int_max ->
  map getSize cs = map (fun m => Z.of_nat (bytes_taken m)) cs.
Proof.
  induction 1 as [|c cs Hc _ IH]; intros Hw Hb Hmax; [reflexivity|].
  cbn [forallb] in Hw, Hb.
  apply andb_prop in Hw as [Hw1 Hw2]. apply andb_prop in Hb as [Hb1 Hb2].
  change (list_sum (map bytes_taken (c :: cs)))
    with (bytes_taken c + list_sum (map bytes_taken cs))%nat in Hmax.
  cbn [map]. rewrite Hc, IH by (auto; lia). reflexivity.
Qed.

Lemma total_of_nat (l : list nat) :
  total (map Z.of_nat l) = Z.of_nat (list_sum l).
Proof.
  induction l as [|a l IH]; [reflexivity|].
  cbn [map total fold_right]. fold (total (map Z.of_nat l)).
  rewrite IH. change (list_sum (a :: l)) with (a + list_sum l)%nat. lia.
Qed.

Lemma sum_int_of_sizes cs :
  Forall sized cs ->
  forallb well_sized cs = true -> forallb base_sized cs = true ->
  Z.of_nat (list_sum (map bytes_taken cs)) <= int_max ->
  sum_int (map getSize cs) = Z.of_nat (list_sum (map bytes_taken cs)) /\
  sum_size (map getSize cs) = Z.of_nat (list_sum (map bytes_taken cs)).
Proof.
  intros Hs Hw Hb Hmax.
  rewrite (total_map_getSize Hs Hw Hb Hmax).
  assert (Ht : total (map (fun m => Z.of_nat (bytes_taken m)) cs)
               = Z.of_nat (list_sum (map bytes_taken cs))).
  { rewrite <- total_of_nat, map_map. reflexivity. }
  assert (Hpos : Forall (fun s => 0 <= s)
                   (map (fun m => Z.of_nat (bytes_taken m)) cs)).
  { apply Forall_forall. intros s Hin. apply in_map_iff in Hin.
    destruct Hin as (m & <- & _). lia. }
  rewrite sum_int_exact, sum_size_exact by (auto; rewrite Ht; exact Hmax).
  auto.
Qed.

Lemma elements_sum b els :
  forallb (fun e => h5_getSize b =? Z.of_nat (list_sum (map bytes_taken e)))
          els = true ->
  forall k, (k <= length els)%nat ->
    Z.of_nat (list_sum (map_first (fun e => list_sum (map bytes_taken e)) k els))
    = Z.of_nat k * h5_getSize b.
Proof.
  induction els as [|e els IH]; intros Hb k Hk.
  - simpl in Hk. destruct k; [reflexivity|lia].
  - destruct k as [|k]; [reflexivity|].
    cbn [forallb] in Hb. apply andb_prop in Hb as [Hb1 Hb2].
    apply Z.eqb_eq in Hb1.
    cbn [map_first].
    change (list_sum (?a :: ?l)) with (a + list_sum l)%nat.
    rewrite Nat2Z.inj_add, IH by (auto; simpl in Hk; lia).
    rewrite <- Hb1. lia.
Qed.

Lemma member_sized m : sized m.
Proof.
  induction m as [nm ty sz mT|nm ty cs IH|nm b sz n pMT rd|nm b n pmT rd IH]
    using member_nested_ind; intros Hw Hb Hmax;
    cbn [well_sized base_sized bytes_taken getSize] in *.
  - apply to_int_id. unfold in_int, int_min, int_max in *. lia.
  - apply (sum_int_of_sizes IH Hw Hb Hmax).
  - rewrite <- Nat2Z.inj_mul.
    rewrite to_hsize_id by (unfold int_max in *; lia).
    apply to_int_id. unfold in_int, int_min, int_max in *. lia.
  - apply andb_prop in Hw as [Hlen _]. apply Nat.eqb_eq in Hlen.
    rewrite <- (@elements_sum b pmT Hb n) by lia.
    rewrite to_hsize_id by (unfold int_max in *; lia).
    apply to_int_id. unfold in_int, int_min, int_max in *. lia.
Qed.

(** X11.  For a record with the sizes its constructors fix,
    [getTotalMemorySize()], the size of the type [getCompType()] builds,
    the number of bytes [copyAllAndMove] writes and the number of bytes by
    which [latchAllAndMove] advances its cursor are one number. *)
Theorem buffer_exactly_covered (c : CPH5CompType) :
  forallb well_sized c = true ->
  forallb base_sized c = true ->
  Z.of_nat (list_sum (map bytes_taken c)) <= int_max ->
  getTotalMemorySize c = Z.of_nat (length (copyAllAndMove c)) /\
  h5_getSize (getCompType c) = Z.of_nat (length (copyAllAndMove c)) /\
  forall ptr,
    snd (latchAllAndMove c ptr) = skipn (length (copyAllAndMove c)) ptr.
Proof.
  intros Hw Hb Hmax.
  assert (Hs : Forall sized c)
    by (apply Forall_forall; intros m _; apply member_sized).
  assert (Hc : Forall copies c)
    by (apply Forall_forall; intros m _; apply member_copies).
  destruct (sum_int_of_sizes Hs Hw Hb Hmax) as [Hi Hz].
  unfold copyAllAndMove, getTotalMemorySize, latchAllAndMove.
  rewrite (children_copy Hc Hw).
  repeat split.
  - exact Hi.
  - unfold getCompType, insert_members, CompType_new.
    fold (insert_members_from
            (H5Compound (sum_size (map getSize c)) [], 0) c).
    rewrite Hz.
    assert (G : forall acc s e o,
              acc = (H5Compound s e, o) ->
              h5_getSize (fst (insert_members_from acc c)) = s).
    { unfold insert_members_from. clear.
      induction c as [|m c IH]; intros acc s e o ->; [reflexivity|].
      cbn [fold_left]. eapply IH. reflexivity. }
    eapply G. reflexivity.
  - intros ptr. apply children_move. apply all_move.
Qed.

Lemma buffer_exactly_covered_witness :
  forallb well_sized sample = true /\
  getTotalMemorySize sample = Z.of_nat (length (copyAllAndMove sample)) /\
  h5_getSize (getCompType sample) = Z.of_nat (length (copyAllAndMove sample)) /\
  forall ptr,
    snd (latchAllAndMove sample ptr)
    = skipn (length (copyAllAndMove sample)) ptr.
Proof.
  split; [reflexivity|].
  apply (@buffer_exactly_covered sample).
  - reflexivity.
  - reflexivity.
  - vm_compute. discriminate.
Defined.

End Footprint.

(* ------------------------------------------------------------------------- *)
(** ** cph5comptype.h: latching with a byte swap *)

Module Swapping.

Import CompType Swappers Footprint.

(** *** Objects and their bytes *)

Definition byte_value (b : Byte.byte) : Z := Z.of_N (Byte.to_N b).

Definition byte_of (z : Z) : Byte.byte :=
  match Byte.of_N (Z.to_N z) with
  | Some b => b
  | None => Byte.x00
  end.

(** The value of an unsigned object whose bytes are [bs], and the [n] bytes
    of the object that holds [x], when the least significant byte comes
    first. *)
Definition load_le (bs : list Byte.byte) : Z :=
  fold_right (fun b acc => byte_value b + 256 * acc) 0 bs.

Definition store_le (n : nat) (x : Z) : list Byte.byte :=
  map (fun k => byte_of (byte_at (Z.of_nat k) x)) (seq 0 n).

(** The same on the host, which keeps the least or the most significant
    byte first. *)
Section Host.

Variable big_endian : bool.

Definition value_of (bs : list Byte.byte) : Z :=
  if big_endian then load_le (rev bs) else load_le bs.

Definition bytes_of (n : nat) (x : Z) : list Byte.byte :=
  if big_endian then rev (store_le n x) else store_le n x.

(** [swap_in_place(&mT)] for an object of [sizeofT] bytes.  The overload
    is chosen by the type; those for one size do the same to the bytes.
    There is none for other sizes. *)
Definition swap_object (sizeofT : nat) (mT : list Byte.byte)
  : option (list Byte.byte) :=
  match sizeofT with
  | 1%nat => Some mT
  | 2%nat => Some (bytes_of 2 (swap_in_place_uint16 (value_of mT)))
  | 4%nat => Some (bytes_of 4 (swap_in_place_uint32 (value_of mT)))
  | 8%nat => Some (bytes_of 8 (swap_in_place_uint64 (value_of mT)))
  | _ => None
  end.

End Host.

Lemma byte_of_value b : byte_of (byte_value b) = b.
Proof.
  unfold byte_of, byte_value. now rewrite N2Z.id, Byte.of_to_N.
Qed.

Lemma byte_value_range b : 0 <= byte_value b < 256.
Proof.
  unfold byte_value. pose proof (Byte.to_N_bounded b). lia.
Qed.

Lemma load_le_range bs : 0 <= load_le bs < 2 ^ (8 * Z.of_nat (length bs)).
Proof.
  induction bs as [|b bs IH].
  - simpl. lia.
  - cbn [load_le fold_right length]. fold (load_le bs).
    pose proof (byte_value_range b).
    replace (8 * Z.of_nat (S (length bs))) with (8 + 8 * Z.of_nat (length bs))
      by lia.
    rewrite Z.pow_add_r by lia. change (2 ^ 8) with 256. lia.
Qed.

Lemma byte_at_load_le bs : forall k,
  (k < length bs)%nat ->
  byte_at (Z.of_nat k) (load_le bs) = byte_value (nth k bs Byte.x00).
Proof.
  induction bs as [|b bs IH]; intros k Hk; [simpl in Hk; lia|].
  cbn [load_le fold_right]. fold (load_le bs).
  pose proof (byte_value_range b) as Hb.
  unfold byte_at. change 255 with (Z.ones 8).
  rewrite Z.land_ones, Z.shiftr_div_pow2 by lia.
  destruct k as [|k].
  - change (Z.of_nat 0) with 0. rewrite Z.mul_0_r, Z.pow_0_r, Z.div_1_r.
    cbn [nth]. change (2 ^ 8) with 256.
    replace (byte_value b + 256 * load_le bs)
      with (byte_value b + load_le bs * 256) by lia.
    rewrite Z.mod_add by lia.
    apply Z.mod_small. lia.
  - cbn [nth]. rewrite <- IH by (simpl in Hk; lia).
    unfold byte_at. change 255 with (Z.ones 8).
    rewrite Z.land_ones, Z.shiftr_div_pow2 by lia.
    f_equal.
    replace (8 * Z.of_nat (S k)) with (8 + 8 * Z.of_nat k) by lia.
    rewrite Z.pow_add_r by lia. change (2 ^ 8) with 256.
    rewrite <- Z.div_div by lia.
    f_equal.
    replace (byte_value b + 256 * load_le bs)
      with (byte_value b + load_le bs * 256) by lia.
    rewrite Z.div_add by lia.
    rewrite Z.div_small by lia. lia.
Qed.

Lemma store_le_length n x : length (store_le n x) = n.
Proof. unfold store_le. now rewrite length_map, length_seq. Qed.

Lemma nth_map_seq {A} (g : nat -> A) n k d :
  (k < n)%nat -> nth k (map g (seq 0 n)) d = g k.
Proof.
  intros H.
  rewrite (nth_indep _ d (g O)) by (rewrite length_map, length_seq; exact H).
  rewrite (map_nth g), seq_nth by exact H. reflexivity.
Qed.

Section Reversal.

Variable n : nat.
Variable f : Z -> Z.
Hypothesis f_bytes : forall x k,
  0 <= x < 2 ^ (8 * Z.of_nat n) -> 0 <= k < Z.of_nat n ->
  byte_at k (f x) = byte_at (Z.of_nat n - 1 - k) x.

Lemma store_le_mirrored bs :
  length bs = n -> store_le n (f (load_le bs)) = rev bs.
Proof.
  intros Hlen.
  apply nth_ext with (d := Byte.x00) (d' := Byte.x00).
  - now rewrite store_le_length, length_rev.
  - intros k Hk. rewrite store_le_length in Hk.
    unfold store_le. rewrite nth_map_seq by exact Hk.
    rewrite f_bytes by (try (rewrite <- Hlen; apply load_le_range); lia).
    replace (Z.of_nat n - 1 - Z.of_nat k) with (Z.of_nat (n - S k)) by lia.
    rewrite byte_at_load_le by lia.
    rewrite byte_of_value, rev_nth by lia.
    now rewrite Hlen.
Qed.

Lemma store_mirrored big_endian bs :
  length bs = n -> bytes_of big_endian n (f (value_of big_endian bs)) = rev bs.
Proof.
  intros Hlen. unfold bytes_of, value_of. destruct big_endian.
  - rewrite store_le_mirrored by now rewrite length_rev.
    now rewrite rev_involutive.
  - now apply store_le_mirrored.
Qed.

End Reversal.

(** The sizes [swap_in_place] is overloaded for. *)
Definition has_swap (sizeofT : nat) : bool :=
  match sizeofT with
  | 1%nat | 2%nat | 4%nat | 8%nat => true
  | _ => false
  end.

Lemma swap_object_reverses big_endian sz bs :
  has_swap sz = true -> length bs = sz ->
  swap_object big_endian sz bs = Some (rev bs).
Proof.
  intros Hs Hlen.
  do 9 (try (destruct sz as [|sz]; try discriminate Hs)).
  - destruct bs as [|b [|c bs]]; try discriminate Hlen. reflexivity.
  - cbn [swap_object]. f_equal.
    apply (@store_mirrored 2 swap_in_place_uint16); [|exact Hlen].
    intros x k. apply swap16_bytes.
  - cbn [swap_object]. f_equal.
    apply (@store_mirrored 4 swap_in_place_uint32); [|exact Hlen].
    intros x k. apply swap32_bytes.
  - cbn [swap_object]. f_equal.
    apply (@store_mirrored 8 swap_in_place_uint64); [|exact Hlen].
    intros x k. apply swap64_bytes.
Qed.

(** *** latchAndMoveWithSwap *)

(** The loops over the children of a record and over the elements of an
    array of records. *)
Section LatchingWithSwap.

Variable latch : member -> list Byte.byte -> option (member * list Byte.byte).

Fixpoint latch_children_swap (cs : list member) (ptr : list Byte.byte)
  : option (list member * list Byte.byte) :=
  match cs with
  | [] => Some ([], ptr)
  | c :: r =>
      a <- latch c ptr ;;
      b <- latch_children_swap r (snd a) ;;
      Some (fst a :: fst b, snd b)
  end.

Fixpoint latch_elements_swap (k : nat) (els : list (list member))
  (ptr : list Byte.byte) {struct els}
  : option (list (list member) * list Byte.byte) :=
  match els, k with
  | e :: r, S k' =>
      a <- latch_children_swap e ptr ;;
      b <- latch_elements_swap k' r (snd a) ;;
      Some (fst a :: fst b, snd b)
  | _, _ => Some (els, ptr)
  end.

End LatchingWithSwap.

Section OnHost.

Variable big_endian : bool.

(** [for (i = 0; i < mNElements; ++i) swap_in_place(&pMT[i])]. *)
Fixpoint swap_elements (sz n : nat) (pMT : list Byte.byte)
  : option (list Byte.byte) :=
  match n with
  | O => Some pMT
  | S n' =>
      e <- swap_object big_endian sz (firstn sz pMT) ;;
      r <- swap_elements sz n' (skipn sz pMT) ;;
      Some (e ++ r)
  end.

(** [latchAndMoveWithSwap]: a primitive member copies [sizeof(T)] bytes and
    swaps them; a record member passes the cursor on to its children; an
    array of primitives calls [latchAndMove] and swaps each element; an
    array of records passes the cursor on to its elements. *)
Fixpoint latchAndMoveWithSwap (m : member) (ptr : list Byte.byte)
  : option (member * list Byte.byte) :=
  match m with
  | CompMember nm ty sz _ =>
      mT <- swap_object big_endian sz (firstn sz ptr) ;;
      Some (CompMember nm ty sz mT, skipn sz ptr)
  | CompMemberRec nm ty cs =>
      r <- latch_children_swap latchAndMoveWithSwap cs ptr ;;
      Some (CompMemberRec nm ty (fst r), snd r)
  | CompMemberArray nm b sz n _ _ =>
      pMT <- swap_elements sz n (firstn (sz * n) ptr) ;;
      Some (CompMemberArray nm b sz n pMT true, skipn (sz * n) ptr)
  | CompMemberRecArray nm b n pmT _ =>
      r <- latch_elements_swap latchAndMoveWithSwap n pmT ptr ;;
      Some (CompMemberRecArray nm b n (fst r) true, snd r)
  end.

Definition latchAllAndMoveWithSwap (c : CPH5CompType) (ptr : list Byte.byte)
  : option (CPH5CompType * list Byte.byte) :=
  latch_children_swap latchAndMoveWithSwap c ptr.

End OnHost.

(** *** What the members hold afterwards *)

(** The first [n] groups of [sz] bytes, each reversed. *)
Fixpoint reverse_each (sz n : nat) (l : list Byte.byte) : list Byte.byte :=
  match n with
  | O => l
  | S n' => rev (firstn sz l) ++ reverse_each sz n' (skipn sz l)
  end.

Section OverFirst.

Variable A : Type.
Variable g : A -> A.

Fixpoint over_first (k : nat) (l : list A) {struct l} : list A :=
  match l, k with
  | x :: r, S k' => g x :: over_first k' r
  | _, _ => l
  end.

End OverFirst.

(** A member with the bytes of every primitive object in it reversed. *)
Fixpoint reversed (m : member) : member :=
  match m with
  | CompMember nm ty sz mT => CompMember nm ty sz (rev mT)
  | CompMemberRec nm ty cs => CompMemberRec nm ty (map reversed cs)
  | CompMemberArray nm b sz n pMT rd =>
      CompMemberArray nm b sz n (reverse_each sz n pMT) rd
  | CompMemberRecArray nm b n pmT rd =>
      CompMemberRecArray nm b n (over_first (map reversed) n pmT) rd
  end.

(** Every primitive object of the member has a size [swap_in_place] is
    overloaded for. *)
Fixpoint swappable_member (m : member) : bool :=
  match m with
  | CompMember _ _ sz _ => has_swap sz
  | CompMemberRec _ _ cs => forallb swappable_member cs
  | CompMemberArray _ _ sz _ _ _ => has_swap sz
  | CompMemberRecArray _ _ _ pmT _ => forallb (forallb swappable_member) pmT
  end.

Lemma swap_elements_reverses big_endian sz n : forall l,
  has_swap sz = true -> (sz * n <= length l)%nat ->
  swap_elements big_endian sz n l = Some (reverse_each sz n l).
Proof.
  induction n as [|n IH]; intros l Hs Hl; [reflexivity|].
  cbn [swap_elements reverse_each].
  rewrite swap_object_reverses by (try rewrite length_firstn; auto; lia).
  cbn [obind].
  rewrite IH by (try rewrite length_skipn; auto; lia).
  reflexivity.
Qed.

Section Swapped.

Variable big_endian : bool.

Definition swapped_like (m : member) : Prop :=
  swappable_member m = true ->
  forall ptr,
    (bytes_taken m <= length ptr)%nat ->
    latchAndMoveWithSwap big_endian m ptr
    = Some (reversed (fst (latchAndMove m ptr)), snd (latchAndMove m ptr)).

Lemma children_swapped cs :
  Forall swapped_like cs ->
  forallb swappable_member cs = true ->
  forall ptr,
    (list_sum (map bytes_taken cs) <= length ptr)%nat ->
    latch_children_swap (latchAndMoveWithSwap big_endian) cs ptr
    = Some (map reversed (fst (latch_children latchAndMove cs ptr)),
            snd (latch_children latchAndMove cs ptr)).
Proof.
  induction 1 as [|c cs Hc _ IH]; intros Hs ptr Hlen; [reflexivity|].
  cbn [forallb] in Hs. apply andb_prop in Hs as [Hs1 Hs2].
  change (list_sum (map bytes_taken (c :: cs)))
    with (bytes_taken c + list_sum (map bytes_taken cs))%nat in Hlen.
  cbn [latch_children_swap latch_children].
  rewrite (Hc Hs1 ptr) by lia. cbn [obind fst snd].
  pose proof (latch_moves c ptr) as Hm.
  destruct (latchAndMove c ptr) as [c' p1]. cbn [fst snd] in *. subst p1.
  rewrite (IH Hs2) by (rewrite length_skipn; lia).
  cbn [obind fst snd].
  destruct (latch_children latchAndMove cs _) as [cs' p2]. reflexivity.
Qed.

Lemma elements_swapped els :
  Forall (Forall swapped_like) els ->
  forallb (forallb swappable_member) els = true ->
  forall k ptr,
    (list_sum (map_first (fun e => list_sum (map bytes_taken e)) k els)
     <= length ptr)%nat ->
    latch_elements_swap (latchAndMoveWithSwap big_endian) k els ptr
    = Some (over_first (map reversed) k
              (fst (latch_elements latchAndMove k els ptr)),
            snd (latch_elements latchAndMove k els ptr)).
Proof.
  induction 1 as [|e els He _ IH]; intros Hs k ptr Hlen.
  - destruct k; reflexivity.
  - destruct k as [|k]; [reflexivity|].
    cbn [forallb] in Hs. apply andb_prop in Hs as [Hs1 Hs2].
    cbn [map_first] in Hlen.
    change (list_sum (?a :: ?l)) with (a + list_sum l)%nat in Hlen.
    cbn [latch_elements_swap latch_elements].
    rewrite (children_swapped He Hs1) by lia. cbn [obind fst snd].
    pose proof (children_move
                  (proj2 (Forall_forall moves e)
                         (fun m _ => latch_moves m)) ptr) as Hm.
    destruct (latch_children latchAndMove e ptr) as [e' p1].
    cbn [fst snd] in *. subst p1.
    rewrite (IH Hs2) by (rewrite length_skipn; lia).
    cbn [obind fst snd].
    destruct (latch_elements latchAndMove k els _) as [els' p2]. reflexivity.
Qed.

Lemma member_swapped m : swapped_like m.
Proof.
  induction m as [nm ty sz mT|nm ty cs IH|nm b sz n pMT rd|nm b n pmT rd IH]
    using member_nested_ind; intros Hs ptr Hlen;
    cbn [swappable_member bytes_taken] in Hs, Hlen.
  - cbn [latchAndMoveWithSwap latchAndMove fst snd reversed].
    rewrite swap_object_reverses by (try rewrite length_firstn; auto; lia).
    reflexivity.
  - cbn [latchAndMoveWithSwap latchAndMove].
    rewrite (children_swapped IH Hs) by exact Hlen. cbn [obind].
    destruct (latch_children latchAndMove cs ptr) as [cs' p]. reflexivity.
  - cbn [latchAndMoveWithSwap latchAndMove fst snd reversed].
    rewrite swap_elements_reverses by (try rewrite length_firstn; auto; lia).
    reflexivity.
  - cbn [latchAndMoveWithSwap latchAndMove].
    rewrite (elements_swapped IH Hs) by exact Hlen. cbn [obind].
    destruct (latch_elements latchAndMove n pmT ptr) as [els' p]. reflexivity.
Qed.

(** X12.  On a buffer that holds the record, [latchAllAndMoveWithSwap]
    leaves in every primitive member and in every element of an array the
    bytes [latchAllAndMove] leaves, reversed, and advances the cursor as
    [latchAllAndMove] does, whatever the byte order of the host; the
    primitive objects are of size 1, 2, 4 or 8. *)
Theorem latch_with_swap_reverses (c : CPH5CompType) (ptr : list Byte.byte) :
  forallb swappable_member c = true ->
  (list_sum (map bytes_taken c) <= length ptr)%nat ->
  latchAllAndMoveWithSwap big_endian c ptr
  = Some (map reversed (fst (latchAllAndMove c ptr)),
          snd (latchAllAndMove c ptr)).
Proof.
  intros Hs Hlen. unfold latchAllAndMoveWithSwap, latchAllAndMove.
  apply children_swapped; auto.
  apply Forall_forall. intros m _. apply member_swapped.
Qed.

End Swapped.

(** *** A frame of a counter and two samples *)

Definition uint16 : H5Type := H5Integer 2 H5T_SGN_NONE.

Definition frame : CPH5CompType :=
  [ CompMember "count" int32 4 [Byte.x00; Byte.x00; Byte.x00; Byte.x00];
    CompMemberArray "adc" uint16 2 2
      [Byte.x00; Byte.x00; Byte.x00; Byte.x00] false ]%string.

Definition frame_bytes : list Byte.byte :=
  [Byte.x12; Byte.x34; Byte.x56; Byte.x78;
   Byte.xa1; Byte.xa2; Byte.xb1; Byte.xb2].

Example frame_latched_with_swap :
  latchAllAndMoveWithSwap false frame frame_bytes
  = Some ([ CompMember "count" int32 4 [Byte.x78; Byte.x56; Byte.x34; Byte.x12];
            CompMemberArray "adc" uint16 2 2
              [Byte.xa2; Byte.xa1; Byte.xb2; Byte.xb1] true ]%string, [])
  /\ latchAllAndMoveWithSwap true frame frame_bytes
     = latchAllAndMoveWithSwap false frame frame_bytes.
Proof. split; reflexivity. Qed.

Lemma latch_with_swap_reverses_witness :
  forallb swappable_member frame = true /\
  (list_sum (map bytes_taken frame) <= length frame_bytes)%nat /\
  latchAllAndMoveWithSwap true frame frame_bytes
  = Some (map reversed (fst (latchAllAndMove frame frame_bytes)),
          snd (latchAllAndMove frame frame_bytes)).
Proof.
  assert (H1 : forallb swappable_member frame = true) by reflexivity.
  assert (H2 : (list_sum (map bytes_taken frame) <= length frame_bytes)%nat)
    by (simpl; lia).
  split; [exact H1|]. split; [exact H2|].
  exact (@latch_with_swap_reverses true frame frame_bytes H1 H2).
Defined.

End Swapping.

(* ------------------------------------------------------------------------- *)
(** ** cph5comptype.h: CPH5CompMemberArray<char, nElements> *)

From Stdlib Require Import Ascii.

Module CharArray.

Import IOFacility MemberArray.

(** A C string: the characters before the first NUL. *)
Fixpoint until_nul (l : list ascii) : list ascii :=
  match l with
  | [] => []
  | c :: r => if Ascii.eqb c Ascii.zero then [] else c :: until_nul r
  end.

(** [memset(buf, 0, n)] followed by the [memcpy] of [write]: the string when
    it is shorter than [n], else its first [n] characters. *)
Definition padded (str : string) (size : Z) : list ascii :=
  if (Z.of_nat (String.length str) <? to_hsize size)
  then list_ascii_of_string str
       ++ repeat Ascii.zero (Z.to_nat size - String.length str)
  else firstn (Z.to_nat size) (list_ascii_of_string str).

Section WithEngine.

Context {E : StorageEngine (list ascii)}.
Variable junk : nat -> Z.

(** [getSize()]: [sizeof(char) * mNElements], returned as an [int]. *)
Definition getSize (a : CPH5CompMemberArrayCommon ascii) : Z :=
  to_int (to_hsize (1 * to_hsize (mNElements a))).

(** [write(const std::string &)]: [new char[getSize()]] fails on a negative
    size; the padded buffer is copied to [pMT] and sent on as the write of a
    whole buffer sends it. *)
Definition write_string (str : string) (a : CPH5CompMemberArrayCommon ascii)
  (st : Storage)
  : option (CPH5CompMemberArrayCommon ascii * Storage) :=
  if getSize a <? 0 then None
  else write junk (padded str (getSize a)) a st.

(** [operator std::string()]: the array is read into a zeroed buffer of
    [getSize() + 1] characters, of which a C string is made.  The sum is
    one of [int]; [new] fails on a negative size. *)
Definition to_string (a : CPH5CompMemberArrayCommon ascii) (st : Storage)
  : option (CPH5CompMemberArrayCommon ascii * string) :=
  if negb (getSize a + 1 <=? int_max) || (getSize a + 1 <? 0) then None
  else
    r <- read junk a st ;;
    let buf :=
      fill (repeat Ascii.zero (Z.to_nat (getSize a + 1))) (snd r) in
    Some (fst r, string_of_list_ascii (until_nul buf)).

End WithEngine.

Lemma until_nul_at_zero (s r : list ascii) :
  until_nul (s ++ Ascii.zero :: r) = until_nul s.
Proof.
  induction s as [|c s IH]; [reflexivity|].
  cbn [app until_nul]. destruct (Ascii.eqb c Ascii.zero); [reflexivity|].
  now rewrite IH.
Qed.

Lemma length_list_ascii_of_string (s : string) :
  length (list_ascii_of_string s) = String.length s.
Proof. induction s as [|c s IH]; simpl; [reflexivity|now rewrite IH]. Qed.

Lemma padded_length str size :
  0 <= size <= int_max -> length (padded str size) = Z.to_nat size.
Proof.
  intros Hn. unfold padded.
  rewrite to_hsize_id by (unfold int_max in Hn; lia).
  rewrite <- (length_list_ascii_of_string str).
  destruct (Z.ltb_spec (Z.of_nat (length (list_ascii_of_string str))) size).
  - rewrite length_app, repeat_length. lia.
  - rewrite length_firstn. lia.
Qed.

Lemma padded_as_c_string str size :
  0 <= size <= int_max ->
  until_nul (padded str size ++ [Ascii.zero])
  = until_nul (firstn (Z.to_nat size) (list_ascii_of_string str)).
Proof.
  intros Hn. unfold padded.
  rewrite to_hsize_id by (unfold int_max in Hn; lia).
  rewrite <- (length_list_ascii_of_string str).
  destruct (Z.ltb_spec (Z.of_nat (length (list_ascii_of_string str))) size).
  - rewrite firstn_all2 by lia.
    replace (Z.to_nat size - length (list_ascii_of_string str))%nat
      with (S (Z.to_nat size - S (length (list_ascii_of_string str))))
      by lia.
    cbn [repeat]. rewrite <- app_assoc. cbn [app].
    apply until_nul_at_zero.
  - apply until_nul_at_zero.
Qed.

Lemma fill_shorter {T} (src dst rest : list T) :
  length src = length dst -> fill (dst ++ rest) src = src ++ rest.
Proof.
  revert dst. induction src as [|x src IH]; intros [|d dst] H;
    try discriminate H.
  - destruct rest; reflexivity.
  - cbn [app fill]. f_equal. apply IH. simpl in H. lia.
Qed.

Lemma fill_same_length {T} (src dst : list T) :
  length src = length dst -> fill dst src = src.
Proof.
  intros H. pose proof (@fill_shorter T src dst [] H) as G.
  now rewrite !app_nil_r in G.
Qed.

Section Strings.

Context {E : StorageEngine (list ascii)}.
Variable junk : nat -> Z.

(** The array is held in memory only: no facility is reachable from it,
    and it lies in no element of an array of records, which a write would
    tell of the change. *)
Definition in_memory (a : CPH5CompMemberArrayCommon ascii) : Prop :=
  match mpParent a with
  | Some P => getIOFacility P = None /\ mpArrParent a = None
  | None => True
  end.

(** X13.  Assigning a string to an array of chars that is held in memory
    only, with no facility to reach and no array of records to tell, leaves
    the container as it is, and converting the array back gives the string
    cut at the number of elements and at its first NUL; a string that fits
    and holds no NUL is given back as it is. *)
Theorem string_is_cut_to_the_array (str : string)
  (a : CPH5CompMemberArrayCommon ascii) (st : Storage) :
  0 <= mNElements a < int_max ->
  length (pMT a) = Z.to_nat (mNElements a) ->
  in_memory a ->
  exists a',
    write_string junk str a st = Some (a', st) /\
    length (pMT a') = length (pMT a) /\
    to_string junk a' st
    = Some (a',
            string_of_list_ascii
              (until_nul (firstn (Z.to_nat (mNElements a))
                            (list_ascii_of_string str)))) /\
    ((String.length str <= Z.to_nat (mNElements a))%nat ->
     ~ In Ascii.zero (list_ascii_of_string str) ->
     to_string junk a' st = Some (a', str)).
Proof.
  intros Hn Hlen Hmem.
  assert (Hsize : getSize a = mNElements a).
  { unfold getSize. rewrite Z.mul_1_l.
    rewrite (to_hsize_id (z := mNElements a)) by (unfold int_max in Hn; lia).
    rewrite to_hsize_id by (unfold int_max in Hn; lia).
    apply to_int_id. unfold in_int, int_min, int_max in *. lia. }
  assert (Hpl : length (padded str (mNElements a))
                = Z.to_nat (mNElements a))
    by (apply padded_length; lia).
  set (a1 := set_pMT (padded str (mNElements a)) a).
  assert (Hw : write_string junk str a st = Some (a1, st)).
  { unfold write_string, write. rewrite Hsize.
    destruct (Z.ltb_spec (mNElements a) 0); [lia|].
    rewrite fill_same_length by (rewrite Hpl, Hlen; reflexivity).
    fold a1. change (mpParent a1) with (mpParent a).
    change (mpArrParent a1) with (mpArrParent a).
    unfold in_memory in Hmem.
    destruct (mpParent a) as [P|]; [|reflexivity].
    destruct Hmem as [HIO Harr]. rewrite HIO, Harr. reflexivity. }
  assert (Hr : read junk a1 st = Some (a1, pMT a1)).
  { unfold read. change (mpParent a1) with (mpParent a).
    unfold in_memory in Hmem.
    destruct (mpParent a) as [P|]; [|reflexivity].
    destruct Hmem as [HIO _]. rewrite HIO. reflexivity. }
  assert (Hs : to_string junk a1 st
               = Some (a1,
                       string_of_list_ascii
                         (until_nul (firstn (Z.to_nat (mNElements a))
                                       (list_ascii_of_string str))))).
  { unfold to_string.
    change (getSize a1) with (getSize a). rewrite Hsize.
    destruct (Z.leb_spec (mNElements a + 1) int_max); [|lia].
    destruct (Z.ltb_spec (mNElements a + 1) 0); [lia|].
    cbn [negb orb]. rewrite Hr. cbn [obind fst snd].
    cbn [pMT a1 set_pMT].
    rewrite Z2Nat.inj_add by lia. change (Z.to_nat 1) with 1%nat.
    rewrite repeat_app. cbn [repeat].
    rewrite fill_shorter by (rewrite repeat_length; exact Hpl).
    rewrite padded_as_c_string by lia. reflexivity. }
  exists a1. split; [exact Hw|]. split.
  - cbn [pMT a1 set_pMT]. rewrite Hpl, Hlen. reflexivity.
  - split; [exact Hs|].
    intros Hshort Hnul. rewrite Hs. f_equal. f_equal.
    rewrite firstn_all2 by (rewrite length_list_ascii_of_string; exact Hshort).
    assert (G : forall l, ~ In Ascii.zero l -> until_nul l = l).
    { induction l as [|c l IH]; intros Hl; [reflexivity|].
      cbn [until_nul]. destruct (Ascii.eqb_spec c Ascii.zero) as [->|Hc].
      - exfalso. apply Hl. left. reflexivity.
      - rewrite IH; [reflexivity|]. intros Hin. apply Hl. right. exact Hin. }
    rewrite G by exact Hnul. apply string_of_list_ascii_of_string.
Qed.

End Strings.

(** *** A label of four characters *)

(** A label in a record that has no facility. *)
Definition label : CPH5CompMemberArrayCommon ascii :=
  {| mpParent := Some {| getIOFacility := None;
                         nestCompTypeIR := fun t => t |};
     mName := "label"; mBaseType := uint8;
     mNElements := 4;
     pMT := repeat Ascii.zero 4;
     mReadDone := false; mpArrParent := None |}.

Definition nowhere : recorded (list ascii) := container [] [].

Example label_assigned :
  (r <- write_string (E := Recorder (list ascii)) IOFacility.no_junk
          "ab" label nowhere ;;
   option_map snd
     (to_string (E := Recorder (list ascii)) IOFacility.no_junk
        (fst r) nowhere)) = Some "ab"%string /\
  (r <- write_string (E := Recorder (list ascii)) IOFacility.no_junk
          "abcdef" label nowhere ;;
   option_map snd
     (to_string (E := Recorder (list ascii)) IOFacility.no_junk
        (fst r) nowhere)) = Some "abcd"%string.
Proof. split; reflexivity. Qed.

(** The same label in an element of an array of records: the array is told
    of the change, and the container is what the array leaves. *)
Definition enclosing : ArrParent ascii (E := Recorder (list ascii)) :=
  {| signalChange := fun held rd st =>
       Some (held, rd,
             @ds_write _ (Recorder (list ascii)) O held uint8
               ScalarSpace ScalarSpace st) |}.

Definition label_in_array : CPH5CompMemberArrayCommon ascii :=
  {| mpParent := mpParent label; mName := mName label;
     mBaseType := mBaseType label; mNElements := mNElements label;
     pMT := pMT label; mReadDone := mReadDone label;
     mpArrParent := Some enclosing |}.

Example label_in_array_is_written :
  option_map (fun r => length (rec_log (snd r)))
    (write_string (E := Recorder (list ascii)) IOFacility.no_junk
       "ab" label_in_array nowhere)
  = Some 1%nat.
Proof. reflexivity. Qed.

Lemma string_is_cut_to_the_array_witness :
  exists a',
    write_string (E := Recorder (list ascii)) IOFacility.no_junk
      "abcdef" label nowhere = Some (a', nowhere) /\
    length (pMT a') = length (pMT label) /\
    to_string (E := Recorder (list ascii)) IOFacility.no_junk a' nowhere
    = Some (a',
            string_of_list_ascii
              (until_nul (firstn (Z.to_nat (mNElements label))
                            (list_ascii_of_string "abcdef")))) /\
    ((String.length "abcdef" <= Z.to_nat (mNElements label))%nat ->
     ~ In Ascii.zero (list_ascii_of_string "abcdef") ->
     to_string (E := Recorder (list ascii)) IOFacility.no_junk a' nowhere
     = Some (a', "abcdef"%string)).
Proof.
  apply (@string_is_cut_to_the_array (Recorder (list ascii))
           IOFacility.no_junk "abcdef" label nowhere).
  - simpl. unfold int_max. lia.
  - reflexivity.
  - split; reflexivity.
Defined.

End CharArray.

(* ------------------------------------------------------------------------- *)
(** ** cph5dataset.h: rows, sizes and growth *)

Module Rows.

Import Dataset.

(** [H5S_UNLIMITED], the maximum of a dimension that can grow without
    bound: [(hsize_t)(-1)]. *)
Definition H5S_UNLIMITED : Z := 2 ^ 64 - 1.

(** [operator[]] on an object below the highest order: the index is added
    to the facility of the tree. *)
Definition index_below (ind : Z) (ds : CPH5Dataset) : CPH5Dataset :=
  set_facility (IOFacility.addIndex ind (mpIOFacility ds)) ds.

(** [ds[i1][i2]...]: the first index is taken by the object of the highest
    order, the others by the objects below it. *)
Definition indexed (idxs : list Z) (ds : CPH5Dataset) : CPH5Dataset :=
  match idxs with
  | [] => ds
  | i :: r => fold_left (fun d j => index_below j d) r (index i ds)
  end.

Section WithEngine.

Context {Buf : Type} {E : StorageEngine Buf}.
Variable junk : nat -> Z.

(** [writeRawStartingAt], on the object [depth] orders down: the object of
    the highest order initialises the facility first. *)
Definition writeRawStartingAt (depth : nat) (ind : Z) (src : Buf)
  (ds : CPH5Dataset) (st : Storage) : option (CPH5Dataset * Storage) :=
  let f := match depth with
           | O => whole ds
           | S _ => mpIOFacility ds
           end in
  r <- IOFacility.writeWithOffset junk ind src f st ;;
  Some (set_facility (fst r) ds, snd r).

End WithEngine.

Lemma init_firstn h ty N dims f0 :
  IOFacility.init h ty (Z.of_nat N) dims f0
  = IOFacility.init h ty (Z.of_nat N) (firstn N dims) f0.
Proof.
  unfold IOFacility.init. rewrite Nat2Z.id, firstn_firstn, Nat.min_id.
  reflexivity.
Qed.

Lemma facility_of_indexed idxs ds :
  match idxs with
  | [] => whole ds
  | _ :: _ => mpIOFacility (indexed idxs ds)
  end = IOFacility.select idxs (whole ds).
Proof.
  destruct idxs as [|i r]; [reflexivity|].
  unfold indexed, IOFacility.select. cbn [fold_left].
  change (IOFacility.addIndex i (whole ds)) with (mpIOFacility (index i ds)).
  generalize (index i ds). clear.
  induction r as [|j r IH]; intros d; [reflexivity|].
  cbn [fold_left]. rewrite IH. reflexivity.
Qed.

Lemma indexed_keeps idxs ds :
  mDims (indexed idxs ds) = mDims ds /\
  mType (indexed idxs ds) = mType ds /\
  mpDataSet (indexed idxs ds) = mpDataSet ds /\
  nDims (indexed idxs ds) = nDims ds.
Proof.
  destruct idxs as [|i r]; [auto|].
  unfold indexed.
  assert (G : forall d,
            mDims (fold_left (fun d j => index_below j d) r d) = mDims d /\
            mType (fold_left (fun d j => index_below j d) r d) = mType d /\
            mpDataSet (fold_left (fun d j => index_below j d) r d)
              = mpDataSet d /\
            nDims (fold_left (fun d j => index_below j d) r d) = nDims d).
  { induction r as [|j r IH]; intros d; [auto|].
    cbn [fold_left]. destruct (IH (index_below j d)) as (A & B & C & D).
    rewrite A, B, C, D. auto. }
  destruct (G (index i ds)) as (A & B & C & D).
  rewrite A, B, C, D. auto.
Qed.

Section Writing.

Context {Buf : Type} {E : StorageEngine Buf}.
Variable junk : nat -> Z.

(** X14.  [writeRawStartingAt(ind, src)] on the object reached by k
    indices, k below the rank and the rank at most 16, writes the hyperslab
    that starts at the indices, then [ind], then zeros, of count d_k - ind in
    dimension k, 1 before it and the whole dimension after it; the sizes of
    the dataset stay as they are. *)
Theorem rows_written_from_offset (ds : CPH5Dataset) (st : Storage)
  (h : handle) (idxs : list Z) (ind : Z) (src : Buf) :
  mpDataSet ds = Some h ->
  (nDims ds <= 16)%nat ->
  (nDims ds <= length (mDims ds))%nat ->
  Forall (fun d => 0 <= d <= int_max) (firstn (nDims ds) (mDims ds)) ->
  (length idxs < nDims ds)%nat ->
  0 <= ind <= nth (length idxs) (mDims ds) 0 ->
  length (ds_dims st h) = nDims ds ->
  exists ds',
    writeRawStartingAt junk (length idxs) ind src (indexed idxs ds) st
    = Some (ds',
            ds_write h src (mType ds)
              (SimpleSpace
                 (repeat 1 (length idxs)
                  ++ (nth (length idxs) (mDims ds) 0 - ind)
                  :: skipn (S (length idxs)) (firstn (nDims ds) (mDims ds)))
                 None)
              (SimpleSpace (ds_dims st h)
                 (Some (repeat 1 (length idxs)
                        ++ (nth (length idxs) (mDims ds) 0 - ind)
                        :: skipn (S (length idxs))
                             (firstn (nDims ds) (mDims ds)),
                        map to_hsize idxs
                        ++ ind :: repeat 0 (nDims ds - S (length idxs)))))
              st) /\
    mDims ds' = mDims ds.
Proof.
  intros Hds HN Hlen Hr Hk Ho Hrank.
  set (dims := firstn (nDims ds) (mDims ds)) in *.
  assert (Hdl : length dims = nDims ds)
    by (unfold dims; rewrite length_firstn; lia).
  assert (Hnth : nth (length idxs) dims 0 = nth (length idxs) (mDims ds) 0).
  { unfold dims. rewrite nth_firstn.
    destruct (length idxs <? nDims ds)%nat eqn:Hlt; [reflexivity|].
    apply Nat.ltb_ge in Hlt. lia. }
  destruct (@Selection.offset_selection Buf E junk (mpIOFacility ds) st h
              (mType ds) dims idxs ind src) as [f1 Hw];
    try rewrite Hdl; try rewrite Hnth; auto.
  unfold writeRawStartingAt.
  assert (Hf : match length idxs with
               | O => whole (indexed idxs ds)
               | S _ => mpIOFacility (indexed idxs ds)
               end
               = IOFacility.select idxs
                   (IOFacility.init (Some h) (mType ds)
                      (Z.of_nat (length dims)) dims (mpIOFacility ds))).
  { rewrite Hdl. unfold dims. rewrite <- init_firstn, <- Hds.
    fold (whole ds). rewrite <- facility_of_indexed.
    destruct idxs; reflexivity. }
  rewrite Hf, Hw. cbn [obind fst snd].
  rewrite Hdl, Hnth.
  eexists. split; [reflexivity|].
  cbn [mDims set_facility]. apply indexed_keeps.
Qed.

End Writing.


(** *** The sizes a dataset reports *)

Lemma map_seq_nth (l : list Z) (g : Z -> Z) n :
  length l = n ->
  map (fun i => g (nth i l 0)) (seq 0 n) = map g l.
Proof.
  intros H. apply nth_ext with (d := g 0) (d' := g 0).
  - rewrite !length_map, length_seq. auto.
  - intros k Hk. rewrite length_map, length_seq in Hk.
    rewrite Swapping.nth_map_seq by exact Hk. now rewrite map_nth.
Qed.

(** X15.  After [setDimensions], [getDims()] and [getMaxDims()] give the
    sizes converted to [int]: a dimension of maximum [H5S_UNLIMITED] is
    reported as -1.  Before the dimensions are set both give zeros. *)
Theorem sizes_reported_as_int (dims maxDims : list Z) (ds : CPH5Dataset) :
  length dims = nDims ds ->
  length maxDims = nDims ds ->
  getDims (setDimensions dims maxDims ds) = map to_int dims /\
  getMaxDims (setDimensions dims maxDims ds) = map to_int maxDims /\
  (forall i, nth_error maxDims i = Some H5S_UNLIMITED ->
     nth_error (getMaxDims (setDimensions dims maxDims ds)) i = Some (-1)) /\
  (mDimsSet ds = false ->
   getDims ds = repeat 0 (nDims ds) /\ getMaxDims ds = repeat 0 (nDims ds)).
Proof.
  intros Hd Hm.
  assert (Hgd : getDims (setDimensions dims maxDims ds) = map to_int dims).
  { unfold getDims, setDimensions. cbn [getDimSizeIR nDims mDimsSet mDims].
    rewrite <- (@map_seq_nth dims to_int (nDims ds) Hd).
    apply map_ext_in. intros i Hi. apply in_seq in Hi. f_equal.
    rewrite app_nth1 by (rewrite length_firstn; lia).
    rewrite firstn_all2 by lia. reflexivity. }
  assert (Hgm : getMaxDims (setDimensions dims maxDims ds)
                = map to_int maxDims).
  { unfold getMaxDims, setDimensions.
    cbn [getMaxDimSizeIR nDims mDimsSet mMaxDims].
    rewrite <- (@map_seq_nth maxDims to_int (nDims ds) Hm).
    apply map_ext_in. intros i Hi. apply in_seq in Hi. f_equal.
    rewrite app_nth1 by (rewrite length_firstn; lia).
    rewrite firstn_all2 by lia. reflexivity. }
  split; [exact Hgd|]. split; [exact Hgm|]. split.
  - intros i Hi. rewrite Hgm, nth_error_map, Hi. reflexivity.
  - intros Hset. unfold getDims, getMaxDims.
    cbn [getDimSizeIR getMaxDimSizeIR]. rewrite Hset.
    split; apply Selection.map_const_seq; reflexivity.
Qed.

(** *** Extending below the highest order *)

(** The sizes with the one [depth] orders down grown by [numTimes]. *)
Definition grown_at (depth : nat) (numTimes : Z) (ds : CPH5Dataset)
  : list Z :=
  firstn depth (mDims ds)
  ++ to_hsize (nth depth (mDims ds) 0 + numTimes)
  :: skipn (S depth) (mDims ds).

Section Growing.

Context {Buf : Type} {E : StorageEngine Buf}.

Lemma extendIR_climbs depth : forall dimsBelow numTimes ds (st : Storage),
  extendIR depth dimsBelow numTimes ds st
  = extendIR 0 (dimsBelow + depth) numTimes ds st.
Proof.
  induction depth as [|d IH]; intros k n ds st.
  - rewrite Nat.add_0_r. reflexivity.
  - cbn [extendIR]. rewrite IH.
    replace (S k + d)%nat with (k + S d)%nat by lia. reflexivity.
Qed.

Lemma getDimSize_below depth ds :
  getDimSize depth ds
  = if mDimsSet ds then to_int (nth depth (mDims ds) 0) else 0.
Proof.
  unfold getDimSize.
  assert (G : forall k, getDimSizeIR depth k ds
                        = if mDimsSet ds
                          then to_int (nth (k + depth) (mDims ds) 0) else 0).
  { induction depth as [|d IH]; intros k.
    - rewrite Nat.add_0_r. reflexivity.
    - cbn [getDimSizeIR]. rewrite IH.
      replace (S k + d)%nat with (k + S d)%nat by lia. reflexivity. }
  apply G.
Qed.

Lemma extend_at (depth : nat) (numTimes : Z)
  (ds : CPH5Dataset) (st : Storage) (h : handle) :
  mDimsSet ds = true ->
  mpDataSet ds = Some h ->
  (depth < length (mDims ds))%nat ->
  extend depth numTimes ds st
  = Some (if snd (ds_extend h (grown_at depth numTimes ds) st)
          then (set_mDims (grown_at depth numTimes ds) ds,
                fst (ds_extend h (grown_at depth numTimes ds) st), Returned)
          else (ds, fst (ds_extend h (grown_at depth numTimes ds) st),
                Thrown)).
Proof.
  intros Hset Hds Hd. unfold extend. rewrite extendIR_climbs.
  cbn [extendIR Nat.add]. rewrite Hset. cbn [negb].
  rewrite Selection.store_at by exact Hd. cbn [obind].
  rewrite Hds. fold (grown_at depth numTimes ds).
  destruct (ds_extend h (grown_at depth numTimes ds) st) as [st' [|]];
    reflexivity.
Qed.

(** X16.  [extend] on the object [depth] orders below the highest asks the
    engine for the sizes with that of dimension [depth] grown by
    [numTimes] and the others as they are; the dataset takes these sizes
    when the engine returns and keeps its own when the engine throws. *)
Theorem extend_below_grows_its_dimension (depth : nat) (numTimes : Z)
  (ds : CPH5Dataset) (st : Storage) (h : handle) :
  mDimsSet ds = true ->
  mpDataSet ds = Some h ->
  (depth < length (mDims ds))%nat ->
  extend depth numTimes ds st
  = Some (if snd (ds_extend h (grown_at depth numTimes ds) st)
          then (set_mDims (grown_at depth numTimes ds) ds,
                fst (ds_extend h (grown_at depth numTimes ds) st), Returned)
          else (ds, fst (ds_extend h (grown_at depth numTimes ds) st),
                Thrown)).
Proof. apply extend_at. Qed.

(** The engine accepts every extension. *)
Definition accepts_all : Prop :=
  forall h size (st : Storage), snd (ds_extend h size st) = true.

Lemma nth_grown_at depth n ds i :
  (depth < length (mDims ds))%nat ->
  nth i (grown_at depth n ds) 0
  = if (i =? depth)%nat then to_hsize (nth depth (mDims ds) 0 + n)
    else nth i (mDims ds) 0.
Proof.
  intros Hd. unfold grown_at.
  destruct (Nat.eqb_spec i depth) as [->|Hne].
  - rewrite app_nth2 by (rewrite length_firstn; lia).
    rewrite length_firstn, Nat.min_l by lia.
    rewrite Nat.sub_diag. reflexivity.
  - destruct (Nat.lt_ge_cases i depth) as [Hlt|Hge].
    + rewrite app_nth1 by (rewrite length_firstn; lia).
      rewrite nth_firstn.
      destruct (i <? depth)%nat eqn:Ei; [reflexivity|].
      apply Nat.ltb_ge in Ei. lia.
    + rewrite app_nth2 by (rewrite length_firstn; lia).
      rewrite length_firstn, Nat.min_l by lia.
      replace (i - depth)%nat with (S (i - S depth)) by lia. cbn [nth].
      rewrite nth_skipn. f_equal. lia.
Qed.

Lemma length_grown_at depth n ds :
  (depth < length (mDims ds))%nat ->
  length (grown_at depth n ds) = length (mDims ds).
Proof.
  intros Hd. unfold grown_at.
  rewrite length_app, length_firstn. cbn [length]. rewrite length_skipn. lia.
Qed.

Lemma resize_from (h : handle) orders :
  accepts_all ->
  forall depth ds (st : Storage) tgt,
    mDimsSet ds = true ->
    mpDataSet ds = Some h ->
    length tgt = orders ->
    (depth + orders <= length (mDims ds))%nat ->
    (forall i, (depth <= i < depth + orders)%nat ->
       0 <= nth i (mDims ds) 0 <= int_max) ->
    Forall (fun d => 0 <= d <= int_max) tgt ->
    exists ds' st',
      resizeToR orders depth tgt ds st = Some (ds', st', Returned) /\
      mDimsSet ds' = true /\ mpDataSet ds' = Some h /\
      length (mDims ds') = length (mDims ds) /\
      forall i,
        nth i (mDims ds') 0
        = if (depth <=? i)%nat && (i <? depth + orders)%nat
          then Z.max (nth i (mDims ds) 0) (nth (i - depth) tgt 0)
          else nth i (mDims ds) 0.
Proof.
  intros Hacc.
  induction orders as [|orders IH]; intros depth ds st tgt Hset Hds Hlen Hfit
    Hcur Htgt.
  - exists ds, st. repeat split; auto.
    intros i. destruct (depth <=? i)%nat eqn:E1; [|reflexivity].
    destruct (i <? depth + 0)%nat eqn:E2; [|reflexivity].
    apply Nat.leb_le in E1. apply Nat.ltb_lt in E2. lia.
  - destruct tgt as [|d tgt]; [discriminate|].
    inversion Htgt as [|? ? Hd Htgt']; subst.
    cbn [resizeToR nth_error obind tl].
    rewrite getDimSize_below, Hset.
    pose proof (Hcur depth ltac:(lia)) as Hc.
    rewrite to_int_id by (unfold in_int, int_min, int_max in *; lia).
    rewrite to_hsize_id by (unfold int_max in *; lia).
    set (cur := nth depth (mDims ds) 0) in *.
    assert (Hnext : forall ds1 (st1 : Storage),
              mDimsSet ds1 = true -> mpDataSet ds1 = Some h ->
              length (mDims ds1) = length (mDims ds) ->
              (forall i, nth i (mDims ds1) 0
                         = if (i =? depth)%nat then Z.max cur d
                           else nth i (mDims ds) 0) ->
              exists ds' st',
                resizeToR orders (S depth) tgt ds1 st1
                = Some (ds', st', Returned) /\
                mDimsSet ds' = true /\ mpDataSet ds' = Some h /\
                length (mDims ds') = length (mDims ds) /\
                forall i,
                  nth i (mDims ds') 0
                  = if (depth <=? i)%nat && (i <? depth + S orders)%nat
                    then Z.max (nth i (mDims ds) 0)
                               (nth (i - depth) (d :: tgt) 0)
                    else nth i (mDims ds) 0).
    { intros ds1 st1 Hset1 Hds1 Hlen1 Hn1.
      assert (A1 : length tgt = orders) by (simpl in Hlen; lia).
      assert (A2 : (S depth + orders <= length (mDims ds1))%nat)
        by (rewrite Hlen1; lia).
      assert (A3 : forall i, (S depth <= i < S depth + orders)%nat ->
                0 <= nth i (mDims ds1) 0 <= int_max).
      { intros i Hi. rewrite Hn1.
        destruct (Nat.eqb_spec i depth); [lia|]. apply Hcur. lia. }
      destruct (IH (S depth) ds1 st1 tgt Hset1 Hds1 A1 A2 A3 Htgt') as
          (ds' & st' & Hr & Hs' & Hh' & Hl' & Hn').
      exists ds', st'.
      split; [exact Hr|]. split; [exact Hs'|]. split; [exact Hh'|].
      split; [congruence|].
      intros i. rewrite Hn', Hn1.
      destruct (Nat.eqb_spec i depth) as [->|Hne].
      - destruct (S depth <=? depth)%nat eqn:E1;
          [apply Nat.leb_le in E1; lia|].
        cbn [andb]. rewrite Nat.leb_refl.
        destruct (depth <? depth + S orders)%nat eqn:E2;
          [|apply Nat.ltb_ge in E2; lia].
        cbn [andb]. rewrite Nat.sub_diag. reflexivity.
      - destruct (Nat.leb_spec (S depth) i) as [Hle|Hgt].
        + destruct (Nat.leb_spec depth i); [|lia].
          replace (depth + S orders)%nat with (S depth + orders)%nat by lia.
          destruct (i <? S depth + orders)%nat; cbn [andb]; [|reflexivity].
          replace (i - depth)%nat with (S (i - S depth)) by lia.
          reflexivity.
        + cbn [andb]. destruct (Nat.leb_spec depth i); [lia|]. reflexivity. }
    destruct (Z.ltb_spec cur d) as [Hlt|Hge].
    + rewrite to_hsize_id by (unfold int_max in *; lia).
      rewrite to_int_id by (unfold in_int, int_min, int_max in *; lia).
      rewrite (@extend_at depth (d - cur) ds st h)
        by (auto; lia).
      rewrite Hacc. cbn [obind fst snd].
      apply Hnext; auto.
      * cbn [mDims set_mDims]. apply length_grown_at. lia.
      * intros i. cbn [mDims set_mDims].
        rewrite nth_grown_at by lia. fold cur.
        destruct (i =? depth)%nat; [|reflexivity].
        replace (cur + (d - cur)) with d by lia.
        rewrite to_hsize_id by (unfold int_max in *; lia). lia.
    + cbn [obind fst snd]. apply Hnext; auto.
      intros i. destruct (Nat.eqb_spec i depth) as [->|]; [|reflexivity].
      fold cur. lia.
Qed.

(** X17.  With an engine that accepts every extension, [resizeToR] brings
    every dimension to the larger of its size and the size asked for: no
    dimension shrinks. *)
Theorem resize_reaches_the_larger_sizes (ds : CPH5Dataset) (st : Storage)
  (h : handle) (target : list Z) :
  accepts_all ->
  mDimsSet ds = true ->
  mpDataSet ds = Some h ->
  length target = nDims ds ->
  (nDims ds <= length (mDims ds))%nat ->
  (forall i, (i < nDims ds)%nat -> 0 <= nth i (mDims ds) 0 <= int_max) ->
  Forall (fun d => 0 <= d <= int_max) target ->
  exists ds' st',
    resizeToR (nDims ds) 0 target ds st = Some (ds', st', Returned) /\
    (forall i, (i < nDims ds)%nat ->
       nth i (mDims ds') 0 = Z.max (nth i (mDims ds) 0) (nth i target 0)) /\
    (forall i, (nDims ds <= i)%nat ->
       nth i (mDims ds') 0 = nth i (mDims ds) 0).
Proof.
  intros Hacc Hset Hds Hlen Hfit Hcur Htgt.
  destruct (@resize_from h (nDims ds) Hacc 0%nat ds st target)
    as (ds' & st' & Hr & _ & _ & _ & Hn); auto.
  { intros i Hi. apply Hcur. lia. }
  exists ds', st'. split; [exact Hr|]. split.
  - intros i Hi. rewrite Hn. cbn [Nat.leb Nat.add andb].
    destruct (Nat.ltb_spec i (nDims ds)); [|lia].
    rewrite Nat.sub_0_r. reflexivity.
  - intros i Hi. rewrite Hn. cbn [Nat.leb Nat.add andb].
    destruct (Nat.ltb_spec i (nDims ds)); [lia|]. reflexivity.
Qed.

End Growing.

(** *** Worked rows *)

(** Three rows of four, at most eight rows, open under handle 0. *)
Definition grid : CPH5Dataset :=
  {| nDims := 2; mType := int32; mDims := [3; 4; 0]; mMaxDims := [8; 4; 0];
     mpDataSet := Some O; mDimsSet := true;
     mpIOFacility := IOFacility.new_facility |}.

Example rows_from_the_second :
  option_map (fun r => rec_log (snd r))
    (writeRawStartingAt (E := Recorder (list Z)) IOFacility.no_junk 0 1
       [1; 2; 3; 4; 5; 6; 7; 8] grid IOFacility.grid3x4)
  = Some [ReqWrite O [1; 2; 3; 4; 5; 6; 7; 8] int32
            (SimpleSpace [2; 4] None)
            (SimpleSpace [3; 4] (Some ([2; 4], [1; 0])))]
  /\ option_map (fun r => rec_log (snd r))
       (writeRawStartingAt (E := Recorder (list Z)) IOFacility.no_junk 1 2
          [7; 8] (indexed [1] grid) IOFacility.grid3x4)
     = Some [ReqWrite O [7; 8] int32 (SimpleSpace [1; 2] None)
               (SimpleSpace [3; 4] (Some ([1; 2], [1; 2])))].
Proof. split; reflexivity. Qed.

Lemma rows_written_from_offset_witness :
  exists ds',
    writeRawStartingAt (E := Recorder (list Z)) IOFacility.no_junk
      (length [1]) 2 [7; 8] (indexed [1] grid) IOFacility.grid3x4
    = Some (ds',
            @ds_write _ (Recorder (list Z)) O [7; 8] (mType grid)
              (SimpleSpace
                 (repeat 1 (length [1])
                  ++ (nth (length [1]) (mDims grid) 0 - 2)
                  :: skipn (S (length [1]))
                       (firstn (nDims grid) (mDims grid)))
                 None)
              (SimpleSpace (@ds_dims _ (Recorder (list Z)) IOFacility.grid3x4 O)
                 (Some (repeat 1 (length [1])
                        ++ (nth (length [1]) (mDims grid) 0 - 2)
                        :: skipn (S (length [1]))
                             (firstn (nDims grid) (mDims grid)),
                        map to_hsize [1]
                        ++ 2 :: repeat 0 (nDims grid - S (length [1])))))
              IOFacility.grid3x4) /\
    mDims ds' = mDims grid.
Proof.
  apply (@rows_written_from_offset (list Z) (Recorder (list Z))
           IOFacility.no_junk grid IOFacility.grid3x4 O [1] 2 [7; 8]).
  - reflexivity.
  - simpl. lia.
  - simpl. lia.
  - repeat constructor; unfold int_max; lia.
  - simpl. lia.
  - simpl. lia.
  - reflexivity.
Defined.

Lemma sizes_reported_as_int_witness :
  getDims (setDimensions [3; 4] [H5S_UNLIMITED; 4] grid) = map to_int [3; 4] /\
  getMaxDims (setDimensions [3; 4] [H5S_UNLIMITED; 4] grid)
  = map to_int [H5S_UNLIMITED; 4] /\
  (forall i, nth_error [H5S_UNLIMITED; 4] i = Some H5S_UNLIMITED ->
     nth_error (getMaxDims (setDimensions [3; 4] [H5S_UNLIMITED; 4] grid)) i
     = Some (-1)) /\
  (mDimsSet grid = false ->
   getDims grid = repeat 0 (nDims grid) /\
   getMaxDims grid = repeat 0 (nDims grid)).
Proof.
  apply (@sizes_reported_as_int [3; 4] [H5S_UNLIMITED; 4] grid); reflexivity.
Defined.

Example unlimited_is_reported_negative :
  getMaxDims (setDimensions [3; 4] [H5S_UNLIMITED; 4] grid) = [-1; 4].
Proof. reflexivity. Qed.

Lemma extend_below_grows_its_dimension_witness :
  extend (E := Recorder (list Z)) 1 2 grid IOFacility.grid3x4
  = Some (set_mDims [3; 6; 0] grid,
          fst (@ds_extend _ (Recorder (list Z)) O [3; 6; 0] IOFacility.grid3x4),
          Returned).
Proof.
  exact (@extend_below_grows_its_dimension (list Z) (Recorder (list Z))
           1%nat 2 grid IOFacility.grid3x4 O eq_refl eq_refl
           ltac:(simpl; lia)).
Defined.

Lemma resize_reaches_the_larger_sizes_witness :
  exists ds' st',
    resizeToR (E := Recorder (list Z)) (nDims grid) 0 [5; 2] grid
      IOFacility.grid3x4 = Some (ds', st', Returned) /\
    (forall i, (i < nDims grid)%nat ->
       nth i (mDims ds') 0 = Z.max (nth i (mDims grid) 0) (nth i [5; 2] 0)) /\
    (forall i, (nDims grid <= i)%nat ->
       nth i (mDims ds') 0 = nth i (mDims grid) 0).
Proof.
  apply (@resize_reaches_the_larger_sizes (list Z) (Recorder (list Z))
           grid IOFacility.grid3x4 O [5; 2]).
  - intros h size st. reflexivity.
  - reflexivity.
  - reflexivity.
  - reflexivity.
  - simpl. lia.
  - intros i Hi. simpl in Hi.
    destruct i as [|[|i]]; simpl; unfold int_max; lia.
  - repeat constructor; unfold int_max; lia.
Defined.

Example grid_resized :
  option_map (fun r => mDims (fst (fst r)))
    (resizeToR (E := Recorder (list Z)) 2 0 [5; 2] grid IOFacility.grid3x4)
  = Some [5; 4; 0].
Proof. reflexivity. Qed.

End Rows.

(* ------------------------------------------------------------------------- *)
(** ** cph5group.h: the children of a [CPH5Group] *)

Module Group.

(** A [CPH5GroupMember *]: children are told apart by their address. *)
Definition member_ref := nat.

(** [std::vector<CPH5GroupMember*>]. *)
Definition ChildList := list member_ref.

Definition registerChild (child : member_ref) (mChildren : ChildList)
  : ChildList :=
  mChildren ++ [child].

(** How the loop of [unregisterChild] ends: the iterator reaches [end()], or
    [++it] is applied to the [end()] that [erase] returned, which the
    language leaves undefined.  Both carry the vector as it is then. *)
Inductive loop_end :=
| Finished (mChildren : ChildList)
| PastTheEnd (mChildren : ChildList).

Definition keep (x : member_ref) (e : loop_end) : loop_end :=
  match e with
  | Finished l => Finished (x :: l)
  | PastTheEnd l => PastTheEnd (x :: l)
  end.

(** The loop [for (it = begin(); it != end(); ++it)] that erases at [it]
    when the element there is [child], over the elements from [it] on:
    [erase] returns the position of the element that followed, and the
    [++it] of the loop steps over it. *)
Fixpoint unregisterChild (child : member_ref) (from_it : ChildList)
  : loop_end :=
  match from_it with
  | [] => Finished []
  | x :: after =>
      if Nat.eqb x child then
        match after with
        | [] => PastTheEnd []
        | y :: r => keep y (unregisterChild child r)
        end
      else keep x (unregisterChild child after)
  end.

(** Whether [child] is the last element of the vector. *)
Definition is_last (child : member_ref) (l : ChildList) : bool :=
  match rev l with
  | x :: _ => Nat.eqb x child
  | [] => false
  end.

Lemma unregister_absent child l :
  ~ In child l -> unregisterChild child l = Finished l.
Proof.
  induction l as [|x l IH]; intros Hn; [reflexivity|].
  cbn [unregisterChild].
  destruct (Nat.eqb_spec x child) as [->|Hx].
  - exfalso. apply Hn. left. reflexivity.
  - rewrite IH; [reflexivity|]. intros Hin. apply Hn. right. exact Hin.
Qed.

Lemma is_last_cons child x y l :
  is_last child (x :: y :: l) = is_last child (y :: l).
Proof.
  unfold is_last. cbn [rev].
  destruct (rev l ++ [y]) as [|z r] eqn:Hr.
  - destruct (rev l); discriminate Hr.
  - reflexivity.
Qed.

Lemma is_last_absent child l : ~ In child l -> is_last child l = false.
Proof.
  intros Hn. unfold is_last.
  destruct (rev l) as [|x r] eqn:Hr; [reflexivity|].
  apply Nat.eqb_neq. intros ->. apply Hn.
  apply in_rev. rewrite Hr. left. reflexivity.
Qed.

Lemma removelast_cons (x y : member_ref) l :
  removelast (x :: y :: l) = x :: removelast (y :: l).
Proof. reflexivity. Qed.

Lemma unregister_last_registered child l :
  ~ In child l ->
  unregisterChild child (registerChild child l) = PastTheEnd l.
Proof.
  unfold registerChild.
  induction l as [|x l IH]; intros Hn.
  - cbn [app unregisterChild]. rewrite Nat.eqb_refl. reflexivity.
  - cbn [app unregisterChild].
    destruct (Nat.eqb_spec x child) as [->|Hx].
    + exfalso. apply Hn. left. reflexivity.
    + rewrite IH; [reflexivity|]. intros Hin. apply Hn. right. exact Hin.
Qed.

(** X18.  On a vector of distinct children [unregisterChild] removes the
    child and keeps the others in their order, unless the child is the
    last of the vector: then it is erased and the loop increments the
    [end()] that [erase] returned.  This is what happens to the child
    registered last. *)
Theorem unregister_skips_the_next (child : member_ref) (l : ChildList) :
  NoDup l ->
  unregisterChild child l
  = (if is_last child l then PastTheEnd (removelast l)
     else Finished (remove Nat.eq_dec child l)) /\
  (~ In child l ->
   unregisterChild child (registerChild child l) = PastTheEnd l).
Proof.
  intros Hd. split; [|apply unregister_last_registered].
  induction l as [|x l IH]; [reflexivity|].
  inversion Hd as [|? ? Hx Hl]; subst.
  cbn [unregisterChild remove].
  destruct (Nat.eqb_spec x child) as [->|Hne].
  - destruct (Nat.eq_dec child child) as [_|N]; [|contradiction].
    rewrite (notin_remove Nat.eq_dec l child Hx).
    destruct l as [|y r].
    { unfold is_last. cbn [rev app]. rewrite Nat.eqb_refl. reflexivity. }
    rewrite is_last_cons, is_last_absent by exact Hx.
    assert (Hr : ~ In child r) by (intros H; apply Hx; right; exact H).
    rewrite unregister_absent by exact Hr. reflexivity.
  - destruct (Nat.eq_dec child x) as [E|_]; [congruence|].
    rewrite IH by exact Hl.
    destruct l as [|y r].
    + unfold is_last. cbn [rev app unregisterChild keep remove].
      apply Nat.eqb_neq in Hne. rewrite Hne. reflexivity.
    + rewrite is_last_cons, removelast_cons.
      destruct (is_last child (y :: r)); reflexivity.
Qed.

Example unregister_by_position :
  (unregisterChild 2 [1; 2; 3] = Finished [1; 3] /\
   unregisterChild 3 [1; 2; 3] = PastTheEnd [1; 2] /\
   unregisterChild 7 (registerChild 7 [1; 2]) = PastTheEnd [1; 2] /\
   unregisterChild 2 [1; 2; 2; 3] = Finished [1; 2; 3])%nat.
Proof. repeat split. Qed.

Lemma unregister_skips_the_next_witness :
  (unregisterChild 2 [1; 2; 3]
   = (if is_last 2 [1; 2; 3] then PastTheEnd (removelast [1; 2; 3])
      else Finished (remove Nat.eq_dec 2 [1; 2; 3])) /\
   (~ In 2 [1; 2; 3] ->
    unregisterChild 2 (registerChild 2 [1; 2; 3]) = PastTheEnd [1; 2; 3]))%nat.
Proof.
  apply (@unregister_skips_the_next 2%nat [1; 2; 3]%nat).
  repeat constructor; simpl; intuition lia.
Defined.

End Group.
